(** * Order fulfilment engine of nest-ecommerce: a shallow embedding

  The embedding follows the TypeScript sources:
  - [src/database/entities/*.entity.ts] for the rows,
  - [src/common/utils/order-status.util.ts] for the status table,
  - [src/modules/orders/orders.service.ts] for checkout, cancellation and
    status updates,
  - [src/modules/cart/cart.service.ts] for the cart,
  - [src/modules/coupons/coupons.service.ts] for the coupons,
  - [src/modules/admin/admin.service.ts] and
    [src/modules/orders/orders.controller.ts] for the other routes that
    change the status of an order.

  Conventions.
  - Integer columns (stock, soldCount, quantity, usedCount) are [Z].
  - Money and rates are JavaScript numbers; they are modelled as exact
    canonical rationals [Qc].  [Math.round x] is [Qfloor (x + 1/2)].
    A [decimal] column is read back as a string that is never empty: it is
    truthy, and arithmetic and comparisons convert it to its number.
  - Tables keyed by a primary key are [gmap string row]; tables whose rows
    are searched or listed (cart lines, order items, payments) are lists,
    a row being identified by its position.
  - [new Date()], the generated order number and the generated primary
    keys come from an environment record.
  - A method that throws returns [inl exception]; the exceptions carry the
    data interpolated in their messages.
  - Inside a transaction every call of the query runner (connect, start,
    find, increment, decrement, save, delete, commit) can fail: a fault
    plan says which call throws.  A rollback gives back the tables the
    transaction started from.  Reads and single saves outside a
    transaction ([findOne], [orderRepository.save],
    [cartItemRepository.save]) are total.
  - A [where] clause is equality on the listed columns; a key whose value
    is undefined is dropped from the clause.  A [findOne] on columns that
    are not a unique key returns any one of the matching rows: the choice
    of the database is an argument [pick] of the method.
  - [String.prototype.toUpperCase] is an argument of the coupon lookups;
    no property of it is assumed.
  - Concurrent requests are not modelled: each method runs to its end on
    the tables it is given. *)

From Stdlib Require Import QArith Qcanon Qround.
From stdpp Require Import gmap strings list fin_maps numbers.

Local Open Scope Z_scope.

(* ===================================================================== *)
(** * Entities *)
(* ===================================================================== *)

Module Entities.

Inductive ProductStatus := DRAFT | ACTIVE | INACTIVE | ARCHIVED.

Inductive OrderStatus :=
| PENDING | CONFIRMED | PROCESSING | SHIPPED
| DELIVERED | CANCELLED | REFUNDED | RETURNED.

Inductive PaymentStatus :=
| PAY_PENDING | PAY_PROCESSING | PAY_COMPLETED
| PAY_FAILED | PAY_REFUNDED | PAY_CANCELLED.

Inductive PaymentMethod :=
| CREDIT_CARD | DEBIT_CARD | PAYPAL | BANK_TRANSFER | STRIPE
| CASH_ON_DELIVERY.

Inductive CouponStatus := COUPON_ACTIVE | COUPON_INACTIVE | COUPON_EXPIRED.

Inductive DiscountType := PERCENTAGE | FIXED_AMOUNT.

#[global] Instance ProductStatus_eq_dec : EqDecision ProductStatus.
Proof. solve_decision. Defined.
#[global] Instance OrderStatus_eq_dec : EqDecision OrderStatus.
Proof. solve_decision. Defined.
#[global] Instance PaymentStatus_eq_dec : EqDecision PaymentStatus.
Proof. solve_decision. Defined.
#[global] Instance CouponStatus_eq_dec : EqDecision CouponStatus.
Proof. solve_decision. Defined.
#[global] Instance DiscountType_eq_dec : EqDecision DiscountType.
Proof. solve_decision. Defined.

(** [Product]: the columns the order engine reads or writes. *)
Record Product := mkProduct {
  p_sku : string;
  p_name : string;
  p_price : Qc;
  p_salePrice : option Qc;
  p_stock : Z;
  p_status : ProductStatus;
  p_images : option (list string);
  p_soldCount : Z;
}.

Record ProductVariant := mkVariant {
  v_productId : string;
  v_sku : string;
  v_name : string;
  v_price : Qc;
  v_salePrice : option Qc;
  v_stock : Z;
  v_active : bool;
}.

Record CartItem := mkCartItem {
  ci_userId : string;
  ci_productId : string;
  ci_variantId : option string;
  ci_quantity : Z;
}.

Record Address := mkAddress {
  firstName : string; lastName : string; street : string; city : string;
  state : string; zipCode : string; country : string; phone : string;
}.

Record Order := mkOrder {
  o_orderNumber : string;
  o_userId : string;
  o_status : OrderStatus;
  o_subtotal : Qc;
  o_discount : Qc;
  o_tax : Qc;
  o_shippingCost : Qc;
  o_total : Qc;
  o_shippingAddress : Address;
  o_billingAddress : Address;
  o_notes : option string;
  o_trackingNumber : option string;
  o_shippedAt : option Z;
  o_deliveredAt : option Z;
  o_cancelledAt : option Z;
  o_cancellationReason : option string;
}.

(** The object passed to [JSON.stringify] for [productSnapshot]. *)
Record ProductSnapshot := mkSnapshot {
  snap_name : string;
  snap_image : option string;
  snap_variant : option string;
}.

Record OrderItem := mkOrderItem {
  oi_orderId : string;
  oi_productId : string;
  oi_variantId : option string;
  oi_name : string;
  oi_sku : string;
  oi_unitPrice : Qc;
  oi_quantity : Z;
  oi_total : Qc;
  oi_productSnapshot : ProductSnapshot;
}.

Record Payment := mkPayment {
  pay_orderId : string;
  pay_amount : Qc;
  pay_currency : string;
  pay_paymentMethod : PaymentMethod;
  pay_paymentStatus : PaymentStatus;
  pay_description : string;
  pay_refundedAt : option Z;
  pay_refundReason : option string;
}.

Record Coupon := mkCoupon {
  c_code : string;
  c_discountType : DiscountType;
  c_discountValue : Qc;
  c_minOrderAmount : Qc;
  c_maxUses : Z;
  c_usedCount : Z;
  c_maxUsesPerUser : Z;
  c_validFrom : option Z;
  c_validUntil : option Z;
  c_status : CouponStatus;
  c_applicableCategories : option (list string);
  c_applicableProducts : option (list string);
  c_freeShipping : bool;
}.

(** Field updates ([row.field = value] in the source). *)
Definition set_p_stock (f : Z → Z) (p : Product) : Product :=
  mkProduct (p_sku p) (p_name p) (p_price p) (p_salePrice p) (f (p_stock p))
            (p_status p) (p_images p) (p_soldCount p).

Definition set_p_soldCount (f : Z → Z) (p : Product) : Product :=
  mkProduct (p_sku p) (p_name p) (p_price p) (p_salePrice p) (p_stock p)
            (p_status p) (p_images p) (f (p_soldCount p)).

Definition set_v_stock (f : Z → Z) (v : ProductVariant) : ProductVariant :=
  mkVariant (v_productId v) (v_sku v) (v_name v) (v_price v) (v_salePrice v)
            (f (v_stock v)) (v_active v).

Definition set_ci_quantity (q : Z) (c : CartItem) : CartItem :=
  mkCartItem (ci_userId c) (ci_productId c) (ci_variantId c) q.

Definition set_c_usedCount (f : Z → Z) (c : Coupon) : Coupon :=
  mkCoupon (c_code c) (c_discountType c) (c_discountValue c)
           (c_minOrderAmount c) (c_maxUses c) (f (c_usedCount c))
           (c_maxUsesPerUser c) (c_validFrom c) (c_validUntil c) (c_status c)
           (c_applicableCategories c) (c_applicableProducts c)
           (c_freeShipping c).

Definition set_o_status (s : OrderStatus) (o : Order) : Order :=
  mkOrder (o_orderNumber o) (o_userId o) s (o_subtotal o) (o_discount o)
          (o_tax o) (o_shippingCost o) (o_total o) (o_shippingAddress o)
          (o_billingAddress o) (o_notes o) (o_trackingNumber o)
          (o_shippedAt o) (o_deliveredAt o) (o_cancelledAt o)
          (o_cancellationReason o).

Definition set_o_notes (n : option string) (o : Order) : Order :=
  mkOrder (o_orderNumber o) (o_userId o) (o_status o) (o_subtotal o)
          (o_discount o) (o_tax o) (o_shippingCost o) (o_total o)
          (o_shippingAddress o) (o_billingAddress o) n (o_trackingNumber o)
          (o_shippedAt o) (o_deliveredAt o) (o_cancelledAt o)
          (o_cancellationReason o).

Definition set_o_trackingNumber (t : option string) (o : Order) : Order :=
  mkOrder (o_orderNumber o) (o_userId o) (o_status o) (o_subtotal o)
          (o_discount o) (o_tax o) (o_shippingCost o) (o_total o)
          (o_shippingAddress o) (o_billingAddress o) (o_notes o) t
          (o_shippedAt o) (o_deliveredAt o) (o_cancelledAt o)
          (o_cancellationReason o).

Definition set_o_shippedAt (t : option Z) (o : Order) : Order :=
  mkOrder (o_orderNumber o) (o_userId o) (o_status o) (o_subtotal o)
          (o_discount o) (o_tax o) (o_shippingCost o) (o_total o)
          (o_shippingAddress o) (o_billingAddress o) (o_notes o)
          (o_trackingNumber o) t (o_deliveredAt o) (o_cancelledAt o)
          (o_cancellationReason o).

Definition set_o_deliveredAt (t : option Z) (o : Order) : Order :=
  mkOrder (o_orderNumber o) (o_userId o) (o_status o) (o_subtotal o)
          (o_discount o) (o_tax o) (o_shippingCost o) (o_total o)
          (o_shippingAddress o) (o_billingAddress o) (o_notes o)
          (o_trackingNumber o) (o_shippedAt o) t (o_cancelledAt o)
          (o_cancellationReason o).

Definition set_o_cancelledAt (t : option Z) (o : Order) : Order :=
  mkOrder (o_orderNumber o) (o_userId o) (o_status o) (o_subtotal o)
          (o_discount o) (o_tax o) (o_shippingCost o) (o_total o)
          (o_shippingAddress o) (o_billingAddress o) (o_notes o)
          (o_trackingNumber o) (o_shippedAt o) (o_deliveredAt o) t
          (o_cancellationReason o).

Definition set_o_cancellationReason (r : option string) (o : Order) : Order :=
  mkOrder (o_orderNumber o) (o_userId o) (o_status o) (o_subtotal o)
          (o_discount o) (o_tax o) (o_shippingCost o) (o_total o)
          (o_shippingAddress o) (o_billingAddress o) (o_notes o)
          (o_trackingNumber o) (o_shippedAt o) (o_deliveredAt o)
          (o_cancelledAt o) r.

Definition set_pay_refund (st : PaymentStatus) (at_ : option Z)
    (reason : option string) (p : Payment) : Payment :=
  mkPayment (pay_orderId p) (pay_amount p) (pay_currency p)
            (pay_paymentMethod p) st (pay_description p) at_ reason.

End Entities.
Export Entities.

(* ===================================================================== *)
(** * The status table ([order-status.util.ts]) *)
(* ===================================================================== *)

Module OrderStatusUtil.

Definition ORDER_STATUS_TRANSITIONS (s : OrderStatus) : list OrderStatus :=
  match s with
  | PENDING => [CONFIRMED; CANCELLED]
  | CONFIRMED => [PROCESSING; CANCELLED]
  | PROCESSING => [SHIPPED; CANCELLED]
  | SHIPPED => [DELIVERED]
  | DELIVERED => [RETURNED]
  | CANCELLED => []
  | REFUNDED => []
  | RETURNED => []
  end.

(** [Array.prototype.includes] on statuses. *)
Definition includes (l : list OrderStatus) (s : OrderStatus) : bool :=
  bool_decide (s ∈ l).

Definition canTransition (currentStatus newStatus : OrderStatus) : bool :=
  let allowedTransitions := ORDER_STATUS_TRANSITIONS currentStatus in
  includes allowedTransitions newStatus
  || bool_decide (currentStatus = newStatus).

Definition getValidTransitions (currentStatus : OrderStatus) : list OrderStatus :=
  ORDER_STATUS_TRANSITIONS currentStatus.

Definition isFinalStatus (status : OrderStatus) : bool :=
  bool_decide (length (ORDER_STATUS_TRANSITIONS status) = 0%nat).

(** The eight directed edges of the specification's diagram. *)
Definition spec_edge (from to : OrderStatus) : bool :=
  match from, to with
  | PENDING, CONFIRMED | PENDING, CANCELLED
  | CONFIRMED, PROCESSING | CONFIRMED, CANCELLED
  | PROCESSING, SHIPPED | PROCESSING, CANCELLED
  | SHIPPED, DELIVERED
  | DELIVERED, RETURNED => true
  | _, _ => false
  end.

End OrderStatusUtil.

(* ===================================================================== *)
(** * Storage: the tables, exceptions and the transaction monad *)
(* ===================================================================== *)

Module Storage.

Record DB := mkDB {
  products : gmap string Product;
  variants : gmap string ProductVariant;
  cartItems : list CartItem;
  orders : gmap string Order;
  orderItems : list OrderItem;
  payments : list Payment;
  coupons : gmap string Coupon;
}.

Definition set_products (f : gmap string Product → gmap string Product)
    (db : DB) : DB :=
  mkDB (f (products db)) (variants db) (cartItems db) (orders db)
       (orderItems db) (payments db) (coupons db).

Definition set_variants
    (f : gmap string ProductVariant → gmap string ProductVariant)
    (db : DB) : DB :=
  mkDB (products db) (f (variants db)) (cartItems db) (orders db)
       (orderItems db) (payments db) (coupons db).

Definition set_cartItems (f : list CartItem → list CartItem) (db : DB) : DB :=
  mkDB (products db) (variants db) (f (cartItems db)) (orders db)
       (orderItems db) (payments db) (coupons db).

Definition set_orders (f : gmap string Order → gmap string Order)
    (db : DB) : DB :=
  mkDB (products db) (variants db) (cartItems db) (f (orders db))
       (orderItems db) (payments db) (coupons db).

Definition set_orderItems (f : list OrderItem → list OrderItem) (db : DB) : DB :=
  mkDB (products db) (variants db) (cartItems db) (orders db)
       (f (orderItems db)) (payments db) (coupons db).

Definition set_payments (f : list Payment → list Payment) (db : DB) : DB :=
  mkDB (products db) (variants db) (cartItems db) (orders db)
       (orderItems db) (f (payments db)) (coupons db).

Definition set_coupons (f : gmap string Coupon → gmap string Coupon)
    (db : DB) : DB :=
  mkDB (products db) (variants db) (cartItems db) (orders db)
       (orderItems db) (payments db) (f (coupons db)).

(** The exceptions thrown by the services.  Each constructor is one
    [throw] site; its arguments are the values interpolated in the
    message. *)
Inductive Exception :=
| CartIsEmpty                                  (* "Cart is empty" *)
| ProductNotAvailable (productId : string)     (* "Product ${id} is not available" *)
| InsufficientStock (name : string) (available : Z)
                                               (* "Insufficient stock for ${name}. Available: ${n}" *)
| OrderNotFound                                (* "Order not found" *)
| OrderNotCancellable                          (* "Order cannot be cancelled in current status" *)
| CannotTransition (from to : OrderStatus)     (* "Cannot transition from ${a} to ${b}" *)
| ProductNotFound                              (* "Product not found" *)
| ProductIsNotAvailable                        (* "Product is not available" *)
| VariantNotFound                              (* "Product variant not found" *)
| CartInsufficientStock (available : Z)        (* "Insufficient stock. Only ${n} items available." *)
| InvalidCouponCode                            (* "Invalid coupon code" *)
| CouponNotActive                              (* "Coupon is not active" *)
| CouponNotYetValid                            (* "Coupon is not yet valid" *)
| CouponExpired                                (* "Coupon has expired" *)
| CouponUsageLimitReached                      (* "Coupon usage limit reached" *)
| CouponMinimumNotMet (minOrderAmount : Qc)    (* "Minimum order amount of $${m} required for this coupon" *)
| CouponUserLimitReached                       (* "You have reached the maximum usage limit for this coupon" *)
| CouponNotApplicable                          (* "Coupon not applicable to these products" *)
| StorageFailure.                              (* an error raised by the query runner *)

(** What the environment decides for one request. *)
Record Env := mkEnv {
  env_now : Z;                 (* new Date() / Date.now() *)
  env_orderNumber : string;    (* `ORD-${Date.now()}-${uuid}` *)
  env_orderId : string;        (* the generated primary key of the order *)
}.

(** The state of an open transaction: the connection's view of the
    tables and the fault plan.  [tx_faultIn = Some n] makes the
    [(n+1)]-th call of the query runner throw; [None] never throws. *)
Record TxState := mkTx { tx_db : DB; tx_faultIn : option nat }.

Definition Tx (A : Type) : Type := TxState → Exception + (A * TxState).

Definition ret {A} (a : A) : Tx A := λ st, inr (a, st).

Definition bind {A B} (m : Tx A) (k : A → Tx B) : Tx B :=
  λ st, match m st with
        | inl e => inl e
        | inr (a, st') => k a st'
        end.

Definition throw {A} (e : Exception) : Tx A := λ _, inl e.

(** One round trip to the database: it throws if the fault plan says so,
    otherwise it runs [f] on the connection's view. *)
Definition call {A} (f : DB → A * DB) : Tx A :=
  λ st, match tx_faultIn st with
        | Some O => inl StorageFailure
        | Some (S n) => let '(a, db') := f (tx_db st) in
                        inr (a, mkTx db' (Some n))
        | None => let '(a, db') := f (tx_db st) in
                  inr (a, mkTx db' None)
        end.

Definition read {A} (f : DB → A) : Tx A := call (λ db, (f db, db)).
Definition write (f : DB → DB) : Tx unit := call (λ db, (tt, f db)).

(** [queryRunner.connect(); startTransaction(); try { body; commit }
    catch { rollbackTransaction(); throw } finally { release() }].
    A rollback discards the connection's view, a commit publishes it. *)
Definition transaction {A} (fault : option nat) (body : Tx A) (db : DB)
    : (Exception + A) * DB :=
  let connect := write (λ d, d) in
  let startTransaction := write (λ d, d) in
  let commitTransaction := write (λ d, d) in
  match bind connect (λ _, bind startTransaction (λ _,
        bind body (λ a, bind commitTransaction (λ _, ret a))))
        (mkTx db fault) with
  | inl e => (inl e, db)
  | inr (a, st) => (inr a, tx_db st)
  end.

(** [for (const x of xs) { body }] with an accumulator. *)
Fixpoint forEach {A S} (body : A → S → Tx S) (xs : list A) (acc : S) : Tx S :=
  match xs with
  | [] => ret acc
  | x :: xs' => bind (body x acc) (forEach body xs')
  end.

(** [manager.increment(Entity, { id }, column, n)] and [decrement]:
    [UPDATE ... SET column = column ± n WHERE id = :id], first as functions
    on the tables, then as calls of the query runner. *)
Definition addToProduct (id : string)
    (column : (Z → Z) → Product → Product) (n : Z) (db : DB) : DB :=
  set_products (alter (column (λ x, x + n)) id) db.

Definition subFromProduct (id : string)
    (column : (Z → Z) → Product → Product) (n : Z) (db : DB) : DB :=
  set_products (alter (column (λ x, x - n)) id) db.

(** The variant key is the nullable column [variantId]; the callers only
    reach these with a loaded variant, that is with [Some id]. *)
Definition addToVariant (id : option string) (n : Z) (db : DB) : DB :=
  match id with
  | Some v => set_variants (alter (set_v_stock (λ x, x + n)) v) db
  | None => db
  end.

Definition subFromVariant (id : option string) (n : Z) (db : DB) : DB :=
  match id with
  | Some v => set_variants (alter (set_v_stock (λ x, x - n)) v) db
  | None => db
  end.

Definition incrementProduct id column n : Tx unit :=
  write (addToProduct id column n).
Definition decrementProduct id column n : Tx unit :=
  write (subFromProduct id column n).
Definition incrementVariant id n : Tx unit := write (addToVariant id n).
Definition decrementVariant id n : Tx unit := write (subFromVariant id n).

(** [repository.findOne({ where })] without an [order] clause: the
    database returns one of the matching rows and does not say which.
    [pick] stands for that choice of the database; no row is returned only
    when no row matches. *)
Definition findOneOf {A} (pick : nat) (rows : list A) : option A :=
  rows !! Nat.modulo pick (length rows).

End Storage.
Export Storage.

Notation "'let*' x ':=' m 'in' k" := (Storage.bind m (λ x, k))
(at level 10, x pattern, m at level 100, k at level 200).
Notation "'run' m 'then' k" := (Storage.bind m (λ _, k))
(at level 10, m at level 100, k at level 200).

(** JavaScript helpers. *)
Module JS.

(** [if (s)] on a string: the empty string is falsy. *)
Definition truthy (s : string) : bool := bool_decide (s ≠ "").

(** [if (s)] on an optional string. *)
Definition truthy_opt (s : option string) : bool :=
  match s with Some x => truthy x | None => false end.

(** [Math.round]: the nearest integer, ties towards +∞.  It is taken on
    the exact value of its argument; on the doubles of JavaScript the
    argument can carry a rounding error, and next to a tie the result can
    then differ by one. *)
Definition Math_round (x : Qc) : Qc :=
  Qc_of_Z (Qfloor (this x + (1 # 2))).

(** [String.prototype.toUpperCase] restricted to strings of ASCII
    characters, where it maps [a]..[z] to [A]..[Z] and nothing else.  The
    services take the upper-casing function as an argument; this one is
    the instance used on the ASCII codes of the samples. *)
Fixpoint toUpperCase_ascii (s : string) : string :=
  match s with
  | EmptyString => EmptyString
  | String c s' =>
      let n := Ascii.nat_of_ascii c in
      String (if bool_decide (97 ≤ n ≤ 122)%nat
              then Ascii.ascii_of_nat (n - 32) else c)
             (toUpperCase_ascii s')
  end.

(** [Math.min] on two numbers. *)
Definition Math_min (x y : Qc) : Qc :=
  if bool_decide (x ≤ y)%Qc then x else y.

(** The number literals of the services. *)
Definition n0_08 : Qc := Q2Qc (8 # 100).
Definition n10 : Qc := Qc_of_Z 10.
Definition n100 : Qc := Qc_of_Z 100.

End JS.
Export JS.

(* ===================================================================== *)
(** * OrdersService ([orders.service.ts]) *)
(* ===================================================================== *)

Module OrdersService.

Record CreateOrderDto := mkCreateOrderDto {
  shippingAddress : Address;
  billingAddress : option Address;
  notes : option string;
  paymentMethod : option PaymentMethod;
  couponCode : option string;
}.

(** [configService.get<number>(key, defaultValue)]. *)
Definition get (configService : gmap string Qc) (key : string)
    (defaultValue : Qc) : Qc :=
  default defaultValue (configService !! key).

(** A cart line with its [product] and [variant] relations, as returned
    by [manager.find(CartItem, { where: { userId }, relations })]. *)
Record LoadedCartItem := mkLoadedCartItem {
  lci_item : CartItem;
  lci_product : option Product;
  lci_variant : option ProductVariant;
}.

Definition loadCartItem (db : DB) (ci : CartItem) : LoadedCartItem :=
  mkLoadedCartItem ci (products db !! ci_productId ci)
                   (ci_variantId ci ≫= λ v, variants db !! v).

Definition findCartItems (userId : string) (db : DB) : list LoadedCartItem :=
  loadCartItem db <$> filter (λ ci, ci_userId ci = userId) (cartItems db).

(** An order with its [items] (and their [product] and [variant]) and
    [payments] relations, as returned by [findOne].  A payment comes with
    its row position. *)
Record LoadedOrderItem := mkLoadedOrderItem {
  loi_item : OrderItem;
  loi_product : option Product;
  loi_variant : option ProductVariant;
}.

Record LoadedOrder := mkLoadedOrder {
  lo_id : string;
  lo_order : Order;
  lo_items : list LoadedOrderItem;
  lo_payments : list (nat * Payment);
}.

Definition loadOrderItem (db : DB) (oi : OrderItem) : LoadedOrderItem :=
  mkLoadedOrderItem oi (products db !! oi_productId oi)
                    (oi_variantId oi ≫= λ v, variants db !! v).

Definition loadOrder (db : DB) (orderId : string) (o : Order) : LoadedOrder :=
  mkLoadedOrder orderId o
    (loadOrderItem db <$> filter (λ oi, oi_orderId oi = orderId) (orderItems db))
    (filter (λ ip, pay_orderId ip.2 = orderId) (imap pair (payments db))).

Definition findOne (db : DB) (orderId : string) (userId : option string)
    : Exception + LoadedOrder :=
  match orders db !! orderId with
  | Some o =>
      if truthy_opt userId && negb (bool_decide (Some (o_userId o) = userId))
      then inl OrderNotFound
      else inr (loadOrder db orderId o)
  | None => inl OrderNotFound
  end.

(** [private async applyCoupon(couponCode, subtotal)]:
    "TODO: Implement coupon logic.  For now, return 0". *)
Definition applyCoupon (couponCode : string) (subtotal : Qc) : Tx Qc :=
  ret 0%Qc.

(** The values computed for one cart line of [create]:
    [price = cartItem.variant?.price ?? cartItem.product.price],
    [itemTotal = price * cartItem.quantity],
    [cartItem.variant?.stock ?? cartItem.product.stock], and the object
    pushed on [orderItems] ([orderId] is filled in once the order is
    saved). *)
Definition price (cartItem : LoadedCartItem) (product : Product) : Qc :=
  match lci_variant cartItem with
  | Some v => v_price v
  | None => p_price product
  end.

Definition itemTotal (cartItem : LoadedCartItem) (product : Product) : Qc :=
  (price cartItem product * Qc_of_Z (ci_quantity (lci_item cartItem)))%Qc.

Definition availableStock (cartItem : LoadedCartItem) (product : Product) : Z :=
  match lci_variant cartItem with
  | Some v => v_stock v
  | None => p_stock product
  end.

Definition orderItem (cartItem : LoadedCartItem) (product : Product)
    : OrderItem :=
  let ci := lci_item cartItem in
  mkOrderItem "" (ci_productId ci) (ci_variantId ci)
    (p_name product)
    (match lci_variant cartItem with
     | Some v => v_sku v
     | None => p_sku product
     end)
    (price cartItem product) (ci_quantity ci) (itemTotal cartItem product)
    (mkSnapshot (p_name product)
                (p_images product ≫= head)
                (v_name <$> lci_variant cartItem)).

(** "Deduct stock" and "Update sold count", as table updates. *)
Definition deductStock (cartItem : LoadedCartItem) : DB → DB :=
  let ci := lci_item cartItem in
  match lci_variant cartItem with
  | Some _ => subFromVariant (ci_variantId ci) (ci_quantity ci)
  | None => subFromProduct (ci_productId ci) set_p_stock (ci_quantity ci)
  end.

Definition updateSoldCount (cartItem : LoadedCartItem) : DB → DB :=
  let ci := lci_item cartItem in
  addToProduct (ci_productId ci) set_p_soldCount (ci_quantity ci).

(** The body of the loop over the cart lines; the accumulator is
    [(orderItems, subtotal)]. *)
Definition createLine (cartItem : LoadedCartItem)
    (acc : list OrderItem * Qc) : Tx (list OrderItem * Qc) :=
  let '(orderItems, subtotal) := acc in
  let ci := lci_item cartItem in
  match lci_product cartItem with
  | None => throw (ProductNotAvailable (ci_productId ci))
  | Some product =>
    if negb (bool_decide (p_status product = ACTIVE))
    then throw (ProductNotAvailable (ci_productId ci))
    else
      let subtotal := (subtotal + itemTotal cartItem product)%Qc in
      if bool_decide (ci_quantity ci > availableStock cartItem product)
      then throw (InsufficientStock (p_name product)
                                    (availableStock cartItem product))
      else
        run write (deductStock cartItem) then
        run write (updateSoldCount cartItem) then
        ret (orderItems ++ [orderItem cartItem product], subtotal)
  end.

Definition set_oi_orderId (orderId : string) (i : OrderItem) : OrderItem :=
  mkOrderItem orderId (oi_productId i) (oi_variantId i) (oi_name i)
              (oi_sku i) (oi_unitPrice i) (oi_quantity i) (oi_total i)
              (oi_productSnapshot i).

(** [manager.save(order)] for a new order: the row gets the generated
    primary key; the insert is refused when the key or the unique
    [orderNumber] is taken. *)
Definition saveNewOrder (id : string) (o : Order) : Tx string :=
  let* inserted :=
    call (λ db,
      if bool_decide (orders db !! id = None)
         && bool_decide (map_Forall
              (λ _ o', o_orderNumber o' ≠ o_orderNumber o) (orders db))
      then (true, set_orders (insert id o) db)
      else (false, db)) in
  if inserted : bool then ret id else throw StorageFailure.

Definition createBody (configService : gmap string Qc) (env : Env)
    (userId : string) (createOrderDto : CreateOrderDto) : Tx string :=
  (* Get cart items *)
  let* cartItems := read (findCartItems userId) in
  if bool_decide (length cartItems = 0%nat) then throw CartIsEmpty else
  (* Validate cart items and calculate totals *)
  let* (orderItems, subtotal) := forEach createLine cartItems ([], 0%Qc) in
  (* Calculate totals *)
  let taxRate := get configService "TAX_RATE" n0_08 in
  let shippingCost := get configService "SHIPPING_COST" n10 in
  let freeShippingThreshold :=
    get configService "FREE_SHIPPING_THRESHOLD" n100 in
  let tax := (Math_round (subtotal * taxRate * n100) / n100)%Qc in
  let finalShippingCost :=
    if bool_decide (freeShippingThreshold ≤ subtotal)%Qc
    then 0%Qc else shippingCost in
  let* discount :=
    match couponCode createOrderDto with
    | Some code => if truthy code then applyCoupon code subtotal else ret 0%Qc
    | None => ret 0%Qc
    end in
  let total :=
    (Math_round ((subtotal + tax + shippingCost - discount) * n100)
     / n100)%Qc in
  (* Generate order number *)
  let orderNumber := env_orderNumber env in
  (* Create order *)
  let order :=
    mkOrder orderNumber userId PENDING subtotal discount tax
            finalShippingCost total
            (shippingAddress createOrderDto)
            (default (shippingAddress createOrderDto)
                     (billingAddress createOrderDto))
            (notes createOrderDto) None None None None None in
  let* savedOrderId := saveNewOrder (env_orderId env) order in
  (* Create order items *)
  let orderItemEntities := set_oi_orderId savedOrderId <$> orderItems in
  run write (set_orderItems (λ l, l ++ orderItemEntities)) then
  (* Create initial payment record *)
  let payment :=
    mkPayment savedOrderId total "USD"
              (default STRIPE (paymentMethod createOrderDto))
              PAY_PENDING ("Payment for order " +:+ orderNumber)
              None None in
  run write (set_payments (λ l, l ++ [payment])) then
  (* Clear cart *)
  run write (set_cartItems (filter (λ ci, ci_userId ci ≠ userId))) then
  ret savedOrderId.

(** [create(userId, createOrderDto)]: the result and the tables after the
    call.  The order is read back after the commit. *)
Definition create (configService : gmap string Qc) (env : Env)
    (fault : option nat) (db : DB) (userId : string)
    (createOrderDto : CreateOrderDto) : (Exception + LoadedOrder) * DB :=
  match transaction fault
          (createBody configService env userId createOrderDto) db with
  | (inl e, db') => (inl e, db')
  | (inr savedOrderId, db') => (findOne db' savedOrderId (Some userId), db')
  end.

(** "Restore stock for each item" and "Reverse sold count", as table
    updates. *)
Definition restoreStock (item : LoadedOrderItem) : DB → DB :=
  let oi := loi_item item in
  match loi_variant item with
  | Some _ => addToVariant (oi_variantId oi) (oi_quantity oi)
  | None => addToProduct (oi_productId oi) set_p_stock (oi_quantity oi)
  end.

Definition reverseSoldCount (item : LoadedOrderItem) : DB → DB :=
  let oi := loi_item item in
  subFromProduct (oi_productId oi) set_p_soldCount (oi_quantity oi).

(** The transactional part of [cancel]: restore stock, reverse the sold
    count, mark the order cancelled and the completed payment refunded. *)
Definition cancelBody (env : Env) (order : LoadedOrder)
    (reason : option string) : Tx unit :=
  (* Restore stock for each item *)
  run forEach (λ item (_ : unit),
        run write (restoreStock item) then
        write (reverseSoldCount item))
      (lo_items order) tt then
  (* Update order status *)
  let o := set_o_status CANCELLED (lo_order order) in
  let o := set_o_cancelledAt (Some (env_now env)) o in
  let o := set_o_cancellationReason (Some (default "" reason)) o in
  run write (set_orders (insert (lo_id order) o)) then
  (* Update payment status if exists *)
  if bool_decide (0 < length (lo_payments order))%nat then
    match list_find (λ ip, pay_paymentStatus ip.2 = PAY_COMPLETED)
                    (lo_payments order) with
    | Some (_, (i, payment)) =>
        let payment :=
          set_pay_refund PAY_REFUNDED (Some (env_now env))
                         (Some (default "" reason)) payment in
        write (set_payments (λ l, <[i := payment]> l))
    | None => ret tt
    end
  else ret tt.

(** [cancel(userId, orderId, reason?)]. *)
Definition cancel (env : Env) (fault : option nat) (db : DB)
    (userId orderId : string) (reason : option string)
    : (Exception + LoadedOrder) * DB :=
  match findOne db orderId (Some userId) with
  | inl e => (inl e, db)
  | inr order =>
    if negb (bool_decide (o_status (lo_order order) ∈ [PENDING; CONFIRMED]))
    then (inl OrderNotCancellable, db)
    else
      match transaction fault (cancelBody env order reason) db with
      | (inl e, db') => (inl e, db')
      | (inr _, db') => (findOne db' orderId None, db')
      end
  end.

Record AdditionalData := mkAdditionalData {
  ad_trackingNumber : option string;
  ad_notes : option string;
}.

(** The table local to [updateStatus]. *)
Definition statusTransitions (s : OrderStatus) : list OrderStatus :=
  match s with
  | PENDING => [CONFIRMED; CANCELLED]
  | CONFIRMED => [PROCESSING; CANCELLED]
  | PROCESSING => [SHIPPED; CANCELLED]
  | SHIPPED => [DELIVERED]
  | DELIVERED => [RETURNED]
  | CANCELLED => []
  | REFUNDED => []
  | RETURNED => []
  end.

(** [updateStatus(orderId, status, additionalData?)]: the mutated order
    and the tables after [orderRepository.save(order)]. *)
Definition updateStatus (env : Env) (db : DB) (orderId : string)
    (status : OrderStatus) (additionalData : option AdditionalData)
    : (Exception + LoadedOrder) * DB :=
  match findOne db orderId None with
  | inl e => (inl e, db)
  | inr order =>
    let o := lo_order order in
    if negb (bool_decide (status ∈ statusTransitions (o_status o)))
       && bool_decide (o_status o ≠ status)
    then (inl (CannotTransition (o_status o) status), db)
    else
      let o := set_o_status status o in
      let o := if truthy_opt (additionalData ≫= ad_trackingNumber)
               then set_o_trackingNumber
                      (additionalData ≫= ad_trackingNumber) o
               else o in
      let o := if truthy_opt (additionalData ≫= ad_notes)
               then set_o_notes (additionalData ≫= ad_notes) o
               else o in
      let o := if bool_decide (status = SHIPPED)
               then set_o_shippedAt (Some (env_now env)) o else o in
      let o := if bool_decide (status = DELIVERED)
               then set_o_deliveredAt (Some (env_now env)) o else o in
      (inr (mkLoadedOrder (lo_id order) o (lo_items order)
                          (lo_payments order)),
       set_orders (insert orderId o) db)
  end.

End OrdersService.

(* ===================================================================== *)
(** * validateOrderStatusTransition and AdminService.updateOrderStatus *)
(* ===================================================================== *)

Module AdminService.

Definition validateOrderStatusTransition (currentStatus newStatus : OrderStatus)
    : Exception + unit :=
  if negb (OrderStatusUtil.canTransition currentStatus newStatus)
  then inl (CannotTransition currentStatus newStatus)
  else inr tt.

Definition updateOrderStatus (db : DB) (orderId : string)
    (status : OrderStatus) : (Exception + Order) * DB :=
  match orders db !! orderId with
  | None => (inl OrderNotFound, db)
  | Some order =>
    match validateOrderStatusTransition (o_status order) status with
    | inl e => (inl e, db)
    | inr _ =>
      let order := set_o_status status order in
      (inr order, set_orders (insert orderId order) db)
    end
  end.

End AdminService.

(* ===================================================================== *)
(** * CartService.addToCart ([cart.service.ts]) *)
(* ===================================================================== *)

Module CartService.

Record AddToCartDto := mkAddToCartDto {
  productId : string;
  variantId : option string;
  quantity : Z;
}.

(** [variantRepository.findOne({ where: { id, productId } })] followed by
    the [!variant || !variant.active] test. *)
Definition findVariant (db : DB) (id productId : string)
    : Exception + ProductVariant :=
  match variants db !! id with
  | Some v =>
      if bool_decide (v_productId v = productId) && v_active v
      then inr v else inl VariantNotFound
  | None => inl VariantNotFound
  end.

(** A [where] clause on [variantId]: a key whose value is [undefined] (or
    [null]) is dropped from the clause, so that an absent [variantId] puts
    no condition on the column. *)
Definition variantMatches (variantId : option string) (ci : CartItem) : Prop :=
  match variantId with
  | Some v => ci_variantId ci = Some v
  | None => True
  end.

#[global] Instance variantMatches_dec variantId ci :
  Decision (variantMatches variantId ci).
Proof. unfold variantMatches. destruct variantId; apply _. Defined.

(** The rows that [{ where: { userId, productId, variantId } }] matches,
    with their positions. *)
Definition matching (db : DB) (userId productId : string)
    (variantId : option string) : list (nat * CartItem) :=
  filter (λ ic, ci_userId ic.2 = userId ∧ ci_productId ic.2 = productId
                ∧ variantMatches variantId ic.2)
         (imap pair (cartItems db)).

(** [cartItemRepository.findOne({ where: { userId, productId, variantId } })]:
    one of the matching rows, with its position. *)
Definition findCartItem (pick : nat) (db : DB) (userId productId : string)
    (variantId : option string) : option (nat * CartItem) :=
  findOneOf pick (matching db userId productId variantId).

(** The validation prefix of [addToCart]: the product must exist and be
    active, the variant (if one is given) must belong to it and be active;
    the result is [availableStock = variant?.stock ?? product.stock]. *)
Definition availableStock (db : DB) (addToCartDto : AddToCartDto)
    : Exception + Z :=
  (* Validate product *)
  match products db !! productId addToCartDto with
  | None => inl ProductNotFound
  | Some product =>
    if bool_decide (p_status product ≠ ACTIVE)
    then inl ProductIsNotAvailable
    else
      (* Validate variant if provided *)
      match variantId addToCartDto with
      | Some id =>
          if truthy id
          then match findVariant db id (productId addToCartDto) with
               | inr variant => inr (v_stock variant)
               | inl e => inl e
               end
          else inr (p_stock product)
      | None => inr (p_stock product)
      end
  end.

Definition addToCart (pick : nat) (db : DB) (userId : string)
    (addToCartDto : AddToCartDto) : (Exception + CartItem) * DB :=
  match availableStock db addToCartDto with
  | inl e => (inl e, db)
  | inr availableStock =>
    (* Check stock *)
    if bool_decide (availableStock < quantity addToCartDto)
    then (inl (CartInsufficientStock availableStock), db)
    else
      (* Check if item already in cart *)
      match findCartItem pick db userId (productId addToCartDto)
                         (variantId addToCartDto) with
      | Some (i, existingItem) =>
          (* Update quantity *)
          let newQuantity :=
            ci_quantity existingItem + quantity addToCartDto in
          if bool_decide (availableStock < newQuantity)
          then (inl (CartInsufficientStock availableStock), db)
          else
            let existingItem := set_ci_quantity newQuantity existingItem in
            (inr existingItem,
             set_cartItems (λ l, <[i := existingItem]> l) db)
      | None =>
          (* Create new cart item *)
          let cartItem :=
            mkCartItem userId (productId addToCartDto)
                       (variantId addToCartDto) (quantity addToCartDto) in
          (inr cartItem, set_cartItems (λ l, l ++ [cartItem]) db)
      end
  end.

End CartService.

(* ===================================================================== *)
(** * CouponsService.incrementUsage ([coupons.service.ts]) *)
(* ===================================================================== *)

Module CouponsService.

(** [couponRepository.findOne({ where: { code } })]: a row with that code
    ([code] is a unique column), with its primary key. *)
Definition findOneByCode (db : DB) (code : string) : option (string * Coupon) :=
  snd <$> list_find (λ ic, c_code ic.2 = code) (map_to_list (coupons db)).

(** [findByCode(code)]; [toUpperCase] is [String.prototype.toUpperCase]. *)
Definition findByCode (toUpperCase : string → string) (env : Env) (db : DB)
    (code : string) : Exception + string * Coupon :=
  match findOneByCode db (toUpperCase code) with
  | None => inl InvalidCouponCode
  | Some (id, coupon) =>
    if bool_decide (c_status coupon ≠ COUPON_ACTIVE) then inl CouponNotActive
    else
      let now := env_now env in
      if match c_validFrom coupon with
         | Some validFrom => bool_decide (now < validFrom)
         | None => false
         end
      then inl CouponNotYetValid
      else if match c_validUntil coupon with
              | Some validUntil => bool_decide (now > validUntil)
              | None => false
              end
      then inl CouponExpired
      else if bool_decide (c_maxUses coupon > 0)
              && bool_decide (c_usedCount coupon >= c_maxUses coupon)
      then inl CouponUsageLimitReached
      else inr (id, coupon)
  end.

Record Applied := mkApplied {
  discount : Qc;
  couponId : string;
  freeShipping : bool;
}.

(** [array.length > 0] on an optional array. *)
Definition nonEmpty (l : option (list string)) : bool :=
  match l with Some (_ :: _) => true | _ => false end.

(** [!ids || !ids.some((id) => applicable.includes(id))]. *)
Definition noneApplicable (ids : option (list string))
    (applicable : option (list string)) : bool :=
  match ids with
  | None => true
  | Some ids =>
      negb (existsb (λ id, bool_decide (id ∈ default [] applicable)) ids)
  end.

(** [getUserCouponUses(couponId, userId)]: the query builder filters the
    orders on [order.couponId], which is not a column of [Order]; the query
    fails whenever it is run. *)
Definition getUserCouponUses (db : DB) (couponId userId : string)
    : Exception + Z :=
  inl StorageFailure.

(** [applyCoupon(code, subtotal, userId, productIds?, categoryIds?)]. *)
Definition applyCoupon (toUpperCase : string → string) (env : Env) (db : DB)
    (code : string) (subtotal : Qc) (userId : string)
    (productIds categoryIds : option (list string)) : Exception + Applied :=
  match findByCode toUpperCase env db code with
  | inl e => inl e
  | inr (id, coupon) =>
    (* [coupon.minOrderAmount && ...]: the decimal column is read back as
       a string such as "0.00", which is truthy *)
    if bool_decide (subtotal < c_minOrderAmount coupon)%Qc
    then inl (CouponMinimumNotMet (c_minOrderAmount coupon))
    else
      match (if bool_decide (c_maxUsesPerUser coupon > 0)
             then match getUserCouponUses db id userId with
                  | inl e => inl e
                  | inr userUses =>
                      if bool_decide (userUses >= c_maxUsesPerUser coupon)
                      then inl CouponUserLimitReached
                      else inr tt
                  end
             else inr tt) with
      | inl e => inl e
      | inr _ =>
        if nonEmpty (c_applicableCategories coupon)
           && noneApplicable categoryIds (c_applicableCategories coupon)
        then inl CouponNotApplicable
        else if nonEmpty (c_applicableProducts coupon)
                && noneApplicable productIds (c_applicableProducts coupon)
        then inl CouponNotApplicable
        else
          let discount :=
            if bool_decide (c_discountType coupon = PERCENTAGE)
            then (subtotal * (c_discountValue coupon / n100))%Qc
            else c_discountValue coupon in
          inr (mkApplied (Math_min discount subtotal) id
                         (c_freeShipping coupon))
      end
  end.

(** [couponRepository.increment({ id: couponId }, "usedCount", 1)]. *)
Definition incrementUsage (db : DB) (couponId : string) : DB :=
  set_coupons (alter (set_c_usedCount (λ x, x + 1)) couponId) db.

End CouponsService.

(* ===================================================================== *)
(** * Vocabulary of the verification *)
(* ===================================================================== *)

(** Fault plans: [enough k fl] says that [k] further calls succeed under
    the plan [fl]; [spend k fl] is the plan after [k] successful calls. *)
Module Faults.

Definition enough (k : nat) (fl : option nat) : bool :=
  match fl with
  | Some n => bool_decide (k ≤ n)%nat
  | None => true
  end.

Definition spend (k : nat) (fl : option nat) : option nat :=
  (λ n, n - k)%nat <$> fl.

End Faults.
Export Faults.

(** What a successful checkout does, read off [createBody]. *)
Module Checkout.
Import OrdersService.

(** The tests a cart line passes in [createLine]. *)
Definition lineOk (l : LoadedCartItem) : Prop :=
  match lci_product l with
  | Some p =>
      p_status p = ACTIVE ∧ ci_quantity (lci_item l) ≤ availableStock l p
  | None => False
  end.

#[global] Instance lineOk_dec l : Decision (lineOk l).
Proof. unfold lineOk. destruct (lci_product l); apply _. Defined.

(** The order items and the subtotal accumulated over the lines. *)
Definition lineItems (lines : list LoadedCartItem) : list OrderItem :=
  omap (λ l, orderItem l <$> lci_product l) lines.

Definition lineSubtotal (s0 : Qc) (lines : list LoadedCartItem) : Qc :=
  foldl (λ s l, match lci_product l with
                | Some p => (s + itemTotal l p)%Qc
                | None => s
                end) s0 lines.

(** The stock and sold-count updates of the lines, in order. *)
Definition lineEffect (db : DB) (l : LoadedCartItem) : DB :=
  updateSoldCount l (deductStock l db).

Definition linesEffect (lines : list LoadedCartItem) (db : DB) : DB :=
  foldl lineEffect db lines.

(** The exception thrown for a line that fails a test. *)
Definition lineError (l : LoadedCartItem) : Exception :=
  match lci_product l with
  | Some p =>
      if bool_decide (p_status p = ACTIVE)
      then InsufficientStock (p_name p) (availableStock l p)
      else ProductNotAvailable (ci_productId (lci_item l))
  | None => ProductNotAvailable (ci_productId (lci_item l))
  end.

(** The preconditions of a checkout: a non-empty cart of valid lines, a
    fresh primary key and a fresh order number. *)
Definition ready (env : Env) (userId : string) (db : DB) : Prop :=
  findCartItems userId db ≠ []
  ∧ Forall lineOk (findCartItems userId db)
  ∧ orders db !! env_orderId env = None
  ∧ map_Forall (λ _ o', o_orderNumber o' ≠ env_orderNumber env) (orders db).

#[global] Instance ready_dec env userId db : Decision (ready env userId db).
Proof. unfold ready. apply _. Defined.

(** The order row written by a checkout whose lines add up to [subtotal]. *)
Definition orderRow (configService : gmap string Qc) (env : Env)
    (userId : string) (dto : CreateOrderDto) (subtotal : Qc) : Order :=
  let taxRate := get configService "TAX_RATE" n0_08 in
  let shippingCost := get configService "SHIPPING_COST" n10 in
  let freeShippingThreshold :=
    get configService "FREE_SHIPPING_THRESHOLD" n100 in
  let tax := (Math_round (subtotal * taxRate * n100) / n100)%Qc in
  mkOrder (env_orderNumber env) userId PENDING subtotal 0%Qc tax
    (if bool_decide (freeShippingThreshold ≤ subtotal)%Qc
     then 0%Qc else shippingCost)
    (Math_round ((subtotal + tax + shippingCost - 0) * n100) / n100)%Qc
    (shippingAddress dto)
    (default (shippingAddress dto) (billingAddress dto))
    (notes dto) None None None None None.

Definition paymentRow (env : Env) (dto : CreateOrderDto) (o : Order) : Payment :=
  mkPayment (env_orderId env) (o_total o) "USD"
            (default STRIPE (paymentMethod dto)) PAY_PENDING
            ("Payment for order " +:+ env_orderNumber env) None None.

(** The tables after a successful checkout. *)
Definition effect (configService : gmap string Qc) (env : Env)
    (userId : string) (dto : CreateOrderDto) (db : DB) : DB :=
  let lines := findCartItems userId db in
  let stocked := linesEffect lines db in
  let o := orderRow configService env userId dto (lineSubtotal 0%Qc lines) in
  mkDB (products stocked) (variants stocked)
       (filter (λ ci, ci_userId ci ≠ userId) (cartItems db))
       (<[env_orderId env := o]> (orders db))
       (orderItems db ++ (set_oi_orderId (env_orderId env) <$> lineItems lines))
       (payments db ++ [paymentRow env dto o])
       (coupons db).

End Checkout.

(** What a successful cancellation does, read off [cancelBody]. *)
Module Cancellation.
Import OrdersService.

Definition itemEffect (db : DB) (item : LoadedOrderItem) : DB :=
  reverseSoldCount item (restoreStock item db).

Definition cancelledOrder (env : Env) (reason : option string) (o : Order)
    : Order :=
  set_o_cancellationReason (Some (default "" reason))
    (set_o_cancelledAt (Some (env_now env)) (set_o_status CANCELLED o)).

Definition refundedPayment (env : Env) (reason : option string) (p : Payment)
    : Payment :=
  set_pay_refund PAY_REFUNDED (Some (env_now env)) (Some (default "" reason)) p.

(** The first completed payment among the loaded payments of the order. *)
Definition completedPayment (order : LoadedOrder) : option (nat * Payment) :=
  snd <$> list_find (λ ip, pay_paymentStatus ip.2 = PAY_COMPLETED)
                    (lo_payments order).

(** The tables after a successful cancellation of the loaded [order]. *)
Definition effect (env : Env) (order : LoadedOrder) (reason : option string)
    (db : DB) : DB :=
  let restored := foldl itemEffect db (lo_items order) in
  let saved :=
    set_orders (insert (lo_id order)
                       (cancelledOrder env reason (lo_order order))) restored in
  match completedPayment order with
  | Some (i, p) =>
      set_payments (λ l, <[i := refundedPayment env reason p]> l) saved
  | None => saved
  end.

(** The number of calls of [cancelBody]. *)
Definition calls (order : LoadedOrder) : nat :=
  2 * length (lo_items order) + 1
  + match completedPayment order with Some _ => 1 | None => 0 end.

(** Units given back by the items of an order: to the stock of a product
    (items without a loaded variant), to the stock of a variant, and taken
    off the sold count of a product. *)
Definition toProductStock (items : list LoadedOrderItem) (p : string) : Z :=
  foldr (λ item acc,
           (if bool_decide (loi_variant item = None
                            ∧ oi_productId (loi_item item) = p)
            then oi_quantity (loi_item item) else 0) + acc) 0 items.

Definition toVariantStock (items : list LoadedOrderItem) (v : string) : Z :=
  foldr (λ item acc,
           (if bool_decide (loi_variant item ≠ None
                            ∧ oi_variantId (loi_item item) = Some v)
            then oi_quantity (loi_item item) else 0) + acc) 0 items.

Definition offSoldCount (items : list LoadedOrderItem) (p : string) : Z :=
  foldr (λ item acc,
           (if bool_decide (oi_productId (loi_item item) = p)
            then oi_quantity (loi_item item) else 0) + acc) 0 items.

End Cancellation.

(** Reading one counter of the tables. *)
Module Counters.

Definition productStock (db : DB) (p : string) : option Z :=
  p_stock <$> products db !! p.

Definition soldCount (db : DB) (p : string) : option Z :=
  p_soldCount <$> products db !! p.

Definition variantStock (db : DB) (v : string) : option Z :=
  v_stock <$> variants db !! v.

End Counters.
Export Counters.

(** The inventory invariant. *)
Module Inventory.
Import OrdersService.

(** The stock counter a line draws from: the variant's when the variant
    row exists, the product's otherwise. *)
Definition target (db : DB) (productId : string) (variantId : option string)
    : string + string :=
  match variantId with
  | Some v => if bool_decide (is_Some (variants db !! v)) then inr v
              else inl productId
  | None => inl productId
  end.

Definition cartTarget (db : DB) (ci : CartItem) : string + string :=
  target db (ci_productId ci) (ci_variantId ci).

Definition targetStock (db : DB) (t : string + string) : option Z :=
  match t with
  | inl p => productStock db p
  | inr v => variantStock db v
  end.

(** Units taken by the cart lines [cis] from the counter [t]. *)
Definition taken (db : DB) (cis : list CartItem) (t : string + string) : Z :=
  foldr (λ ci acc,
           (if bool_decide (cartTarget db ci = t) then ci_quantity ci else 0)
           + acc) 0 cis.

Definition stocksNonneg (db : DB) : Prop :=
  map_Forall (λ _ p, 0 ≤ p_stock p) (products db)
  ∧ map_Forall (λ _ v, 0 ≤ v_stock v) (variants db).

(** Stocks and quantities are not negative, and no two cart lines of one
    user draw from the same counter. *)
Definition wellFormed (db : DB) : Prop :=
  stocksNonneg db
  ∧ Forall (λ ci, 0 ≤ ci_quantity ci) (cartItems db)
  ∧ Forall (λ oi, 0 ≤ oi_quantity oi) (orderItems db)
  ∧ NoDup ((λ ci, (ci_userId ci, cartTarget db ci)) <$> cartItems db).

#[global] Instance wellFormed_dec db : Decision (wellFormed db).
Proof. unfold wellFormed, stocksNonneg. apply _. Defined.

(** The two operations of the claim, with everything their run depends
    on. *)
Inductive Operation :=
| Checkout (configService : gmap string Qc) (env : Env) (fault : option nat)
           (userId : string) (dto : CreateOrderDto)
| Cancel (env : Env) (fault : option nat) (userId orderId : string)
         (reason : option string).

Definition apply (db : DB) (op : Operation) : DB :=
  match op with
  | Checkout configService env fault userId dto =>
      (create configService env fault db userId dto).2
  | Cancel env fault userId orderId reason =>
      (cancel env fault db userId orderId reason).2
  end.

End Inventory.

(* ===================================================================== *)
(** * Sample rows and tables used by the examples *)
(* ===================================================================== *)

Module Samples.
Import OrdersService.

Definition address : Address :=
  mkAddress "John" "Doe" "123 Main St" "New York" "NY" "10001" "USA"
            "+1234567890".

Definition env : Env :=
  mkEnv 1700000000000 "ORD-1700000000000-ABCDEF12" "order-123".

Definition dto : CreateOrderDto := mkCreateOrderDto address None None None None.

(** One product at 25.00 with 10 in stock. *)
Definition product1 : Product :=
  mkProduct "SKU-1" "Product 1" (Qc_of_Z 25) None 10 ACTIVE None 0.

(** A cart of 4 units of [product1] for "user-123" (subtotal 100.00). *)
Definition db_cart4 : DB :=
  mkDB {["prod-1" := product1]} ∅
       [mkCartItem "user-123" "prod-1" None 4] ∅ [] [] ∅.

(** A cart asking for 5 units of a product with 2 in stock. *)
Definition product_stock2 : Product :=
  mkProduct "SKU-1" "Product 1" (Qc_of_Z 25) None 2 ACTIVE None 0.

Definition db_short : DB :=
  mkDB {["prod-1" := product_stock2]} ∅
       [mkCartItem "user-123" "prod-1" None 5] ∅ [] [] ∅.

(** [db_cart4] with one active coupon that was never used. *)
Definition coupon_save10 : Coupon :=
  mkCoupon "SAVE10" FIXED_AMOUNT (Qc_of_Z 10) 0%Qc 100 0 1 None None
           COUPON_ACTIVE None None false.

Definition db_coupon : DB :=
  mkDB {["prod-1" := product1]} ∅
       [mkCartItem "user-123" "prod-1" None 4] ∅ [] []
       {["coupon-1" := coupon_save10]}.

(** The same coupon without a limit per user. *)
Definition coupon_open : Coupon :=
  mkCoupon "SAVE10" FIXED_AMOUNT (Qc_of_Z 10) 0%Qc 100 0 0 None None
           COUPON_ACTIVE None None false.

Definition db_coupon_open : DB :=
  mkDB {["prod-1" := product1]} ∅
       [mkCartItem "user-123" "prod-1" None 4] ∅ [] []
       {["coupon-1" := coupon_open]}.

Definition dto_coupon (code : string) : CreateOrderDto :=
  mkCreateOrderDto address None None None (Some code).

(** A product listed at 100.00 and on sale at 80.00, one unit in the cart. *)
Definition product_on_sale : Product :=
  mkProduct "SKU-2" "Product 2" (Qc_of_Z 100) (Some (Qc_of_Z 80)) 10 ACTIVE
            None 0.

Definition db_sale : DB :=
  mkDB {["prod-2" := product_on_sale]} ∅
       [mkCartItem "user-123" "prod-2" None 1] ∅ [] [] ∅.

(** An order in a given status, shipped at 100 and delivered at 150. *)
Definition order_in (s : OrderStatus) : Order :=
  mkOrder "ORD-1" "user-123" s (Qc_of_Z 50) 0%Qc (Qc_of_Z 4) (Qc_of_Z 10)
          (Qc_of_Z 64) address address None None (Some 100) (Some 150)
          None None.

Definition db_order (s : OrderStatus) : DB :=
  mkDB ∅ ∅ [] {["order-1" := order_in s]} [] [] ∅.

(** A pending order of three units of [product_sold3], paid. *)
Definition product_sold3 : Product :=
  mkProduct "SKU-1" "Product 1" (Qc_of_Z 25) None 7 ACTIVE None 3.

Definition item_qty3 : OrderItem :=
  mkOrderItem "order-1" "prod-1" None "Product 1" "SKU-1" (Qc_of_Z 25) 3
              (Qc_of_Z 75) (mkSnapshot "Product 1" None None).

Definition payment_completed : Payment :=
  mkPayment "order-1" (Qc_of_Z 64) "USD" STRIPE PAY_COMPLETED
            "Payment for order ORD-1" None None.

Definition db_placed : DB :=
  mkDB {["prod-1" := product_sold3]} ∅ []
       {["order-1" := order_in PENDING]} [item_qty3] [payment_completed] ∅.

(** Two cart lines of one user for [product_stock5], both without
    variant, of four units each.  Such rows arise when a line with a variant
    loses it (the variant relation is [onDelete: "SET NULL"]) while the
    user has a line without variant; the unique key does not bar them, the
    column being null. *)
Definition product_stock5 : Product :=
  mkProduct "SKU-1" "Product 1" (Qc_of_Z 25) None 5 ACTIVE None 0.

Definition db_two_lines : DB :=
  mkDB {["prod-1" := product_stock5]} ∅
       [mkCartItem "user-123" "prod-1" None 4;
        mkCartItem "user-123" "prod-1" None 4] ∅ [] [] ∅.

(** A cart with a line for the variant "var-1" of "prod-1" and a line for
    "prod-1" without variant. *)
Definition variant1 : ProductVariant :=
  mkVariant "prod-1" "SKU-1-V1" "Variant 1" (Qc_of_Z 30) None 10 true.

Definition line_variant (q : Z) : CartItem :=
  mkCartItem "user-123" "prod-1" (Some "var-1") q.

Definition line_plain (q : Z) : CartItem :=
  mkCartItem "user-123" "prod-1" None q.

Definition db_variant_and_plain : DB :=
  mkDB {["prod-1" := product1]} {["var-1" := variant1]}
       [line_variant 2; line_plain 1] ∅ [] [] ∅.

End Samples.

(* ===================================================================== *)
(** * The order lifecycle under all order operations *)
(* ===================================================================== *)

Module Lifecycle.
Import OrdersService.

(** A change of status that [canTransition] accepts. *)
Definition properTransition (a b : OrderStatus) : Prop :=
  OrderStatusUtil.canTransition a b = true ∧ a ≠ b.

(** A sequence of statuses, each reached from the one before by an
    accepted change. *)
Fixpoint legalPath (path : list OrderStatus) : Prop :=
  match path with
  | a :: rest =>
      match rest with
      | b :: _ => properTransition a b ∧ legalPath rest
      | [] => True
      end
  | [] => True
  end.

(** The position of a status in the lifecycle; the three statuses without
    outgoing edge come last. *)
Definition rank (s : OrderStatus) : nat :=
  match s with
  | PENDING => 0
  | CONFIRMED => 1
  | PROCESSING => 2
  | SHIPPED => 3
  | DELIVERED => 4
  | CANCELLED | REFUNDED | RETURNED => 5
  end.

(** The service calls that write the orders table. *)
Inductive Operation :=
| Create (configService : gmap string Qc) (env : Env) (fault : option nat)
         (userId : string) (dto : CreateOrderDto)
| Cancel (env : Env) (fault : option nat) (userId orderId : string)
         (reason : option string)
| UpdateStatus (env : Env) (orderId : string) (status : OrderStatus)
               (additionalData : option AdditionalData)
| AdminUpdateOrderStatus (orderId : string) (status : OrderStatus).

Definition apply (db : DB) (op : Operation) : DB :=
  match op with
  | Create configService env fault userId dto =>
      (create configService env fault db userId dto).2
  | Cancel env fault userId orderId reason =>
      (cancel env fault db userId orderId reason).2
  | UpdateStatus env orderId status additionalData =>
      (updateStatus env db orderId status additionalData).2
  | AdminUpdateOrderStatus orderId status =>
      (AdminService.updateOrderStatus db orderId status).2
  end.

Definition statusOf (db : DB) (orderId : string) : option OrderStatus :=
  o_status <$> orders db !! orderId.

End Lifecycle.

(** Quantities and amounts of the lines of a cart, and the columns of a
    product and of a variant that no stock movement writes. *)
Module Ledger.

(** Units of product [p] in the cart lines [cis], whatever their variant. *)
Definition sold (cis : list CartItem) (p : string) : Z :=
  foldr (λ ci acc,
           (if bool_decide (ci_productId ci = p) then ci_quantity ci else 0)
           + acc) 0 cis.

(** The sum of the [total] column of order items. *)
Definition sumTotals (items : list OrderItem) : Qc :=
  foldr (λ i acc, (oi_total i + acc)%Qc) 0%Qc items.

(** The [total] column of order items added to [s0] one after the other,
    first item first, as the loop of [create] adds them. *)
Definition runningTotal (s0 : Qc) (items : list OrderItem) : Qc :=
  foldl (λ acc i, (acc + oi_total i)%Qc) s0 items.


Definition otherColumns (p : Product) : Product :=
  set_p_soldCount (λ _, 0) (set_p_stock (λ _, 0) p).

Definition otherVariantColumns (v : ProductVariant) : ProductVariant :=
  set_v_stock (λ _, 0) v.

End Ledger.

(* ===================================================================== *)
(** * CartService: the other methods *)
(* ===================================================================== *)

(** [getCart], [getCartSummary], [updateCartItem], [removeFromCart],
    [clearCart], [getCartItemCount], [validateCartForCheckout] and
    [removeInvalidItems] of cart.service.ts.  The rows of the cart table are
    kept in insertion order ([addToCart] appends), so that
    [order: { createdAt: 'DESC' }] is the reverse of the table order. *)
Module Cart.
Import OrdersService.

(** The exceptions of [updateCartItem] and [removeFromCart]:
    'Cart item not found' and 'Insufficient stock. Only n items
    available.' *)
Inductive CartException :=
| CartItemNotFound
| InsufficientStockOnly (available : Z).

Definition getCart (db : DB) (userId : string) : list LoadedCartItem :=
  reverse (findCartItems userId db).

Record SummaryItem := mkSummaryItem {
  si_item : LoadedCartItem;
  si_product : Product;
  si_price : Qc;
  si_total : Qc;
}.

Record Summary := mkSummary {
  s_itemCount : Z;
  s_subtotal : Qc;
  s_tax : Qc;
  s_shipping : Qc;
  s_total : Qc;
}.

(** [item.variant?.price || item.product.price]: the [decimal] columns are
    read back from the database as strings such as "0.00", which are all
    truthy, so that the variant's price is taken whenever the line has a
    variant. *)
Definition summaryPrice (item : LoadedCartItem) (product : Product) : Qc :=
  match lci_variant item with
  | Some v => v_price v
  | None => p_price product
  end.

(** The running values of the loop of [getCartSummary]. *)
Record Running := mkRunning {
  r_validItems : list SummaryItem;
  r_subtotal : Qc;
  r_itemCount : Z;
}.

Definition summaryLine (acc : Running) (item : LoadedCartItem) : Running :=
  match lci_product item with
  | None => acc
  | Some product =>
      if bool_decide (p_status product ≠ ACTIVE) then acc
      else
        let price := summaryPrice item product in
        let itemTotal := (price * Qc_of_Z (ci_quantity (lci_item item)))%Qc in
        mkRunning
          (r_validItems acc ++ [mkSummaryItem item product price itemTotal])
          (r_subtotal acc + itemTotal)%Qc
          (r_itemCount acc + ci_quantity (lci_item item))
  end.

Definition getCartSummary (db : DB) (userId : string)
    : list SummaryItem * Summary :=
  let items := getCart db userId in
  let acc := foldl summaryLine (mkRunning [] 0%Qc 0) items in
  let subtotal := r_subtotal acc in
  (r_validItems acc,
   mkSummary
     (r_itemCount acc)
     (Math_round (subtotal * n100) / n100)%Qc
     (Math_round (subtotal * n0_08 * n100) / n100)%Qc
     (if bool_decide (n100 < subtotal)%Qc then 0%Qc else n10)
     (Math_round ((subtotal + subtotal * n0_08
                   + (if bool_decide (n100 < subtotal)%Qc then 0%Qc else n10))
                  * n100) / n100)%Qc).

(** [cartItemRepository.findOne({ where: { userId, productId } })]: one of
    the rows of that user and product, whatever its variant, with its
    position. *)
Definition findByProduct (pick : nat) (db : DB) (userId productId : string)
    : option (nat * CartItem) :=
  findOneOf pick
    (filter (λ ic, ci_userId ic.2 = userId ∧ ci_productId ic.2 = productId)
            (imap pair (cartItems db))).

(** [cartItem.variant?.stock ?? cartItem.product?.stock ?? 0]. *)
Definition stockOrZero (item : LoadedCartItem) : Z :=
  match lci_variant item with
  | Some v => v_stock v
  | None => match lci_product item with
            | Some p => p_stock p
            | None => 0
            end
  end.

(** [updateCartItem(userId, productId, updateCartItemDto)]; [quantity] is
    [updateCartItemDto.quantity]. *)
Definition updateCartItem (pick : nat) (db : DB) (userId productId : string)
    (quantity : Z) : (CartException + CartItem) * DB :=
  match findByProduct pick db userId productId with
  | None => (inl CartItemNotFound, db)
  | Some (i, cartItem) =>
      (* Validate new quantity *)
      let availableStock := stockOrZero (loadCartItem db cartItem) in
      if bool_decide (quantity > availableStock)
      then (inl (InsufficientStockOnly availableStock), db)
      else
        let cartItem := set_ci_quantity quantity cartItem in
        (inr cartItem, set_cartItems (λ l, <[i := cartItem]> l) db)
  end.

Definition removeFromCart (pick : nat) (db : DB) (userId productId : string)
    : (CartException + unit) * DB :=
  match findByProduct pick db userId productId with
  | None => (inl CartItemNotFound, db)
  | Some (i, _) => (inr tt, set_cartItems (delete i) db)
  end.

Definition clearCart (db : DB) (userId : string) : DB :=
  set_cartItems (filter (λ ci, ci_userId ci ≠ userId)) db.

Definition getCartItemCount (db : DB) (userId : string) : nat :=
  length (filter (λ ci, ci_userId ci = userId) (cartItems db)).

Record InvalidItem := mkInvalidItem {
  ii_productId : string;
  ii_variantId : option string;
  ii_requested : Z;
  ii_available : Z;
}.

(** [item.variant?.stock ?? item.product.stock]. *)
Definition stockOf (item : LoadedCartItem) (product : Product) : Z :=
  match lci_variant item with
  | Some v => v_stock v
  | None => p_stock product
  end.

Definition validateLine (invalidItems : list InvalidItem)
    (item : LoadedCartItem) : list InvalidItem :=
  let ci := lci_item item in
  match lci_product item with
  | None =>
      invalidItems
      ++ [mkInvalidItem (ci_productId ci) (ci_variantId ci) (ci_quantity ci) 0]
  | Some product =>
      if bool_decide (p_status product ≠ ACTIVE)
      then invalidItems
           ++ [mkInvalidItem (ci_productId ci) (ci_variantId ci)
                             (ci_quantity ci) 0]
      else
        let availableStock := stockOf item product in
        if bool_decide (ci_quantity ci > availableStock)
        then invalidItems
             ++ [mkInvalidItem (ci_productId ci) (ci_variantId ci)
                               (ci_quantity ci) availableStock]
        else invalidItems
  end.

Definition validateCartForCheckout (db : DB) (userId : string)
    : bool * list InvalidItem :=
  let items := findCartItems userId db in
  let invalidItems := foldl validateLine [] items in
  (bool_decide (length invalidItems = 0%nat), invalidItems).

(** [cartItemRepository.remove(item)] deletes the row of that item; the
    rows carry their position in the table as identity. *)
Definition removeRow (id : nat) (rows : list (nat * CartItem))
    : list (nat * CartItem) :=
  filter (λ r, r.1 ≠ id) rows.

Definition removeInvalidLine (db : DB) (rows : list (nat * CartItem))
    (r : nat * CartItem) : list (nat * CartItem) :=
  let item := loadCartItem db r.2 in
  match lci_product item with
  | None => removeRow r.1 rows
  | Some product =>
      if bool_decide (p_status product ≠ ACTIVE) then removeRow r.1 rows
      else
        let availableStock := stockOf item product in
        if bool_decide (ci_quantity r.2 > availableStock)
        then removeRow r.1 rows
        else rows
  end.

Definition removeInvalidItems (db : DB) (userId : string) : DB :=
  let table := imap pair (cartItems db) in
  let cartItems := filter (λ r, ci_userId r.2 = userId) table in
  set_cartItems (λ _, snd <$> foldl (removeInvalidLine db) table cartItems) db.



(** The unique key of the cart table:
    [@Unique(["userId", "productId", "variantId"])]. *)
Definition key (ci : CartItem) : string * string * option string :=
  (ci_userId ci, ci_productId ci, ci_variantId ci).

End Cart.

(* ===================================================================== *)
(** * CouponsService: create, findOne, remove *)
(* ===================================================================== *)

Module Coupons.
Import CouponsService.

(** [CreateCouponDto]; the optional fields are columns with a default
    (0 for [minOrderAmount], 1 for [maxUses] and [maxUsesPerUser], false for
    [freeShipping]) or nullable columns. *)
Record CreateCouponDto := mkCreateCouponDto {
  dto_code : string;
  dto_discountType : DiscountType;
  dto_discountValue : Qc;
  dto_minOrderAmount : option Qc;
  dto_maxUses : option Z;
  dto_maxUsesPerUser : option Z;
  dto_validFrom : option Z;
  dto_validUntil : option Z;
  dto_applicableCategories : option (list string);
  dto_applicableProducts : option (list string);
  dto_freeShipping : option bool;
}.

(** 'Coupon code already exists', 'Coupon not found', and the insert
    refused because the generated key is taken. *)
Inductive CouponsException :=
| CouponCodeAlreadyExists
| CouponNotFound
| InsertRefused.

(** [couponRepository.create({ ...createCouponDto, usedCount: 0,
    status: CouponStatus.ACTIVE })] with the column defaults. *)
Definition newCoupon (dto : CreateCouponDto) : Coupon :=
  mkCoupon (dto_code dto) (dto_discountType dto) (dto_discountValue dto)
           (default 0%Qc (dto_minOrderAmount dto))
           (default 1 (dto_maxUses dto))
           0
           (default 1 (dto_maxUsesPerUser dto))
           (dto_validFrom dto) (dto_validUntil dto)
           COUPON_ACTIVE
           (dto_applicableCategories dto) (dto_applicableProducts dto)
           (default false (dto_freeShipping dto)).

(** [create(createCouponDto)]; [newId] is the generated primary key. *)
Definition create (newId : string) (db : DB) (createCouponDto : CreateCouponDto)
    : (CouponsException + Coupon) * DB :=
  match findOneByCode db (dto_code createCouponDto) with
  | Some _ => (inl CouponCodeAlreadyExists, db)
  | None =>
      let coupon := newCoupon createCouponDto in
      if bool_decide (coupons db !! newId = None)
      then (inr coupon, set_coupons (insert newId coupon) db)
      else (inl InsertRefused, db)
  end.

Definition findOne (db : DB) (id : string) : CouponsException + Coupon :=
  match coupons db !! id with
  | Some coupon => inr coupon
  | None => inl CouponNotFound
  end.

Definition remove (db : DB) (id : string) : (CouponsException + unit) * DB :=
  match findOne db id with
  | inl e => (inl e, db)
  | inr _ => (inr tt, set_coupons (delete id) db)
  end.

(** The unique column [code]. *)
Definition uniqueCodes (db : DB) : Prop :=
  ∀ i j ci cj, coupons db !! i = Some ci → coupons db !! j = Some cj →
               c_code ci = c_code cj → i = j.

(** [incrementUsage(couponId)], [n] times. *)
Fixpoint incrementUsages (n : nat) (couponId : string) (db : DB) : DB :=
  match n with
  | O => db
  | S n => incrementUsage (incrementUsages n couponId db) couponId
  end.

End Coupons.

(* ===================================================================== *)
(** * OrdersService: the statistics *)
(* ===================================================================== *)

(** [getUserOrderStats] and [getOrderStats] of orders.service.ts: counts
    and [SUM(order.total)] over the orders table; neither depends on the
    order of the rows. *)
Module Orders.

Definition rows (db : DB) : list Order := (map_to_list (orders db)).*2.

(** [orderRepository.count({ where })]. *)
Definition count (P : Order → Prop) `{∀ o, Decision (P o)} (db : DB) : nat :=
  length (filter P (rows db)).

Definition sum (os : list Order) : Qc :=
  foldr (λ o acc, (o_total o + acc)%Qc) 0%Qc os.

(** [SELECT SUM(order.total) ... WHERE ...] followed by
    [parseFloat(row?.total || "0")]: 0 when no row matches. *)
Definition sumTotal (P : Order → Prop) `{∀ o, Decision (P o)} (db : DB) : Qc :=
  sum (filter P (rows db)).

Record UserOrderStats := mkUserOrderStats {
  totalOrders : nat;
  totalSpent : Qc;
  pendingOrders : nat;
  deliveredOrders : nat;
}.

Definition getUserOrderStats (db : DB) (userId : string) : UserOrderStats :=
  mkUserOrderStats
    (count (λ o, o_userId o = userId) db)
    (sumTotal (λ o, o_userId o = userId ∧ o_status o ≠ CANCELLED) db)
    (count (λ o, o_userId o = userId ∧ o_status o = PENDING) db)
    (count (λ o, o_userId o = userId ∧ o_status o = DELIVERED) db).

Record OrderStats := mkOrderStats {
  os_totalOrders : nat;
  os_pending : nat;
  os_processing : nat;
  os_shipped : nat;
  os_delivered : nat;
  os_cancelled : nat;
  os_totalRevenue : Qc;
}.

Definition getOrderStats (db : DB) : OrderStats :=
  mkOrderStats
    (count (λ _, True) db)
    (count (λ o, o_status o = PENDING) db)
    (count (λ o, o_status o = PROCESSING) db)
    (count (λ o, o_status o = SHIPPED) db)
    (count (λ o, o_status o = DELIVERED) db)
    (count (λ o, o_status o = CANCELLED) db)
    (sumTotal (λ o, o_status o ≠ CANCELLED) db).

End Orders.

(* ===================================================================== *)
(** * The shop: cart and order operations together *)
(* ===================================================================== *)

Module Shop.

(** The calls that write the cart, the stock or the orders; [pick] is the
    choice of the database in the call's [findOne]. *)
Inductive Operation :=
| AddToCart (pick : nat) (userId : string) (dto : CartService.AddToCartDto)
| UpdateCartItem (pick : nat) (userId productId : string) (quantity : Z)
| RemoveFromCart (pick : nat) (userId productId : string)
| ClearCart (userId : string)
| RemoveInvalidItems (userId : string)
| OnOrders (op : Lifecycle.Operation).

Definition apply (db : DB) (op : Operation) : DB :=
  match op with
  | AddToCart pick userId dto => (CartService.addToCart pick db userId dto).2
  | UpdateCartItem pick userId productId quantity =>
      (Cart.updateCartItem pick db userId productId quantity).2
  | RemoveFromCart pick userId productId =>
      (Cart.removeFromCart pick db userId productId).2
  | ClearCart userId => Cart.clearCart db userId
  | RemoveInvalidItems userId => Cart.removeInvalidItems db userId
  | OnOrders op => Lifecycle.apply db op
  end.

(** What the request validation gives: a quantity that is not negative and
    a variant id that, when present, is not the empty string. *)
Definition validRequest (op : Operation) : Prop :=
  match op with
  | AddToCart _ _ dto =>
      0 ≤ CartService.quantity dto ∧ CartService.variantId dto ≠ Some ""
  | UpdateCartItem _ _ _ quantity => 0 ≤ quantity
  | _ => True
  end.

(** The foreign key of a cart line to its variant: the variant row exists
    and belongs to the product of the line. *)
Definition consistentLine (db : DB) (ci : CartItem) : Prop :=
  match ci_variantId ci with
  | Some w =>
      match variants db !! w with
      | Some v => v_productId v = ci_productId ci
      | None => False
      end
  | None => True
  end.

(** Stocks and quantities are not negative, every cart line points to a
    variant of its product, and the unique key of the cart holds. *)
Definition invariant (db : DB) : Prop :=
  Inventory.stocksNonneg db
  ∧ Forall (λ ci, 0 ≤ ci_quantity ci) (cartItems db)
  ∧ Forall (λ oi, 0 ≤ oi_quantity oi) (orderItems db)
  ∧ Forall (consistentLine db) (cartItems db)
  ∧ NoDup (Cart.key <$> cartItems db).

End Shop.

(* ===================================================================== *)
(** * OrdersController.shipOrder *)
(* ===================================================================== *)

Module OrdersController.
Import OrdersService.


End OrdersController.

(* ===================================================================== *)
(** * Verification *)
(* ===================================================================== *)

(* ===================================================================== *)
(** * The transaction monad *)
(* ===================================================================== *)

Section TxFacts.
Context {A B : Type}.

Lemma bind_inr (m : Tx A) (k : A → Tx B) st b st' :
  Storage.bind m k st = inr (b, st') →
  ∃ a st1, m st = inr (a, st1) ∧ k a st1 = inr (b, st').
Proof.
  unfold Storage.bind. destruct (m st) as [e|[a st1]]; [done|]. eauto.
Qed.

Lemma call_run (f : DB → A * DB) db fl :
  call f (mkTx db fl)
  = if enough 1 fl
    then inr ((f db).1, mkTx (f db).2 (spend 1 fl))
    else inl StorageFailure.
Proof.
  unfold call. cbn. destruct fl as [[|n]|]; cbn; destruct (f db); cbn;
    rewrite ?Nat.sub_0_r; reflexivity.
Qed.

Lemma call_inr (f : DB → A * DB) st a st' :
  call f st = inr (a, st') →
  a = (f (tx_db st)).1 ∧ tx_db st' = (f (tx_db st)).2.
Proof.
  destruct st as [db fl]. rewrite call_run.
  destruct (enough 1 fl); [|done]. by intros [= <- <-].
Qed.

End TxFacts.

Lemma write_run (f : DB → DB) db fl :
  write f (mkTx db fl)
  = if enough 1 fl then inr (tt, mkTx (f db) (spend 1 fl))
    else inl StorageFailure.
Proof. unfold write. by rewrite call_run. Qed.

Lemma read_run {A} (f : DB → A) db fl :
  read f (mkTx db fl)
  = if enough 1 fl then inr (f db, mkTx db (spend 1 fl))
    else inl StorageFailure.
Proof. unfold read. by rewrite call_run. Qed.

Lemma enough_S k fl :
  enough (S k) fl = enough 1 fl && enough k (spend 1 fl).
Proof.
  destruct fl as [n|]; [|done]. cbn.
  destruct n as [|n]; cbn.
  - rewrite bool_decide_eq_false_2 by lia. done.
  - rewrite (bool_decide_eq_true_2 (1 ≤ S n)%nat) by lia. cbn.
    apply bool_decide_ext. lia.
Qed.

Lemma enough_add j k fl :
  enough (j + k) fl = enough j fl && enough k (spend j fl).
Proof.
  destruct fl as [n|]; [|done]. cbn.
  destruct (decide (j ≤ n)%nat).
  - rewrite (bool_decide_eq_true_2 (j ≤ n)%nat) by done. cbn.
    apply bool_decide_ext. lia.
  - rewrite (bool_decide_eq_false_2 (j ≤ n)%nat) by done.
    rewrite bool_decide_eq_false_2 by lia. done.
Qed.

Lemma spend_add j k fl : spend k (spend j fl) = spend (j + k) fl.
Proof. destruct fl as [n|]; [|done]. cbn. f_equal. lia. Qed.

Lemma enough_0 fl : enough 0 fl = true.
Proof. destruct fl; [|done]. cbn. apply bool_decide_eq_true_2. lia. Qed.

Lemma spend_0 fl : spend 0 fl = fl.
Proof. destruct fl; [|done]. cbn. f_equal. lia. Qed.

(* ===================================================================== *)
(** * The order state machine *)
(* ===================================================================== *)

Section StateMachine.
Import OrderStatusUtil.

Lemma includes_spec_edge from to :
  includes (ORDER_STATUS_TRANSITIONS from) to = spec_edge from to.
Proof. by destruct from, to. Qed.

(** The table local to [updateStatus] is the exported one. *)
Lemma statusTransitions_table s :
  OrdersService.statusTransitions s = ORDER_STATUS_TRANSITIONS s.
Proof. by destruct s. Qed.

End StateMachine.

(** C5, as stated, fails: a cancelled order may "transition" to CANCELLED,
  although CANCELLED has no outgoing edge. *)
Lemma canTransition_cancelled_to_cancelled :
OrderStatusUtil.canTransition CANCELLED CANCELLED = true
∧ OrderStatusUtil.spec_edge CANCELLED CANCELLED = false.
Proof. split; reflexivity. Qed.

(** C5 (amended): [canTransition from to] holds exactly for the eight
  directed edges and for [from = to]; PENDING→CONFIRMED is legal,
  PENDING→DELIVERED is not, and from each of CANCELLED, REFUNDED and
  RETURNED the only accepted target is the status itself. *)
Theorem canTransition_edges_or_same :
(∀ from to,
   OrderStatusUtil.canTransition from to
   = OrderStatusUtil.spec_edge from to || bool_decide (from = to))
∧ OrderStatusUtil.canTransition PENDING CONFIRMED = true
∧ OrderStatusUtil.canTransition PENDING DELIVERED = false
∧ (∀ s, OrderStatusUtil.canTransition CANCELLED s = bool_decide (s = CANCELLED))
∧ (∀ s, OrderStatusUtil.canTransition REFUNDED s = bool_decide (s = REFUNDED))
∧ (∀ s, OrderStatusUtil.canTransition RETURNED s = bool_decide (s = RETURNED))
∧ (∀ s, OrderStatusUtil.isFinalStatus s
        = bool_decide (s ∈ [CANCELLED; REFUNDED; RETURNED])).
Proof.
repeat split; try reflexivity.
- intros from to. unfold OrderStatusUtil.canTransition.
  by rewrite includes_spec_edge.
- by intros [].
- by intros [].
- by intros [].
- by intros [].
Qed.

(* ===================================================================== *)
(** * Same-state status updates *)
(* ===================================================================== *)

(** C6, as stated, fails: re-sending SHIPPED for an order shipped at time
    100 succeeds, keeps the status, but moves [shippedAt] to the current
    time. *)
Lemma updateStatus_shipped_to_shipped_restamps :
  match OrdersService.updateStatus Samples.env (Samples.db_order SHIPPED)
          "order-1" SHIPPED None with
  | (inr lo, db') =>
      o_status (OrdersService.lo_order lo) = SHIPPED
      ∧ o_shippedAt (Samples.order_in SHIPPED) = Some 100
      ∧ o_shippedAt (OrdersService.lo_order lo) = Some 1700000000000
      ∧ o_shippedAt <$> orders db' !! "order-1" = Some (Some 1700000000000)
  | (inl _, _) => False
  end.
Proof. vm_compute. by repeat split. Qed.

(** C6 (amended): a status update to the order's current status succeeds
    and stores the returned order; the status and [cancelledAt] are
    unchanged; [shippedAt] is unchanged unless the status is SHIPPED and
    [deliveredAt] is unchanged unless the status is DELIVERED, in which
    cases that timestamp becomes the current time. *)
Theorem updateStatus_same_status env db orderId o additionalData :
  orders db !! orderId = Some o →
  ∃ lo,
    OrdersService.updateStatus env db orderId (o_status o) additionalData
    = (inr lo, set_orders (insert orderId (OrdersService.lo_order lo)) db)
    ∧ o_status (OrdersService.lo_order lo) = o_status o
    ∧ o_cancelledAt (OrdersService.lo_order lo) = o_cancelledAt o
    ∧ o_shippedAt (OrdersService.lo_order lo)
      = (if bool_decide (o_status o = SHIPPED)
         then Some (env_now env) else o_shippedAt o)
    ∧ o_deliveredAt (OrdersService.lo_order lo)
      = (if bool_decide (o_status o = DELIVERED)
         then Some (env_now env) else o_deliveredAt o).
Proof.
  intros Hfind. unfold OrdersService.updateStatus, OrdersService.findOne.
  rewrite Hfind. cbn [JS.truthy_opt andb].
  replace (bool_decide (o_status o ≠ o_status o)) with false
    by (symmetry; apply bool_decide_eq_false; tauto).
  rewrite andb_false_r. cbv zeta.
  cbn [OrdersService.lo_order OrdersService.lo_id OrdersService.loadOrder].
  eexists (OrdersService.mkLoadedOrder _ _ _ _).
  split; [reflexivity|]. cbn [OrdersService.lo_order].
  destruct (JS.truthy_opt (additionalData ≫= OrdersService.ad_trackingNumber)),
           (JS.truthy_opt (additionalData ≫= OrdersService.ad_notes)),
           (bool_decide (o_status o = SHIPPED)) eqn:Hs,
           (bool_decide (o_status o = DELIVERED)) eqn:Hd;
    try (apply bool_decide_eq_true in Hs); try (apply bool_decide_eq_true in Hd);
    try congruence; repeat split; cbn; congruence.
Qed.

Lemma updateStatus_same_status_witness :
  orders (Samples.db_order DELIVERED) !! "order-1"
    = Some (Samples.order_in DELIVERED)
  ∧ ∃ lo,
    OrdersService.updateStatus Samples.env (Samples.db_order DELIVERED)
      "order-1" (o_status (Samples.order_in DELIVERED)) None
    = (inr lo, set_orders (insert "order-1" (OrdersService.lo_order lo))
                          (Samples.db_order DELIVERED))
    ∧ o_status (OrdersService.lo_order lo) = o_status (Samples.order_in DELIVERED)
    ∧ o_cancelledAt (OrdersService.lo_order lo)
      = o_cancelledAt (Samples.order_in DELIVERED)
    ∧ o_shippedAt (OrdersService.lo_order lo)
      = (if bool_decide (o_status (Samples.order_in DELIVERED) = SHIPPED)
         then Some (env_now Samples.env)
         else o_shippedAt (Samples.order_in DELIVERED))
    ∧ o_deliveredAt (OrdersService.lo_order lo)
      = (if bool_decide (o_status (Samples.order_in DELIVERED) = DELIVERED)
         then Some (env_now Samples.env)
         else o_deliveredAt (Samples.order_in DELIVERED)).
Proof.
  split; [reflexivity|].
  apply (updateStatus_same_status Samples.env (Samples.db_order DELIVERED)
           "order-1" (Samples.order_in DELIVERED) None).
  reflexivity.
Defined.

(* ===================================================================== *)
(** * Checkout: what [createBody] does *)
(* ===================================================================== *)

Section CheckoutRun.
Import OrdersService Checkout.

Lemma lineOk_inv l :
  lineOk l →
  ∃ p, lci_product l = Some p ∧ p_status p = ACTIVE
       ∧ ci_quantity (lci_item l) ≤ availableStock l p.
Proof.
  unfold lineOk. destruct (lci_product l) as [p|]; [|done].
  intros [??]. by exists p.
Qed.

(** One valid line costs two calls. *)
Lemma createLine_run l items s db fl :
  lineOk l →
  createLine l (items, s) (mkTx db fl)
  = if enough 2 fl
    then inr ((items ++ lineItems [l], lineSubtotal s [l]),
              mkTx (lineEffect db l) (spend 2 fl))
    else inl StorageFailure.
Proof.
  intros (p & Hp & Hact & Hq)%lineOk_inv.
  unfold createLine, lineItems, lineSubtotal. cbn. rewrite Hp. cbn.
  rewrite (bool_decide_eq_true_2 _ Hact). cbn.
  rewrite bool_decide_eq_false_2 by lia.
  unfold Storage.bind. rewrite write_run.
  rewrite (enough_S 1 fl). destruct (enough 1 fl); [|done]. cbn.
  rewrite write_run. destruct (enough 1 (spend 1 fl)); [|done]. cbn.
  by rewrite spend_add.
Qed.

(** A line that fails a test throws, whatever the fault plan. *)
Lemma createLine_not_ok l acc st :
  ¬ lineOk l → ∃ e, createLine l acc st = inl e.
Proof.
  intros Hno. unfold createLine, lineOk in *. destruct acc as [items s].
  destruct (lci_product l) as [p|]; [|by eexists].
  destruct (bool_decide (p_status p = ACTIVE)) eqn:Hact; cbn; [|by eexists].
  apply bool_decide_eq_true in Hact.
  rewrite bool_decide_eq_true_2; [by eexists|].
  destruct (decide (ci_quantity (lci_item l) ≤ availableStock l p));
    [exfalso; by apply Hno | lia].
Qed.

Lemma lineItems_app l1 l2 : lineItems (l1 ++ l2) = lineItems l1 ++ lineItems l2.
Proof. unfold lineItems. apply omap_app. Qed.

Lemma lineSubtotal_app s l1 l2 :
  lineSubtotal s (l1 ++ l2) = lineSubtotal (lineSubtotal s l1) l2.
Proof. unfold lineSubtotal. apply foldl_app. Qed.

Lemma linesEffect_app l1 l2 db :
  linesEffect (l1 ++ l2) db = linesEffect l2 (linesEffect l1 db).
Proof. unfold linesEffect. apply foldl_app. Qed.

(** The loop over valid lines. *)
Lemma forEach_createLine_run lines :
  Forall lineOk lines → ∀ items s db fl,
  forEach createLine lines (items, s) (mkTx db fl)
  = if enough (2 * length lines) fl
    then inr ((items ++ lineItems lines, lineSubtotal s lines),
              mkTx (linesEffect lines db) (spend (2 * length lines) fl))
    else inl StorageFailure.
Proof.
  induction 1 as [|l lines Hl Hls IH]; intros items s db fl.
  - cbn. rewrite enough_0, spend_0, app_nil_r. done.
  - cbn [forEach]. unfold Storage.bind at 1. rewrite createLine_run by done.
    replace (2 * length (l :: lines))%nat with (2 + 2 * length lines)%nat
      by (cbn; lia).
    rewrite (enough_add 2 (2 * length lines)). destruct (enough 2 fl); [|done]. cbn [andb].
    rewrite IH. destruct (enough _ (spend 2 fl)); [|done].
    rewrite spend_add, <-app_assoc, <-lineItems_app. done.
Qed.

(** The loop fails as soon as one line fails a test. *)
Lemma forEach_createLine_inr lines acc st r st' :
  forEach createLine lines acc st = inr (r, st') → Forall lineOk lines.
Proof.
  revert acc st. induction lines as [|l lines IH]; intros acc st Hrun.
  - constructor.
  - cbn in Hrun. apply bind_inr in Hrun as (acc1 & st1 & H1 & H2).
    constructor; [|by eapply IH].
    destruct (decide (lineOk l)) as [|Hno]; [done|].
    destruct (createLine_not_ok l acc st Hno) as [e He]. congruence.
Qed.

End CheckoutRun.

Section CheckoutBody.
Import OrdersService Checkout.

(** The stock updates of the lines touch only products and variants. *)
Lemma lineEffect_frame db l :
  cartItems (lineEffect db l) = cartItems db
  ∧ orders (lineEffect db l) = orders db
  ∧ orderItems (lineEffect db l) = orderItems db
  ∧ payments (lineEffect db l) = payments db
  ∧ coupons (lineEffect db l) = coupons db.
Proof.
  unfold lineEffect, updateSoldCount, deductStock, addToProduct,
    subFromProduct, subFromVariant.
  destruct (lci_variant l), (ci_variantId (lci_item l)); done.
Qed.

Lemma linesEffect_frame lines db :
  cartItems (linesEffect lines db) = cartItems db
  ∧ orders (linesEffect lines db) = orders db
  ∧ orderItems (linesEffect lines db) = orderItems db
  ∧ payments (linesEffect lines db) = payments db
  ∧ coupons (linesEffect lines db) = coupons db.
Proof.
  revert db. induction lines as [|l lines IH]; intros db; [done|].
  change (linesEffect (l :: lines) db)
    with (linesEffect lines (lineEffect db l)).
  destruct (IH (lineEffect db l)) as (-> & -> & -> & -> & ->).
  apply lineEffect_frame.
Qed.

(** A checkout whose preconditions hold runs to the end unless the fault
    plan stops it; it costs five calls and two per line. *)
Lemma createBody_run configService env userId dto db fl :
  ready env userId db →
  createBody configService env userId dto (mkTx db fl)
  = if enough (5 + 2 * length (findCartItems userId db)) fl
    then inr (env_orderId env,
              mkTx (effect configService env userId dto db)
                   (spend (5 + 2 * length (findCartItems userId db)) fl))
    else inl StorageFailure.
Proof.
  intros (Hne & Hok & Hfresh & Huniq).
  destruct (linesEffect_frame (findCartItems userId db) db)
    as (Hc & Ho & Hi & Hp & Hk).
  set (lines := findCartItems userId db) in *.
  replace (5 + 2 * length lines)%nat with (1 + (2 * length lines + 4))%nat
    by lia.
  unfold createBody. unfold Storage.bind at 1. rewrite read_run.
  rewrite (enough_add 1 (2 * length lines + 4)). destruct (enough 1 fl); [|done]. cbn [andb].
  fold lines.
  rewrite bool_decide_eq_false_2 by (destruct lines; [done|cbn; lia]).
  unfold Storage.bind at 1. rewrite forEach_createLine_run by done.
  rewrite (enough_add (2 * length lines) 4).
  destruct (enough (2 * _) (spend 1 fl)); [|done]. cbn [andb].
  rewrite !spend_add.
  set (fl2 := spend (1 + 2 * length lines) fl).
  replace (spend (1 + (2 * length lines + 4)) fl) with (spend 4 fl2)
    by (unfold fl2; rewrite spend_add; f_equal; lia).
  assert (∀ (k : Qc → Tx string) st,
    Storage.bind (match couponCode dto with
                  | Some code =>
                      if truthy code
                      then applyCoupon code (lineSubtotal 0%Qc lines)
                      else ret 0%Qc
                  | None => ret 0%Qc
                  end) k st = k 0%Qc st) as Hcoupon.
  { intros k st. unfold applyCoupon.
    destruct (couponCode dto) as [code|]; [destruct (truthy code)|]; done. }
  rewrite app_nil_l, Hcoupon. clear Hcoupon.
  unfold saveNewOrder. unfold Storage.bind at 1 2. rewrite call_run.
  rewrite (enough_S 3 fl2). destruct (enough 1 fl2); [|done]. cbn [andb].
  rewrite Ho. rewrite (bool_decide_eq_true_2 _ Hfresh).
  rewrite (bool_decide_eq_true_2 _ Huniq). cbn [andb fst snd ret].
  unfold Storage.bind at 1. rewrite write_run.
  rewrite (enough_S 2 (spend 1 fl2)). destruct (enough 1 (spend 1 fl2)); [|done].
  cbn [andb]. unfold Storage.bind at 1. rewrite write_run.
  rewrite (enough_S 1 (spend 1 (spend 1 fl2))). destruct (enough 1 (spend 1 (spend 1 fl2))); [|done].
  cbn [andb]. unfold Storage.bind at 1. rewrite write_run.
  destruct (enough 1 (spend 1 (spend 1 (spend 1 fl2)))); [|done].
  unfold ret. rewrite !spend_add. cbn [Nat.add].
  do 3 f_equal. unfold effect, orderRow, paymentRow.
  fold lines. unfold set_cartItems, set_payments, set_orderItems, set_orders.
  cbn. rewrite Hc, Ho, Hi, Hp, Hk. reflexivity.
Qed.

(** A checkout that reaches the end had its preconditions. *)
Lemma createBody_inr configService env userId dto st id st' :
  createBody configService env userId dto st = inr (id, st') →
  ready env userId (tx_db st).
Proof.
  destruct st as [db fl]. cbn [tx_db]. unfold createBody. intros H.
  apply bind_inr in H as (lines & st1 & Hread & H).
  rewrite read_run in Hread. destruct (enough 1 fl); [|done].
  injection Hread as <- <-.
  destruct (bool_decide (length (findCartItems userId db) = 0%nat)) eqn:Hlen;
    [done|]. apply bool_decide_eq_false in Hlen.
  apply bind_inr in H as ([items s] & st2 & Hloop & H).
  pose proof (forEach_createLine_inr _ _ _ _ _ Hloop) as Hok.
  rewrite (forEach_createLine_run _ Hok) in Hloop.
  destruct (enough _ (spend 1 fl)); [|done]. injection Hloop as <- <- <-.
  apply bind_inr in H as (discount & st3 & Hd & H).
  assert (st3 = mkTx (linesEffect (findCartItems userId db) db)
                     (spend (2 * length (findCartItems userId db))
                            (spend 1 fl))) as ->.
  { unfold applyCoupon, ret in Hd.
    destruct (couponCode dto) as [code|]; [destruct (truthy code)|];
      by injection Hd as _ <-. }
  apply bind_inr in H as (sid & st4 & Hsave & _).
  unfold saveNewOrder in Hsave.
  apply bind_inr in Hsave as (b & st5 & Hcall & Hif).
  destruct b; [|done]. apply call_inr in Hcall as [Hb _].
  cbn [tx_db] in Hb.
  destruct (linesEffect_frame (findCartItems userId db) db)
    as (_ & Ho & _).
  rewrite Ho in Hb.
  destruct (bool_decide (orders db !! env_orderId env = None)) eqn:Hfresh;
    [|done].
  destruct (bool_decide (map_Forall _ (orders db))) eqn:Huniq; [|done].
  apply bool_decide_eq_true in Hfresh, Huniq.
  repeat split; try done.
  intros Hnil. apply Hlen. by rewrite Hnil.
Qed.

End CheckoutBody.

Section CheckoutCreate.
Import OrdersService Checkout.

(** A transaction is two calls, the body, and the commit; a failure
    anywhere gives back the tables it started from. *)
Lemma transaction_run {A} (body : Tx A) fault db :
  transaction fault body db
  = if enough 2 fault
    then match body (mkTx db (spend 2 fault)) with
         | inl e => (inl e, db)
         | inr (a, st) =>
             if enough 1 (tx_faultIn st) then (inr a, tx_db st)
             else (inl StorageFailure, db)
         end
    else (inl StorageFailure, db).
Proof.
  unfold transaction. unfold Storage.bind at 1. rewrite write_run.
  rewrite (enough_S 1 fault). destruct (enough 1 fault); [|done]. cbn [andb].
  unfold Storage.bind at 1. rewrite write_run.
  destruct (enough 1 (spend 1 fault)); [|done]. rewrite spend_add. cbn [Nat.add].
  unfold Storage.bind at 1.
  destruct (body _) as [e|[a [db1 fl1]]]; [done|].
  unfold Storage.bind. rewrite write_run. cbn [tx_faultIn tx_db].
  by destruct (enough 1 fl1).
Qed.

Lemma transaction_inl {A} (body : Tx A) fault db e db' :
  transaction fault body db = (inl e, db') → db' = db.
Proof.
  rewrite transaction_run. destruct (enough 2 fault); [|congruence].
  destruct (body _) as [?|[a st]]; [congruence|].
  destruct (enough 1 _); congruence.
Qed.

Lemma transaction_inr {A} (body : Tx A) fault db a db' :
  transaction fault body db = (inr a, db') →
  ∃ fl st, body (mkTx db fl) = inr (a, st) ∧ db' = tx_db st.
Proof.
  rewrite transaction_run. destruct (enough 2 fault); [|congruence].
  destruct (body _) as [?|[a1 st]] eqn:Hbody; [congruence|].
  destruct (enough 1 _); [|congruence]. intros [= <- <-]. eauto.
Qed.

(** The order just committed is found again. *)
Lemma findOne_effect configService env userId dto db :
  findOne (effect configService env userId dto db) (env_orderId env)
          (Some userId)
  = inr (loadOrder (effect configService env userId dto db) (env_orderId env)
           (orderRow configService env userId dto
              (lineSubtotal 0%Qc (findCartItems userId db)))).
Proof.
  unfold findOne, effect. cbn [orders]. rewrite lookup_insert_eq.
  cbn [orderRow o_userId]. rewrite (bool_decide_eq_true_2 (Some _ = Some _))
    by done. cbn. by rewrite andb_false_r.
Qed.

(** [create] when the preconditions hold: it succeeds unless one of its
    [8 + 2 * lines] calls fails. *)
Lemma create_run configService env fault db userId dto :
  ready env userId db →
  create configService env fault db userId dto
  = if enough (8 + 2 * length (findCartItems userId db)) fault
    then (inr (loadOrder (effect configService env userId dto db)
                 (env_orderId env)
                 (orderRow configService env userId dto
                    (lineSubtotal 0%Qc (findCartItems userId db)))),
          effect configService env userId dto db)
    else (inl StorageFailure, db).
Proof.
  intros Hready. unfold create. rewrite transaction_run.
  rewrite createBody_run by done.
  set (n := length (findCartItems userId db)).
  replace (8 + 2 * n)%nat with (2 + ((5 + 2 * n) + 1))%nat by lia.
  rewrite (enough_add 2 (5 + 2 * n + 1)).
  destruct (enough 2 fault); [|done]. cbn [andb].
  rewrite (enough_add (5 + 2 * n) 1).
  destruct (enough (5 + 2 * n) (spend 2 fault)); [|done].
  cbn [andb tx_faultIn tx_db].
  destruct (enough 1 _); [|done].
  by rewrite findOne_effect.
Qed.

(** [create] when a precondition fails. *)
Lemma create_not_ready configService env fault db userId dto :
  ¬ ready env userId db →
  ∃ e, create configService env fault db userId dto = (inl e, db).
Proof.
  intros Hno. unfold create.
  destruct (transaction _ _ _) as [[e|id] db'] eqn:Htx.
  - apply transaction_inl in Htx as ->. eauto.
  - apply transaction_inr in Htx as (fl & st & Hbody & _).
    apply createBody_inr in Hbody. done.
Qed.

(** Every outcome of [create]. *)
Lemma create_cases configService env fault db userId dto :
  (∃ e, create configService env fault db userId dto = (inl e, db))
  ∨ (ready env userId db
     ∧ ∃ lo, create configService env fault db userId dto
             = (inr lo, effect configService env userId dto db)).
Proof.
  destruct (decide (ready env userId db)) as [Hready|Hno].
  - rewrite create_run by done. destruct (enough _ fault); eauto.
  - left. by apply create_not_ready.
Qed.

Lemma forEach_app {A S} (body : A → S → Tx S) xs ys acc st :
  forEach body (xs ++ ys) acc st
  = Storage.bind (forEach body xs acc) (forEach body ys) st.
Proof.
  revert acc st. induction xs as [|x xs IH]; intros acc st; [reflexivity|].
  cbn [app forEach]. unfold Storage.bind at 1 2 3.
  destruct (body x acc st) as [e|[a st1]]; [reflexivity|]. apply IH.
Qed.

Lemma createLine_error l acc db :
  ¬ lineOk l → createLine l acc (mkTx db None) = inl (lineError l).
Proof.
  intros Hno. unfold createLine, lineError, lineOk in *.
  destruct acc as [items s].
  destruct (lci_product l) as [p|]; [|done].
  destruct (bool_decide (p_status p = ACTIVE)) eqn:Hact; cbn; [|done].
  apply bool_decide_eq_true in Hact.
  rewrite bool_decide_eq_true_2; [done|].
  destruct (decide (ci_quantity (lci_item l) ≤ availableStock l p));
    [exfalso; by apply Hno | lia].
Qed.

(** Without storage faults, the first line that fails a test decides the
    exception. *)
Lemma create_first_bad_line configService env db userId dto good l rest :
  findCartItems userId db = good ++ l :: rest →
  Forall lineOk good → ¬ lineOk l →
  create configService env None db userId dto = (inl (lineError l), db).
Proof.
  intros Hlines Hgood Hbad. unfold create. rewrite transaction_run.
  cbn [enough spend fmap option_fmap option_map].
  unfold createBody. unfold Storage.bind at 1. rewrite read_run.
  cbn [enough spend fmap option_fmap option_map]. rewrite Hlines.
  rewrite bool_decide_eq_false_2
    by (rewrite length_app; cbn; lia).
  unfold Storage.bind at 1. rewrite forEach_app.
  unfold Storage.bind at 1. rewrite forEach_createLine_run by done.
  cbn [enough spend fmap option_fmap option_map forEach].
  unfold Storage.bind at 1. by rewrite createLine_error.
Qed.

Lemma create_empty_cart configService env db userId dto :
  findCartItems userId db = [] →
  create configService env None db userId dto = (inl CartIsEmpty, db).
Proof.
  intros Hlines. unfold create. rewrite transaction_run.
  cbn [enough spend fmap option_fmap option_map].
  unfold createBody. unfold Storage.bind at 1. rewrite read_run.
  cbn [enough spend fmap option_fmap option_map]. by rewrite Hlines.
Qed.

End CheckoutCreate.

(** C1: a checkout that fails returns the exception and leaves every table
    (orders, order items, payments, products, variants, cart) as it was;
    it does fail on an empty cart, on a line whose product is missing or
    inactive or whose quantity exceeds the stock, and when one of its
    storage calls up to and including the commit fails; without storage
    faults the exception is "Cart is empty", respectively the one of the
    first offending line. *)
Theorem create_failure_changes_nothing configService env fault db userId dto :
  let lines := OrdersService.findCartItems userId db in
  let result := OrdersService.create configService env fault db userId dto in
  (∀ e db', result = (inl e, db') → db' = db)
  ∧ (lines = [] → ∃ e, result = (inl e, db))
  ∧ (∀ l, l ∈ lines → ¬ Checkout.lineOk l → ∃ e, result = (inl e, db))
  ∧ (∀ n, fault = Some n → (n < 8 + 2 * length lines)%nat →
          ∃ e, result = (inl e, db))
  ∧ (fault = None → lines = [] → result = (inl CartIsEmpty, db))
  ∧ (fault = None → ∀ good l rest,
       lines = good ++ l :: rest → Forall Checkout.lineOk good →
       ¬ Checkout.lineOk l → result = (inl (Checkout.lineError l), db)).
Proof.
  intros lines result. subst lines result. repeat split.
  - intros e db' Hres.
    destruct (create_cases configService env fault db userId dto)
      as [[e' He]|(_ & lo & Hlo)]; congruence.
  - intros Hnil. apply create_not_ready. intros (Hne & _). done.
  - intros l Hin Hbad. apply create_not_ready. intros (_ & Hok & _).
    rewrite Forall_forall in Hok. by apply Hbad, Hok, list_elem_of_In.
  - intros n -> Hn.
    destruct (decide (Checkout.ready env userId db)) as [Hready|Hno].
    + rewrite create_run by done. cbn [enough].
      rewrite bool_decide_eq_false_2 by lia. eauto.
    + by apply create_not_ready.
  - intros -> Hnil. by apply create_empty_cart.
  - intros -> good l rest Hlines Hgood Hbad.
    by eapply create_first_bad_line.
Qed.

Lemma create_failure_changes_nothing_witness :
  OrdersService.findCartItems "user-123" Samples.db_short
    = [] ++ OrdersService.loadCartItem Samples.db_short
              (mkCartItem "user-123" "prod-1" None 5) :: []
  ∧ OrdersService.create ∅ Samples.env None Samples.db_short "user-123"
      Samples.dto
    = (inl (InsufficientStock "Product 1" 2), Samples.db_short).
Proof.
  split; [reflexivity|].
  refine (proj2 (proj2 (proj2 (proj2 (proj2
    (create_failure_changes_nothing ∅ Samples.env None Samples.db_short
       "user-123" Samples.dto))))) eq_refl [] _ [] eq_refl _ _).
  - constructor.
  - vm_compute. intros [_ H]. by apply H.
Defined.

(* ===================================================================== *)
(** * Pricing, coupons and unit prices at checkout *)
(* ===================================================================== *)

Section CheckoutExamples.
Import OrdersService Checkout.

Lemma ready_by_computation env userId db :
  bool_decide (ready env userId db) = true → ready env userId db.
Proof. apply bool_decide_eq_true_1. Qed.

(** The coupon code has no influence on a checkout. *)
Lemma createBody_ignores_couponCode configService env userId
    sa ba n pm code code' st :
  createBody configService env userId (mkCreateOrderDto sa ba n pm code) st
  = createBody configService env userId (mkCreateOrderDto sa ba n pm code') st.
Proof.
  unfold createBody. unfold Storage.bind at 1 8.
  destruct (read _ st) as [e|[lines st1]]; [done|].
  destruct (bool_decide (length lines = 0%nat)); [done|].
  unfold Storage.bind at 1 7.
  destruct (forEach _ _ _ _) as [e|[[items s] st2]]; [done|].
  cbn [couponCode shippingAddress billingAddress notes paymentMethod].
  unfold Storage.bind at 1 6. unfold applyCoupon, ret.
  destruct code as [c|], code' as [c'|];
    try destruct (truthy c); try destruct (truthy c'); reflexivity.
Qed.

Lemma create_ignores_couponCode configService env fault db userId
    sa ba n pm code code' :
  create configService env fault db userId (mkCreateOrderDto sa ba n pm code)
  = create configService env fault db userId (mkCreateOrderDto sa ba n pm code').
Proof.
  unfold create. rewrite !transaction_run. destruct (enough 2 fault); [|done].
  by rewrite (createBody_ignores_couponCode _ _ _ _ _ _ _ code code').
Qed.

(** Every order written by a checkout has discount 0 and a total made of
    the subtotal, the tax and the flat shipping cost. *)
Lemma create_order_row configService env fault db userId dto lo db' :
  create configService env fault db userId dto = (inr lo, db') →
  let shippingCost := get configService "SHIPPING_COST" n10 in
  let o := lo_order lo in
  orders db' !! env_orderId env = Some o
  ∧ o_subtotal o = lineSubtotal 0%Qc (findCartItems userId db)
  ∧ o_discount o = 0%Qc
  ∧ o_tax o = (Math_round (o_subtotal o * get configService "TAX_RATE" n0_08
                           * n100) / n100)%Qc
  ∧ o_shippingCost o
    = (if bool_decide (get configService "FREE_SHIPPING_THRESHOLD" n100
                       ≤ o_subtotal o)%Qc then 0%Qc else shippingCost)
  ∧ o_total o = (Math_round ((o_subtotal o + o_tax o + shippingCost - 0) * n100)
                 / n100)%Qc.
Proof.
  intros Hres.
  destruct (create_cases configService env fault db userId dto)
    as [[e He]|(Hready & lo' & Hlo)]; [congruence|].
  rewrite create_run in Hres by done.
  destruct (enough _ fault); [|done]. injection Hres as <- <-.
  cbn. rewrite lookup_insert_eq. done.
Qed.

End CheckoutExamples.

(** C2: the run the claim describes.  Four units at 25.00 give subtotal
    100.00, tax 8.00 and a stored shipping cost of 0; the stored total is
    118.00, not 108.00: it adds the flat shipping cost of 10. *)
Theorem create_total_at_threshold :
  ∃ lo db',
    OrdersService.create ∅ Samples.env None Samples.db_cart4 "user-123"
      Samples.dto = (inr lo, db')
    ∧ o_subtotal (OrdersService.lo_order lo) = Qc_of_Z 100
    ∧ o_tax (OrdersService.lo_order lo) = Qc_of_Z 8
    ∧ o_shippingCost (OrdersService.lo_order lo) = Qc_of_Z 0
    ∧ o_discount (OrdersService.lo_order lo) = Qc_of_Z 0
    ∧ o_total (OrdersService.lo_order lo) = Qc_of_Z 118
    ∧ o_total (OrdersService.lo_order lo) ≠ Qc_of_Z 108.
Proof.
  eexists _, _. split.
  - rewrite create_run by (by apply ready_by_computation). reflexivity.
  - cbn [OrdersService.lo_order OrdersService.loadOrder].
    assert (∀ x y : Qc, this x = this y → x = y) as Hcanon
      by (intros x y Hxy; apply Qc_is_canon; by rewrite Hxy).
    repeat split; try (apply Hcanon; vm_compute; reflexivity).
    intros H. apply (f_equal this) in H. vm_compute in H. discriminate H.
Qed.

(** C7: a checkout with a coupon code that no coupon carries (and that
    [CouponsService.applyCoupon] rejects as invalid) creates the order,
    with discount 0. *)
Theorem create_with_unknown_coupon :
  coupons Samples.db_cart4 = ∅
  ∧ (∀ toUpperCase,
       CouponsService.applyCoupon toUpperCase Samples.env Samples.db_cart4
         "BOGUS" (Qc_of_Z 100) "user-123" None None = inl InvalidCouponCode)
  ∧ ∃ lo db',
    OrdersService.create ∅ Samples.env None Samples.db_cart4 "user-123"
      (Samples.dto_coupon "BOGUS") = (inr lo, db')
    ∧ orders db' !! "order-123" = Some (OrdersService.lo_order lo)
    ∧ o_discount (OrdersService.lo_order lo) = Qc_of_Z 0.
Proof.
  split; [reflexivity|]. split; [intros toUpperCase; reflexivity|].
  eexists _, _. split.
  - rewrite create_run by (by apply ready_by_computation). reflexivity.
  - cbn [OrdersService.lo_order OrdersService.loadOrder]. split.
    + cbn. by rewrite lookup_insert_eq.
    + apply Qc_is_canon. vm_compute. reflexivity.
Qed.

Section UnitPrices.
Import OrdersService Checkout.

Lemma lineItems_cons_ok l lines p :
  lci_product l = Some p →
  lineItems (l :: lines) = orderItem l p :: lineItems lines.
Proof. intros Hp. unfold lineItems. cbn. by rewrite Hp. Qed.

End UnitPrices.

(** C8: a cart line for a product listed at 100.00 with a sale price of
    80.00 is frozen into the order at a unit price of 100.00; the sale
    price, although present, does not take precedence. *)
Lemma create_ignores_sale_price :
  ∃ lo db',
    OrdersService.create ∅ Samples.env None Samples.db_sale "user-123"
      Samples.dto = (inr lo, db')
    ∧ p_salePrice <$> products Samples.db_sale !! "prod-2"
      = Some (Some (Qc_of_Z 80))
    ∧ oi_unitPrice <$> orderItems db' = [Qc_of_Z 100].
Proof.
  eexists _, _. split.
  - rewrite create_run by (by apply ready_by_computation). reflexivity.
  - split; reflexivity.
Qed.

(** X26, the part of the unit price rule that holds: a successful checkout
    appends one order item per cart line, in order; the item carries the
    line's product, variant and quantity, and its unit price is the
    variant's price when the line has a variant and the product's price
    otherwise. *)
Theorem create_unit_price configService env fault db userId dto lo db' :
  OrdersService.create configService env fault db userId dto = (inr lo, db') →
  ∃ items,
    orderItems db' = orderItems db ++ items
    ∧ Forall2
        (λ l oi,
           ∃ product, OrdersService.lci_product l = Some product
           ∧ oi_orderId oi = env_orderId env
           ∧ oi_productId oi = ci_productId (OrdersService.lci_item l)
           ∧ oi_variantId oi = ci_variantId (OrdersService.lci_item l)
           ∧ oi_quantity oi = ci_quantity (OrdersService.lci_item l)
           ∧ oi_unitPrice oi
             = match OrdersService.lci_variant l with
               | Some variant => v_price variant
               | None => p_price product
               end
           ∧ oi_total oi
             = (oi_unitPrice oi * Qc_of_Z (oi_quantity oi))%Qc)
        (OrdersService.findCartItems userId db) items.
Proof.
  intros Hres.
  destruct (create_cases configService env fault db userId dto)
    as [[e He]|((_ & Hok & _) & lo' & Hlo)]; [congruence|].
  eexists. split.
  - assert (db' = Checkout.effect configService env userId dto db) as ->
      by congruence.
    reflexivity.
  - induction Hok as [|l lines Hl Hls IH]; [constructor|].
    apply lineOk_inv in Hl as (p & Hp & _).
    rewrite (lineItems_cons_ok _ _ p Hp). cbn [fmap list_fmap].
    constructor; [|exact IH].
    exists p. by repeat split.
Qed.

Lemma create_unit_price_witness :
  ∃ items,
    orderItems (Checkout.effect ∅ Samples.env "user-123" Samples.dto
                  Samples.db_sale)
    = orderItems Samples.db_sale ++ items
    ∧ Forall2
        (λ l oi,
           ∃ product, OrdersService.lci_product l = Some product
           ∧ oi_orderId oi = env_orderId Samples.env
           ∧ oi_productId oi = ci_productId (OrdersService.lci_item l)
           ∧ oi_variantId oi = ci_variantId (OrdersService.lci_item l)
           ∧ oi_quantity oi = ci_quantity (OrdersService.lci_item l)
           ∧ oi_unitPrice oi
             = match OrdersService.lci_variant l with
               | Some variant => v_price variant
               | None => p_price product
               end
           ∧ oi_total oi
             = (oi_unitPrice oi * Qc_of_Z (oi_quantity oi))%Qc)
        (OrdersService.findCartItems "user-123" Samples.db_sale) items.
Proof.
  eapply (create_unit_price ∅ Samples.env None Samples.db_sale "user-123"
            Samples.dto).
  rewrite create_run by (by apply ready_by_computation). reflexivity.
Defined.

(* ===================================================================== *)
(** * Coupon usage *)
(* ===================================================================== *)

(** Checkout never writes the coupons table. *)
Lemma create_keeps_coupons configService env fault db userId dto :
  coupons (OrdersService.create configService env fault db userId dto).2
  = coupons db.
Proof.
  destruct (create_cases configService env fault db userId dto)
    as [[e ->]|(_ & lo & ->)]; reflexivity.
Qed.

(** C9: a successful checkout with the code of an active coupon leaves the
    coupon's [usedCount] at 0 instead of raising it to 1. *)
Theorem create_with_coupon_keeps_usedCount :
  ∃ lo db',
    OrdersService.create ∅ Samples.env None Samples.db_coupon "user-123"
      (Samples.dto_coupon "SAVE10") = (inr lo, db')
    ∧ c_code <$> coupons Samples.db_coupon !! "coupon-1" = Some "SAVE10"
    ∧ c_usedCount <$> coupons Samples.db_coupon !! "coupon-1" = Some 0
    ∧ c_usedCount <$> coupons db' !! "coupon-1" = Some 0
    ∧ c_usedCount
        <$> coupons (CouponsService.incrementUsage db' "coupon-1") !! "coupon-1"
      = Some 1.
Proof.
  eexists _, _. split.
  - rewrite create_run by (by apply ready_by_computation). reflexivity.
  - repeat split; vm_compute; reflexivity.
Qed.

(** The coupon rules that the checkout does not reach: what
    [CouponsService.applyCoupon] accepts and what it returns. *)
Section CouponRules.
Import CouponsService.

Lemma Math_min_le_r x y : (Math_min x y ≤ y)%Qc.
Proof.
  unfold Math_min. case_bool_decide as Hxy; [done|].
  apply Qcle_refl.
Qed.

End CouponRules.

(* ===================================================================== *)
(** * Counters under the row updates *)
(* ===================================================================== *)

Section CounterFacts.

Lemma productStock_addToProduct_stock db id n p :
  productStock (addToProduct id set_p_stock n db) p
  = (λ s, s + (if bool_decide (id = p) then n else 0)) <$> productStock db p.
Proof.
  unfold productStock, addToProduct. cbn. rewrite lookup_alter.
  case_decide as Hid; [subst id|]; case_bool_decide; try done;
    destruct (products db !! p) as [[]|]; cbn; f_equal; lia.
Qed.

Lemma productStock_subFromProduct_stock db id n p :
  productStock (subFromProduct id set_p_stock n db) p
  = (λ s, s - (if bool_decide (id = p) then n else 0)) <$> productStock db p.
Proof.
  unfold productStock, subFromProduct. cbn. rewrite lookup_alter.
  case_decide as Hid; [subst id|]; case_bool_decide; try done;
    destruct (products db !! p) as [[]|]; cbn; f_equal; lia.
Qed.

Lemma productStock_soldCount_update db id f p :
  productStock (set_products (alter (set_p_soldCount f) id) db) p
  = productStock db p.
Proof.
  unfold productStock. cbn. rewrite lookup_alter.
  case_decide; [subst|done]. by destruct (products db !! p) as [[]|].
Qed.

Lemma soldCount_stock_update db id f p :
  soldCount (set_products (alter (set_p_stock f) id) db) p = soldCount db p.
Proof.
  unfold soldCount. cbn. rewrite lookup_alter.
  case_decide; [subst|done]. by destruct (products db !! p) as [[]|].
Qed.

Lemma soldCount_addToProduct db id n p :
  soldCount (addToProduct id set_p_soldCount n db) p
  = (λ s, s + (if bool_decide (id = p) then n else 0)) <$> soldCount db p.
Proof.
  unfold soldCount, addToProduct. cbn. rewrite lookup_alter.
  case_decide as Hid; [subst id|]; case_bool_decide; try done;
    destruct (products db !! p) as [[]|]; cbn; f_equal; lia.
Qed.

Lemma soldCount_subFromProduct db id n p :
  soldCount (subFromProduct id set_p_soldCount n db) p
  = (λ s, s - (if bool_decide (id = p) then n else 0)) <$> soldCount db p.
Proof.
  unfold soldCount, subFromProduct. cbn. rewrite lookup_alter.
  case_decide as Hid; [subst id|]; case_bool_decide; try done;
    destruct (products db !! p) as [[]|]; cbn; f_equal; lia.
Qed.

Lemma variantStock_addToVariant db id n v :
  variantStock (addToVariant id n db) v
  = (λ s, s + (if bool_decide (id = Some v) then n else 0))
    <$> variantStock db v.
Proof.
  unfold variantStock, addToVariant. destruct id as [w|]; cbn.
  - rewrite lookup_alter.
    case_decide as Hid; [subst w|]; case_bool_decide; try congruence;
      destruct (variants db !! v) as [[]|]; cbn; f_equal; lia.
  - rewrite bool_decide_eq_false_2 by done.
    destruct (variants db !! v) as [[]|]; cbn; f_equal; lia.
Qed.

Lemma variantStock_subFromVariant db id n v :
  variantStock (subFromVariant id n db) v
  = (λ s, s - (if bool_decide (id = Some v) then n else 0))
    <$> variantStock db v.
Proof.
  unfold variantStock, subFromVariant. destruct id as [w|]; cbn.
  - rewrite lookup_alter.
    case_decide as Hid; [subst w|]; case_bool_decide; try congruence;
      destruct (variants db !! v) as [[]|]; cbn; f_equal; lia.
  - rewrite bool_decide_eq_false_2 by done.
    destruct (variants db !! v) as [[]|]; cbn; f_equal; lia.
Qed.

Lemma option_fmap_add (o : option Z) a b :
  (λ s, s + b) <$> ((λ s, s + a) <$> o) = (λ s, s + (a + b)) <$> o.
Proof. destruct o; cbn; f_equal; lia. Qed.

Lemma option_fmap_sub (o : option Z) a b :
  (λ s, s - b) <$> ((λ s, s - a) <$> o) = (λ s, s - (a + b)) <$> o.
Proof. destruct o; cbn; f_equal; lia. Qed.

Lemma option_fmap_add_0 (o : option Z) : (λ s, s + 0) <$> o = o.
Proof. destruct o; cbn; f_equal; lia. Qed.

Lemma option_fmap_sub_0 (o : option Z) : (λ s, s - 0) <$> o = o.
Proof. destruct o; cbn; f_equal; lia. Qed.

End CounterFacts.

(* ===================================================================== *)
(** * Cancellation: what [cancel] does *)
(* ===================================================================== *)

Section CancelRun.
Import OrdersService Cancellation.

(** A loop whose body is two writes. *)
Lemma forEach_two_writes {A} (f g : A → DB → DB) xs : ∀ db fl,
  forEach (λ x (_ : unit), run write (f x) then write (g x)) xs tt (mkTx db fl)
  = if enough (2 * length xs) fl
    then inr (tt, mkTx (foldl (λ d x, g x (f x d)) db xs)
                       (spend (2 * length xs) fl))
    else inl StorageFailure.
Proof.
  induction xs as [|x xs IH]; intros db fl.
  - cbn. by rewrite enough_0, spend_0.
  - cbn [forEach foldl]. unfold Storage.bind at 1 2. rewrite write_run.
    replace (2 * length (x :: xs))%nat with (1 + (1 + 2 * length xs))%nat
      by (cbn; lia).
    rewrite (enough_add 1 (1 + 2 * length xs)).
    destruct (enough 1 fl); [|done]. cbn [andb]. rewrite write_run.
    rewrite (enough_add 1 (2 * length xs)).
    destruct (enough 1 (spend 1 fl)); [|done]. cbn [andb].
    rewrite IH. rewrite !spend_add.
    destruct (enough _ _); [|done].
    by replace (1 + 1 + 2 * length xs)%nat with (1 + (1 + 2 * length xs))%nat
      by lia.
Qed.

Lemma cancelBody_run env order reason db fl :
  cancelBody env order reason (mkTx db fl)
  = if enough (calls order) fl
    then inr (tt, mkTx (effect env order reason db) (spend (calls order) fl))
    else inl StorageFailure.
Proof.
  unfold cancelBody, calls, effect, completedPayment.
  set (n := length (lo_items order)).
  unfold Storage.bind at 1. rewrite forEach_two_writes. fold n.
  destruct (list_find _ (lo_payments order)) as [[j [i p]]|] eqn:Hfind;
    cbn [fmap option_fmap option_map snd].
  - replace (2 * n + 1 + 1)%nat with (2 * n + (1 + 1))%nat by lia.
    rewrite (enough_add (2 * n) (1 + 1)).
    destruct (enough (2 * n) fl); [|done]. cbn [andb].
    unfold Storage.bind at 1. rewrite write_run.
    rewrite (enough_add 1 1 (spend (2 * n) fl)).
    destruct (enough 1 (spend (2 * n) fl)); [|done]. cbn [andb].
    rewrite bool_decide_eq_true_2.
    + rewrite write_run. destruct (enough 1 _); [|done].
      rewrite !spend_add. repeat f_equal; lia.
    + apply list_find_Some in Hfind as (Hj & _). apply lookup_lt_Some in Hj.
      lia.
  - replace (2 * n + 1 + 0)%nat with (2 * n + 1)%nat by lia.
    rewrite (enough_add (2 * n) 1).
    destruct (enough (2 * n) fl); [|done]. cbn [andb].
    unfold Storage.bind at 1. rewrite write_run.
    destruct (enough 1 (spend (2 * n) fl)); [|done].
    rewrite !spend_add. by destruct (bool_decide _).
Qed.

Lemma effect_frame env order reason db :
  cartItems (effect env order reason db) = cartItems db
  ∧ orderItems (effect env order reason db) = orderItems db
  ∧ coupons (effect env order reason db) = coupons db
  ∧ orders (effect env order reason db)
    = <[lo_id order := cancelledOrder env reason (lo_order order)]> (orders db).
Proof.
  unfold effect.
  assert (∀ items d,
    cartItems (foldl itemEffect d items) = cartItems d
    ∧ orderItems (foldl itemEffect d items) = orderItems d
    ∧ coupons (foldl itemEffect d items) = coupons d
    ∧ orders (foldl itemEffect d items) = orders d) as Hfold.
  { induction items as [|x xs IH]; intros d; [done|]. cbn [foldl].
    destruct (IH (itemEffect d x)) as (-> & -> & -> & ->).
    unfold itemEffect, reverseSoldCount, restoreStock, subFromProduct,
      addToProduct, addToVariant.
    destruct (loi_variant x), (oi_variantId (loi_item x)); done. }
  destruct (Hfold (lo_items order) db) as (Hc & Hi & Hk & Ho).
  destruct (completedPayment order) as [[i p]|]; cbn;
    rewrite Hc, Hi, Hk, Ho; done.
Qed.

Lemma findOne_inr db orderId userId order :
  findOne db orderId userId = inr order →
  ∃ o, orders db !! orderId = Some o ∧ order = loadOrder db orderId o.
Proof.
  unfold findOne. destruct (orders db !! orderId) as [o|]; [|done].
  destruct (_ && _); [done|]. intros [= <-]. eauto.
Qed.

(** [cancel] on a cancellable order of the caller: it succeeds unless one
    of its calls fails. *)
Lemma cancel_run env fault db userId orderId reason order :
  findOne db orderId (Some userId) = inr order →
  o_status (lo_order order) ∈ [PENDING; CONFIRMED] →
  cancel env fault db userId orderId reason
  = if enough (3 + calls order) fault
    then (inr (loadOrder (effect env order reason db) orderId
                 (cancelledOrder env reason (lo_order order))),
          effect env order reason db)
    else (inl StorageFailure, db).
Proof.
  intros Hfind Hstatus. unfold cancel. rewrite Hfind.
  rewrite (bool_decide_eq_true_2 _ Hstatus). cbn [negb].
  rewrite transaction_run, cancelBody_run.
  replace (3 + calls order)%nat with (2 + (calls order + 1))%nat by lia.
  rewrite (enough_add 2). destruct (enough 2 fault); [|done]. cbn [andb].
  rewrite (enough_add (calls order) 1).
  destruct (enough (calls order) _); [|done]. cbn [andb tx_faultIn tx_db].
  destruct (enough 1 _); [|done].
  apply findOne_inr in Hfind as (o & Ho & ->).
  destruct (effect_frame env (loadOrder db orderId o) reason db)
    as (_ & _ & _ & Horders).
  unfold findOne. rewrite Horders. cbn [lo_id loadOrder].
  by rewrite lookup_insert_eq.
Qed.

(** Every outcome of [cancel]. *)
Lemma cancel_cases env fault db userId orderId reason :
  (∃ e, cancel env fault db userId orderId reason = (inl e, db))
  ∨ (∃ order lo,
       findOne db orderId (Some userId) = inr order
       ∧ o_status (lo_order order) ∈ [PENDING; CONFIRMED]
       ∧ cancel env fault db userId orderId reason
         = (inr lo, effect env order reason db)).
Proof.
  destruct (findOne db orderId (Some userId)) as [e|order] eqn:Hfind.
  - left. exists e. unfold cancel. by rewrite Hfind.
  - destruct (decide (o_status (lo_order order) ∈ [PENDING; CONFIRMED]))
      as [Hst|Hst].
    + rewrite (cancel_run _ _ _ _ _ _ _ Hfind Hst).
      destruct (enough _ fault); eauto 10.
    + left. exists OrderNotCancellable. unfold cancel. rewrite Hfind.
      by rewrite (bool_decide_eq_false_2 _ Hst).
Qed.

(** The counters after the stock restoration of the items. *)
Lemma productStock_itemEffect db item p :
  productStock (itemEffect db item) p
  = (λ s, s + toProductStock [item] p) <$> productStock db p.
Proof.
  unfold itemEffect, reverseSoldCount, restoreStock, toProductStock.
  unfold subFromProduct at 1. rewrite productStock_soldCount_update.
  cbn [foldr]. rewrite Z.add_0_r.
  destruct (loi_variant item) as [v|].
  - rewrite bool_decide_eq_false_2 by (by intros [? _]).
    rewrite option_fmap_add_0. unfold productStock, addToVariant.
    by destruct (oi_variantId (loi_item item)).
  - rewrite productStock_addToProduct_stock. f_equal.
    apply (f_equal (λ b : bool, λ s, s + (if b then _ else 0))).
    apply bool_decide_ext. split; [intros ?; by split | by intros [_ ?]].
Qed.

Lemma soldCount_itemEffect db item p :
  soldCount (itemEffect db item) p
  = (λ s, s - offSoldCount [item] p) <$> soldCount db p.
Proof.
  unfold itemEffect, reverseSoldCount, restoreStock, offSoldCount.
  rewrite soldCount_subFromProduct. cbn [foldr]. rewrite Z.add_0_r.
  f_equal. destruct (loi_variant item) as [v|].
  - unfold soldCount, addToVariant.
    by destruct (oi_variantId (loi_item item)).
  - unfold addToProduct. apply soldCount_stock_update.
Qed.

Lemma variantStock_itemEffect db item v :
  variantStock (itemEffect db item) v
  = (λ s, s + toVariantStock [item] v) <$> variantStock db v.
Proof.
  unfold itemEffect, reverseSoldCount, restoreStock, toVariantStock.
  cbn [foldr]. rewrite Z.add_0_r.
  change (variantStock (subFromProduct ?i ?c ?n ?d) v)
    with (variantStock d v).
  destruct (loi_variant item) as [w|].
  - rewrite variantStock_addToVariant. f_equal.
    apply (f_equal (λ b : bool, λ s, s + (if b then _ else 0))).
    apply bool_decide_ext. split; [intros ?; by split | by intros [_ ?]].
  - rewrite bool_decide_eq_false_2 by (by intros [? _]).
    change (variantStock (addToProduct ?i ?c ?n ?d) v)
      with (variantStock d v).
    by rewrite option_fmap_add_0.
Qed.

End CancelRun.

Section CancelCounters.
Import OrdersService Cancellation.

Lemma productStock_items db items p :
  productStock (foldl itemEffect db items) p
  = (λ s, s + toProductStock items p) <$> productStock db p.
Proof.
  revert db. induction items as [|x xs IH]; intros db.
  - cbn. by rewrite option_fmap_add_0.
  - cbn [foldl]. rewrite IH, productStock_itemEffect, option_fmap_add.
    unfold toProductStock. cbn [foldr]. by rewrite Z.add_0_r.
Qed.

Lemma soldCount_items db items p :
  soldCount (foldl itemEffect db items) p
  = (λ s, s - offSoldCount items p) <$> soldCount db p.
Proof.
  revert db. induction items as [|x xs IH]; intros db.
  - cbn. by rewrite option_fmap_sub_0.
  - cbn [foldl]. rewrite IH, soldCount_itemEffect, option_fmap_sub.
    unfold offSoldCount. cbn [foldr]. by rewrite Z.add_0_r.
Qed.

Lemma variantStock_items db items v :
  variantStock (foldl itemEffect db items) v
  = (λ s, s + toVariantStock items v) <$> variantStock db v.
Proof.
  revert db. induction items as [|x xs IH]; intros db.
  - cbn. by rewrite option_fmap_add_0.
  - cbn [foldl]. rewrite IH, variantStock_itemEffect, option_fmap_add.
    unfold toVariantStock. cbn [foldr]. by rewrite Z.add_0_r.
Qed.

Lemma effect_products env order reason db :
  products (effect env order reason db)
  = products (foldl itemEffect db (lo_items order))
  ∧ variants (effect env order reason db)
    = variants (foldl itemEffect db (lo_items order))
  ∧ payments (foldl itemEffect db (lo_items order)) = payments db.
Proof.
  unfold effect. split; [|split].
  - by destruct (completedPayment order) as [[i p]|].
  - by destruct (completedPayment order) as [[i p]|].
  - generalize (lo_items order). intros items. revert db.
    induction items as [|x xs IH]; intros db; [done|]. cbn [foldl].
    rewrite IH. unfold itemEffect, reverseSoldCount, restoreStock,
      subFromProduct, addToProduct, addToVariant.
    by destruct (loi_variant x), (oi_variantId (loi_item x)).
Qed.



End CancelCounters.



(** Cancellation never writes the coupons table: a coupon's [usedCount] is
    not decremented when an order is cancelled. *)
Lemma cancel_keeps_coupons env fault db userId orderId reason :
  coupons (OrdersService.cancel env fault db userId orderId reason).2
  = coupons db.
Proof.
  destruct (cancel_cases env fault db userId orderId reason)
    as [[e ->]|(order & lo & _ & _ & ->)]; [reflexivity|].
  cbn [snd]. by destruct (effect_frame env order reason db) as (_ & _ & -> & _).
Qed.

(* ===================================================================== *)
(** * Stock never goes negative *)
(* ===================================================================== *)

Section InventoryFacts.
Import OrdersService Checkout Inventory.

Lemma stocksNonneg_targets db :
  stocksNonneg db ↔ ∀ t s, targetStock db t = Some s → 0 ≤ s.
Proof.
  unfold stocksNonneg, map_Forall. split.
  - intros [Hp Hv] [p|v] s; cbn; unfold productStock, variantStock;
      intros Hs; apply fmap_Some in Hs as (x & Hx & ->); eauto.
  - intros H. split.
    + intros p x Hx. apply (H (inl p)). cbn. unfold productStock.
      by rewrite Hx.
    + intros v x Hx. apply (H (inr v)). cbn. unfold variantStock.
      by rewrite Hx.
Qed.

(** A valid loaded line asks for no more than its counter holds. *)
Lemma lineOk_targetStock db ci :
  lineOk (loadCartItem db ci) →
  ∃ s, targetStock db (cartTarget db ci) = Some s ∧ ci_quantity ci ≤ s.
Proof.
  intros (p & Hp & _ & Hq)%lineOk_inv. revert Hp Hq.
  unfold loadCartItem, availableStock, cartTarget, target.
  cbn [lci_item lci_product lci_variant]. intros Hp.
  destruct (ci_variantId ci) as [w|]; cbn.
  - destruct (variants db !! w) as [vr|] eqn:Hw; cbn.
    + rewrite ?bool_decide_eq_true_2 by eauto. cbn. unfold variantStock.
      rewrite Hw. cbn. eauto.
    + rewrite ?bool_decide_eq_false_2 by (by intros [? ?]). cbn.
      unfold productStock. rewrite Hp. cbn. eauto.
  - unfold productStock. rewrite Hp. cbn. eauto.
Qed.

(** One line takes its quantity from its counter and from no other. *)
Lemma targetStock_lineEffect db0 d ci t :
  targetStock (lineEffect d (loadCartItem db0 ci)) t
  = (λ s, s - (if bool_decide (cartTarget db0 ci = t)
               then ci_quantity ci else 0)) <$> targetStock d t.
Proof.
  unfold lineEffect, updateSoldCount, deductStock, loadCartItem, cartTarget,
    target. cbn [lci_item lci_product lci_variant].
  assert (∀ p, productStock
                 (addToProduct (ci_productId ci) set_p_soldCount
                    (ci_quantity ci)
                    (subFromProduct (ci_productId ci) set_p_stock
                       (ci_quantity ci) d)) p
               = (λ s, s - (if bool_decide (inl (ci_productId ci)
                                            = (inl p : string + string))
                            then ci_quantity ci else 0))
                 <$> productStock d p) as Hprod.
  { intros p. unfold addToProduct at 1.
    rewrite productStock_soldCount_update, productStock_subFromProduct_stock.
    f_equal. apply (f_equal (λ b : bool, λ s, s - (if b then _ else 0))).
    apply bool_decide_ext. split; congruence. }
  destruct (ci_variantId ci) as [w|]; cbn [mbind option_bind].
  - destruct (variants db0 !! w) as [vr|] eqn:Hw.
    + rewrite ?bool_decide_eq_true_2 by eauto. destruct t as [p|v]; cbn.
      * change (productStock (addToProduct ?i set_p_soldCount ?n
                                (subFromVariant ?j ?m d)) p)
          with (productStock (addToProduct i set_p_soldCount n d) p).
        unfold addToProduct. rewrite productStock_soldCount_update.
        by rewrite option_fmap_sub_0.
      * change (variantStock (addToProduct ?i ?c ?n ?e) v)
          with (variantStock e v).
        etrans; [apply (variantStock_subFromVariant d (Some w))|]. f_equal.
        apply (f_equal (λ b : bool, λ s, s - (if b then _ else 0))).
        apply bool_decide_ext. split; congruence.
    + rewrite ?bool_decide_eq_false_2 by (by intros [? ?]).
      destruct t as [p|v]; cbn; [apply Hprod|].
      by rewrite option_fmap_sub_0.
  - destruct t as [p|v]; cbn; [apply Hprod|].
    by rewrite option_fmap_sub_0.
Qed.

Lemma taken_cons db ci cis t :
  taken db (ci :: cis) t
  = (if bool_decide (cartTarget db ci = t) then ci_quantity ci else 0)
    + taken db cis t.
Proof. reflexivity. Qed.

Lemma targetStock_linesEffect db0 cis : ∀ d t,
  targetStock (linesEffect (loadCartItem db0 <$> cis) d) t
  = (λ s, s - taken db0 cis t) <$> targetStock d t.
Proof.
  induction cis as [|ci cis IH]; intros d t.
  - cbn. by rewrite option_fmap_sub_0.
  - cbn [fmap list_fmap].
    change (linesEffect (?l :: ?ls) d) with (linesEffect ls (lineEffect d l)).
    by rewrite IH, targetStock_lineEffect, option_fmap_sub, taken_cons.
Qed.

Lemma taken_0 db cis t :
  t ∉ cartTarget db <$> cis → taken db cis t = 0.
Proof.
  induction cis as [|ci cis IH]; [done|]. cbn [fmap list_fmap].
  intros Hnotin. apply not_elem_of_cons in Hnotin as [Hne Hrest].
  rewrite taken_cons, bool_decide_eq_false_2 by congruence.
  rewrite IH by done. lia.
Qed.

(** Lines that draw from pairwise different counters never take more than
    a counter holds. *)
Lemma taken_le db cis t s :
  NoDup (cartTarget db <$> cis) →
  Forall (λ ci, lineOk (loadCartItem db ci)) cis →
  targetStock db t = Some s → 0 ≤ s →
  taken db cis t ≤ s.
Proof.
  intros Hnd Hok Hs Hpos. induction cis as [|ci cis IH]; [by cbn|].
  cbn [fmap list_fmap] in Hnd. apply list.NoDup_cons in Hnd as [Hnotin Hnd].
  apply Forall_cons_iff in Hok as [Hci Hok]. rewrite taken_cons.
  case_bool_decide as Ht.
  - subst t. rewrite taken_0 by done.
    apply lineOk_targetStock in Hci as (s' & Hs' & Hq). simplify_eq. lia.
  - specialize (IH Hnd Hok). lia.
Qed.

(** The lines of one user draw from pairwise different counters. *)
Lemma NoDup_user_targets {B} (f : CartItem → B) (l : list CartItem) u :
  NoDup ((λ ci, (ci_userId ci, f ci)) <$> l) →
  NoDup (f <$> filter (λ ci, ci_userId ci = u) l).
Proof.
  induction l as [|ci l IH]; [intros _; constructor|]. cbn [fmap list_fmap].
  intros [Hnotin Hnd]%list.NoDup_cons. rewrite filter_cons.
  case_decide as Hu; [|by apply IH]. cbn [fmap list_fmap].
  apply list.NoDup_cons. split; [|by apply IH].
  intros (ci' & Hf & Hin)%list_elem_of_fmap.
  apply list_elem_of_filter in Hin as [Hu' Hin]. apply Hnotin.
  apply list_elem_of_fmap. exists ci'. split; [|done]. congruence.
Qed.

End InventoryFacts.

Section InventoryPreserved.
Import OrdersService Inventory.

Lemma cartTarget_ext db db' ci :
  (∀ v, is_Some (variants db' !! v) ↔ is_Some (variants db !! v)) →
  cartTarget db' ci = cartTarget db ci.
Proof.
  intros Hdom. unfold cartTarget, target.
  destruct (ci_variantId ci) as [v|]; [|done].
  by rewrite (bool_decide_ext _ _ (Hdom v)).
Qed.

Lemma variants_dom_of_stock db db' (f : string → Z → Z) :
  (∀ v, variantStock db' v = f v <$> variantStock db v) →
  ∀ v, is_Some (variants db' !! v) ↔ is_Some (variants db !! v).
Proof.
  intros Hstock v. specialize (Hstock v). unfold variantStock in Hstock.
  rewrite <-(fmap_is_Some v_stock (variants db' !! v)), Hstock.
  by rewrite !fmap_is_Some.
Qed.

Lemma NoDup_fmap_filter {A B} (f : A → B) (P : A → Prop)
    `{∀ x, Decision (P x)} (l : list A) :
  NoDup (f <$> l) → NoDup (f <$> filter P l).
Proof.
  induction l as [|x l IH]; [intros _; constructor|]. cbn [fmap list_fmap].
  intros [Hnotin Hnd]%list.NoDup_cons. rewrite filter_cons.
  case_decide; [|by apply IH]. cbn [fmap list_fmap].
  apply list.NoDup_cons. split; [|by apply IH].
  intros (y & Hf & Hin)%list_elem_of_fmap.
  apply list_elem_of_filter in Hin as [_ Hin]. apply Hnotin.
  apply list_elem_of_fmap. eauto.
Qed.

Lemma lineItems_quantities db id cis :
  Forall (λ ci, 0 ≤ ci_quantity ci) cis →
  Forall (λ oi, 0 ≤ oi_quantity oi)
         (set_oi_orderId id <$> Checkout.lineItems (loadCartItem db <$> cis)).
Proof.
  induction 1 as [|ci cis Hq Hqs IH]; [constructor|].
  unfold Checkout.lineItems. cbn [fmap list_fmap omap list_omap].
  cbn [loadCartItem lci_product].
  destruct (products db !! ci_productId ci) as [p|]; cbn; [|exact IH].
  constructor; [exact Hq|exact IH].
Qed.

(** A checkout keeps the invariant. *)
Lemma wellFormed_create configService env fault db userId dto :
  wellFormed db →
  wellFormed (create configService env fault db userId dto).2.
Proof.
  intros Hwf.
  destruct (create_cases configService env fault db userId dto)
    as [[e ->]|((_ & Hok & _) & lo & ->)]; [done|]. cbn [snd].
  destruct Hwf as (Hstock & Hcart & Hitems & Hnd).
  set (cis := filter (λ ci, ci_userId ci = userId) (cartItems db)).
  assert (findCartItems userId db = loadCartItem db <$> cis) as Hlines
    by done.
  assert (∀ t, targetStock (Checkout.effect configService env userId dto db) t
               = (λ s, s - taken db cis t) <$> targetStock db t) as Htarget.
  { intros t. rewrite <-targetStock_linesEffect, <-Hlines. by destruct t. }
  assert (∀ ci, cartTarget (Checkout.effect configService env userId dto db) ci
                = cartTarget db ci) as Hsame.
  { intros ci. apply cartTarget_ext.
    apply (variants_dom_of_stock _ _ (λ v s, s - taken db cis (inr v))).
    intros v. apply (Htarget (inr v)). }
  assert (stocksNonneg (Checkout.effect configService env userId dto db))
    as [??].
  { apply stocksNonneg_targets. intros t s'. rewrite Htarget.
    intros (s & Hs & ->)%fmap_Some.
    assert (0 ≤ s) by (by eapply stocksNonneg_targets).
    enough (taken db cis t ≤ s) by lia.
    apply taken_le; try done.
    - by apply NoDup_user_targets.
    - rewrite Hlines in Hok. apply list.Forall_forall. intros ci Hci.
      apply (proj1 (list.Forall_forall _ _) Hok).
      by apply list_elem_of_fmap_2. }
  repeat split; try done.
  - cbn [Checkout.effect cartItems]. apply list.Forall_forall.
    intros ci [_ Hin]%list_elem_of_filter.
    by apply (proj1 (list.Forall_forall _ _) Hcart).
  - cbn [Checkout.effect orderItems]. apply Forall_app. split; [done|].
    rewrite Hlines. apply lineItems_quantities.
    apply list.Forall_forall. intros ci [_ Hin]%list_elem_of_filter.
    by apply (proj1 (list.Forall_forall _ _) Hcart).
  - cbn [Checkout.effect cartItems].
    rewrite (list_fmap_ext _ (λ ci, (ci_userId ci, cartTarget db ci)))
      by (intros ? ci _; by rewrite Hsame).
    by apply NoDup_fmap_filter.
Qed.

Lemma toProductStock_nonneg items p :
  Forall (λ item, 0 ≤ oi_quantity (loi_item item)) items →
  0 ≤ Cancellation.toProductStock items p.
Proof.
  induction 1 as [|x xs Hx Hxs IH]; [done|].
  unfold Cancellation.toProductStock in *. cbn [foldr].
  case_bool_decide; lia.
Qed.

Lemma toVariantStock_nonneg items v :
  Forall (λ item, 0 ≤ oi_quantity (loi_item item)) items →
  0 ≤ Cancellation.toVariantStock items v.
Proof.
  induction 1 as [|x xs Hx Hxs IH]; [done|].
  unfold Cancellation.toVariantStock in *. cbn [foldr].
  case_bool_decide; lia.
Qed.

Lemma findOne_items_quantities db orderId userId order :
  Forall (λ oi, 0 ≤ oi_quantity oi) (orderItems db) →
  findOne db orderId userId = inr order →
  Forall (λ item, 0 ≤ oi_quantity (loi_item item)) (lo_items order).
Proof.
  intros Hitems (o & _ & ->)%findOne_inr. cbn [lo_items loadOrder].
  apply list.Forall_forall.
  intros item (oi & -> & [_ Hin]%list_elem_of_filter)%list_elem_of_fmap.
  by apply (proj1 (list.Forall_forall _ _) Hitems).
Qed.

(** A cancellation keeps the invariant. *)
Lemma wellFormed_cancel env fault db userId orderId reason :
  wellFormed db →
  wellFormed (cancel env fault db userId orderId reason).2.
Proof.
  intros Hwf.
  destruct (cancel_cases env fault db userId orderId reason)
    as [[e ->]|(order & lo & Hfind & _ & ->)]; [done|]. cbn [snd].
  destruct Hwf as (Hstock & Hcart & Hitems & Hnd).
  pose proof (findOne_items_quantities _ _ _ _ Hitems Hfind) as Hq.
  destruct (effect_products env order reason db) as (Hp & Hv & _).
  destruct (effect_frame env order reason db) as (Hc & Hi & _ & _).
  assert (∀ t, ∃ n, 0 ≤ n ∧
               targetStock (Cancellation.effect env order reason db) t
               = (λ s, s + n) <$> targetStock db t) as Htarget.
  { intros [p|v]; cbn.
    - exists (Cancellation.toProductStock (lo_items order) p).
      split; [by apply toProductStock_nonneg|].
      unfold productStock. rewrite Hp. apply productStock_items.
    - exists (Cancellation.toVariantStock (lo_items order) v).
      split; [by apply toVariantStock_nonneg|].
      unfold variantStock. rewrite Hv. apply variantStock_items. }
  assert (∀ ci, cartTarget (Cancellation.effect env order reason db) ci
                = cartTarget db ci) as Hsame.
  { intros ci. apply cartTarget_ext.
    apply (variants_dom_of_stock _ _
             (λ v s, s + Cancellation.toVariantStock (lo_items order) v)).
    intros v. unfold variantStock. rewrite Hv. apply variantStock_items. }
  assert (stocksNonneg (Cancellation.effect env order reason db)) as [??].
  { apply stocksNonneg_targets. intros t s'.
    destruct (Htarget t) as (n & Hn & ->).
    intros (s & Hs & ->)%fmap_Some.
    assert (0 ≤ s) by (by eapply stocksNonneg_targets). lia. }
  repeat split; try done.
  - by rewrite Hc.
  - by rewrite Hi.
  - rewrite Hc.
    by rewrite (list_fmap_ext _ (λ ci, (ci_userId ci, cartTarget db ci)))
      by (intros ? ci _; by rewrite Hsame).
Qed.

Lemma wellFormed_apply db op : wellFormed db → wellFormed (apply db op).
Proof.
  destruct op; [apply wellFormed_create|apply wellFormed_cancel].
Qed.

Lemma wellFormed_foldl ops : ∀ db,
  wellFormed db → wellFormed (foldl apply db ops).
Proof.
  induction ops as [|op ops IH]; intros db Hwf; [done|].
  cbn [foldl]. by apply IH, wellFormed_apply.
Qed.

End InventoryPreserved.

Section InventoryClaim.
Import OrdersService Inventory.

(** The stock a loaded line is checked against is the current value of
    the counter it draws from. *)
Lemma loaded_targetStock db ci p :
  products db !! ci_productId ci = Some p →
  targetStock db (cartTarget db ci)
  = Some (availableStock (loadCartItem db ci) p).
Proof.
  intros Hp. unfold loadCartItem, availableStock, cartTarget, target.
  cbn [lci_item lci_product lci_variant].
  destruct (ci_variantId ci) as [w|]; cbn.
  - destruct (variants db !! w) as [vr|] eqn:Hw; cbn.
    + rewrite ?bool_decide_eq_true_2 by eauto. cbn. unfold variantStock.
      by rewrite Hw.
    + rewrite ?bool_decide_eq_false_2 by (by intros [? ?]). cbn.
      unfold productStock. by rewrite Hp.
  - unfold productStock. by rewrite Hp.
Qed.

Lemma short_line_not_ok db ci p s :
  products db !! ci_productId ci = Some p →
  targetStock db (cartTarget db ci) = Some s →
  s - ci_quantity ci < 0 →
  ¬ Checkout.lineOk (loadCartItem db ci)
  ∧ (p_status p = ACTIVE →
     Checkout.lineError (loadCartItem db ci) = InsufficientStock (p_name p) s).
Proof.
  intros Hp Hs Hneg. rewrite (loaded_targetStock _ _ _ Hp) in Hs.
  injection Hs as Hs. split.
  - unfold Checkout.lineOk.
    change (lci_product (loadCartItem db ci))
      with (products db !! ci_productId ci).
    rewrite Hp. intros [_ Hq].
    change (lci_item (loadCartItem db ci)) with ci in Hq. lia.
  - intros Hact. unfold Checkout.lineError.
    change (lci_product (loadCartItem db ci))
      with (products db !! ci_productId ci).
    rewrite Hp, (bool_decide_eq_true_2 _ Hact). by rewrite Hs.
Qed.

End InventoryClaim.

(** C3, as stated, fails: a checkout can take a stock below zero.  The
    cart holds two lines that draw from the stock of the same product,
    which is 5, of four units each.  Each line is tested against the
    product row as loaded with the cart before the loop (4 ≤ 5, twice),
    and each decrement is issued without a test of its result: the
    checkout succeeds and leaves the stock at -3.  The second decrement,
    whose result is negative, neither fails nor leaves the stock
    unchanged. *)
Theorem create_drives_stock_negative :
  Inventory.stocksNonneg Samples.db_two_lines
  ∧ productStock Samples.db_two_lines "prod-1" = Some 5
  ∧ OrdersService.findCartItems "user-123" Samples.db_two_lines
    = [OrdersService.mkLoadedCartItem
         (mkCartItem "user-123" "prod-1" None 4)
         (Some Samples.product_stock5) None;
       OrdersService.mkLoadedCartItem
         (mkCartItem "user-123" "prod-1" None 4)
         (Some Samples.product_stock5) None]
  ∧ ∃ lo db',
      OrdersService.create ∅ Samples.env None Samples.db_two_lines
        "user-123" Samples.dto = (inr lo, db')
      ∧ productStock db' "prod-1" = Some (-3)
      ∧ soldCount db' "prod-1" = Some 8
      ∧ cartItems db' = []
      ∧ ¬ Inventory.stocksNonneg db'
      ∧ ¬ Inventory.stocksNonneg
            (foldl Inventory.apply Samples.db_two_lines
               [Inventory.Checkout ∅ Samples.env None "user-123"
                  Samples.dto]).
Proof.
  assert (Checkout.ready Samples.env "user-123" Samples.db_two_lines)
    as Hready by (by apply ready_by_computation).
  pose proof (create_run ∅ Samples.env None Samples.db_two_lines "user-123"
                Samples.dto Hready) as Hrun.
  cbn [enough] in Hrun.
  assert (¬ Inventory.stocksNonneg
            (Checkout.effect ∅ Samples.env "user-123" Samples.dto
               Samples.db_two_lines)) as Hneg.
  { intros [Hp _].
    assert (productStock
              (Checkout.effect ∅ Samples.env "user-123" Samples.dto
                 Samples.db_two_lines) "prod-1" = Some (-3)) as Hs
      by reflexivity.
    unfold productStock in Hs. apply fmap_Some in Hs as (p & Hlook & Hst).
    specialize (Hp "prod-1" p Hlook). cbn beta in Hp. lia. }
  split.
  { split; [apply map_Forall_singleton; cbn; lia|apply map_Forall_empty]. }
  split; [reflexivity|]. split; [reflexivity|].
  eexists _, _. split; [exact Hrun|]. split; [reflexivity|].
  split; [reflexivity|]. split; [reflexivity|]. split; [exact Hneg|].
  cbn [foldl Inventory.apply]. rewrite Hrun. exact Hneg.
Qed.

(** X28: stocks stay non-negative from a well-formed state.  From a state
    in which stocks and quantities are not negative and no two cart lines
    of a user draw from the same stock counter, every sequence of
    checkouts and cancellations (successful or not, with or without
    storage faults) leaves every product and variant stock ≥ 0.  A
    checkout with a line whose quantity would take its counter below zero
    fails and changes nothing; without storage faults, and when that line
    is the first offending one and its product is active, the exception is
    the insufficient-stock one. *)
Theorem stock_never_negative db :
  Inventory.wellFormed db →
  (∀ ops, Inventory.stocksNonneg (foldl Inventory.apply db ops))
  ∧ (∀ configService env fault userId dto ci p s,
       ci ∈ filter (λ c, ci_userId c = userId) (cartItems db) →
       products db !! ci_productId ci = Some p →
       Inventory.targetStock db (Inventory.cartTarget db ci) = Some s →
       s - ci_quantity ci < 0 →
       ∃ e, OrdersService.create configService env fault db userId dto
            = (inl e, db))
  ∧ (∀ configService env userId dto good ci rest p s,
       filter (λ c, ci_userId c = userId) (cartItems db)
         = good ++ ci :: rest →
       Forall (λ c, Checkout.lineOk (OrdersService.loadCartItem db c)) good →
       products db !! ci_productId ci = Some p → p_status p = ACTIVE →
       Inventory.targetStock db (Inventory.cartTarget db ci) = Some s →
       s - ci_quantity ci < 0 →
       OrdersService.create configService env None db userId dto
       = (inl (InsufficientStock (p_name p) s), db)).
Proof.
  intros Hwf. split; [|split].
  - intros ops. by apply wellFormed_foldl.
  - intros configService env fault userId dto ci p s Hin Hp Hs Hneg.
    destruct (short_line_not_ok _ _ _ _ Hp Hs Hneg) as [Hbad _].
    apply create_not_ready. intros (_ & Hok & _).
    apply Hbad. apply (proj1 (list.Forall_forall _ _) Hok).
    unfold OrdersService.findCartItems. by apply list_elem_of_fmap_2.
  - intros configService env userId dto good ci rest p s Hlines Hgood Hp Hact
      Hs Hneg.
    destruct (short_line_not_ok _ _ _ _ Hp Hs Hneg) as [Hbad Herr].
    rewrite <-(Herr Hact).
    apply (create_first_bad_line _ _ _ _ _
             (OrdersService.loadCartItem db <$> good) _
             (OrdersService.loadCartItem db <$> rest)); [| |done].
    + unfold OrdersService.findCartItems. rewrite Hlines.
      by rewrite fmap_app.
    + apply list.Forall_forall.
      intros l (c & -> & Hc)%list_elem_of_fmap.
      by apply (proj1 (list.Forall_forall _ _) Hgood).
Qed.

Lemma stock_never_negative_witness :
  Inventory.wellFormed Samples.db_cart4
  ∧ Inventory.stocksNonneg
      (foldl Inventory.apply Samples.db_cart4
         [Inventory.Checkout ∅ Samples.env None "user-123" Samples.dto;
          Inventory.Cancel Samples.env None "user-123" "order-123" None;
          Inventory.Checkout ∅ Samples.env None "user-123" Samples.dto]).
Proof.
  assert (Inventory.wellFormed Samples.db_cart4) as Hwf.
  { apply (bool_decide_unpack _). vm_compute. exact I. }
  split; [exact Hwf|].
  apply (proj1 (stock_never_negative Samples.db_cart4 Hwf)).
Defined.

(* ===================================================================== *)
(** * Adding to the cart *)
(* ===================================================================== *)

Section CartLookup.
Import CartService.

Lemma findOneOf_None {A} pick (rows : list A) :
  findOneOf pick rows = None ↔ rows = [].
Proof.
  unfold findOneOf. split; [|by intros ->].
  intros Hnone. destruct rows as [|r rows]; [done|]. exfalso.
  apply lookup_ge_None in Hnone.
  pose proof (Nat.mod_upper_bound pick (length (r :: rows))) as Hlt.
  cbn [length] in *. lia.
Qed.

Lemma findOneOf_Some {A} pick (rows : list A) r :
  findOneOf pick rows = Some r → r ∈ rows.
Proof. unfold findOneOf. apply list_elem_of_lookup_2. Qed.

Lemma findCartItem_Some pick db userId productId variantId i ci :
  findCartItem pick db userId productId variantId = Some (i, ci) →
  cartItems db !! i = Some ci
  ∧ ci_userId ci = userId ∧ ci_productId ci = productId
  ∧ variantMatches variantId ci.
Proof.
  unfold findCartItem, matching. intros Hfind.
  apply findOneOf_Some in Hfind.
  apply list_elem_of_filter in Hfind as [(Hu & Hp & Hv) Hin].
  apply elem_of_lookup_imap in Hin as (j & cj & [= -> ->] & Hj). done.
Qed.

Lemma findCartItem_None pick db userId productId variantId :
  findCartItem pick db userId productId variantId = None →
  Forall (λ ci, ¬ (ci_userId ci = userId ∧ ci_productId ci = productId
                   ∧ variantMatches variantId ci)) (cartItems db).
Proof.
  unfold findCartItem, matching. intros Hfind.
  apply findOneOf_None in Hfind. apply list.Forall_forall. intros ci Hci Hm.
  apply list_elem_of_lookup in Hci as (i & Hi).
  assert ((i, ci) ∈ filter
            (λ ic, ci_userId ic.2 = userId ∧ ci_productId ic.2 = productId
                   ∧ variantMatches variantId ic.2)
            (imap pair (cartItems db))) as Hin.
  { apply list_elem_of_filter. split; [done|].
    by apply elem_of_lookup_imap_2. }
  rewrite Hfind in Hin. by apply not_elem_of_nil in Hin.
Qed.

(** A call of [addToCart] that throws changes nothing. *)
Lemma addToCart_inl pick db userId dto e db' :
  addToCart pick db userId dto = (inl e, db') → db' = db.
Proof.
  unfold addToCart.
  destruct (CartService.availableStock db dto); [by intros [= _ <-]|].
  destruct (bool_decide _); [by intros [= _ <-]|].
  destruct (findCartItem _ _ _ _ _) as [[i ex]|]; [|done].
  destruct (bool_decide _); [by intros [= _ <-]|done].
Qed.

(** Every successful [addToCart]: the requested quantity went to a row
    that the lookup matched, or, no row matching, to a new row. *)
Lemma addToCart_inr pick db userId dto item db' :
  addToCart pick db userId dto = (inr item, db') →
  ∃ avail,
    CartService.availableStock db dto = inr avail
    ∧ ci_quantity item ≤ avail
    ∧ ci_userId item = userId
    ∧ ci_productId item = productId dto
    ∧ variantMatches (variantId dto) item
    ∧ ((∃ i existing,
          findCartItem pick db userId (productId dto) (variantId dto)
          = Some (i, existing)
          ∧ item = set_ci_quantity (ci_quantity existing + quantity dto)
                                   existing
          ∧ db' = set_cartItems (λ l, <[i := item]> l) db)
       ∨ (findCartItem pick db userId (productId dto) (variantId dto) = None
          ∧ item = mkCartItem userId (productId dto) (variantId dto)
                              (quantity dto)
          ∧ db' = set_cartItems (λ l, l ++ [item]) db)).
Proof.
  unfold addToCart.
  destruct (CartService.availableStock db dto) as [e|avail]; [done|].
  case_bool_decide as Hq; [done|].
  destruct (findCartItem pick db userId (productId dto) (variantId dto))
    as [[i existing]|] eqn:Hfind.
  - case_bool_decide as Hnew; [done|]. intros [= <- <-].
    exists avail. split; [done|]. split; [cbn; lia|].
    apply findCartItem_Some in Hfind as (_ & Hu & Hp & Hv).
    split; [done|]. split; [done|].
    split; [by destruct (variantId dto)|].
    left. by exists i, existing.
  - intros [= <- <-]. exists avail. split; [done|]. split; [cbn; lia|].
    split; [done|]. split; [done|].
    split; [by destruct (variantId dto)|]. by right.
Qed.

End CartLookup.

(** C10, as stated, fails when the request names no variant and the cart
    holds, beside the line for the product without variant, a line for a
    variant of that product.  The lookup of the existing line is then on
    user and product alone and matches both lines.  When the database
    returns the variant's line, the requested unit is added to it (2
    becomes 3) and the line without variant, the one of the requested
    pair, keeps its quantity; when it returns the other line the call does
    what the claim says. *)
Theorem addToCart_merges_into_variant_line :
  CartService.matching Samples.db_variant_and_plain "user-123" "prod-1" None
  = [(0%nat, Samples.line_variant 2); (1%nat, Samples.line_plain 1)]
  ∧ CartService.addToCart 0 Samples.db_variant_and_plain "user-123"
      (CartService.mkAddToCartDto "prod-1" None 1)
    = (inr (Samples.line_variant 3),
       set_cartItems (λ _, [Samples.line_variant 3; Samples.line_plain 1])
                     Samples.db_variant_and_plain)
  ∧ CartService.addToCart 1 Samples.db_variant_and_plain "user-123"
      (CartService.mkAddToCartDto "prod-1" None 1)
    = (inr (Samples.line_plain 2),
       set_cartItems (λ _, [Samples.line_variant 2; Samples.line_plain 2])
                     Samples.db_variant_and_plain).
Proof. split; [reflexivity|]. split; reflexivity. Qed.

(* ===================================================================== *)
(** * The order lifecycle *)
(* ===================================================================== *)

Section LifecycleFacts.
Import OrdersService Lifecycle.

Lemma properTransition_rank a b : properTransition a b → (rank a < rank b)%nat.
Proof. intros [Hcan Hne]. destruct a, b; cbn in *; try done; lia. Qed.

Lemma legalPath_ranks a rest :
  legalPath (a :: rest) → Forall (λ b, (rank a < rank b)%nat) rest.
Proof.
  revert a. induction rest as [|b rest IH]; intros a Hpath; [constructor|].
  destruct Hpath as [Hab Hrest]. apply properTransition_rank in Hab.
  constructor; [done|].
  eapply list.Forall_impl; [apply (IH b Hrest)|]. cbn. intros c Hc. lia.
Qed.

Lemma legalPath_tail a rest : legalPath (a :: rest) → legalPath rest.
Proof. destruct rest; [done|]. by intros [_ ?]. Qed.

Lemma legalPath_length path :
  legalPath path →
  match path with
  | a :: _ => (length path + rank a ≤ 6)%nat
  | [] => True
  end.
Proof.
  induction path as [|a rest IH]; [done|]. intros Hpath.
  specialize (IH (legalPath_tail _ _ Hpath)).
  destruct rest as [|b rest].
  - destruct a; cbn; lia.
  - destruct Hpath as [Hab _]. apply properTransition_rank in Hab.
    cbn [length] in *. lia.
Qed.

End LifecycleFacts.

(** X1: a sequence of accepted status changes never visits a status twice
    and has at most six statuses: the lifecycle has no cycle. *)
Theorem legalPath_no_revisit path :
  Lifecycle.legalPath path → NoDup path ∧ (length path ≤ 6)%nat.
Proof.
  intros Hpath. split.
  - induction path as [|a rest IH]; [constructor|].
    apply list.NoDup_cons. split; [|apply IH; by apply (legalPath_tail a)].
    intros Hin. apply legalPath_ranks in Hpath.
    apply (proj1 (list.Forall_forall _ _) Hpath) in Hin. lia.
  - apply legalPath_length in Hpath. destruct path; [cbn; lia|lia].
Qed.

Lemma legalPath_no_revisit_witness :
  Lifecycle.legalPath
    [PENDING; CONFIRMED; PROCESSING; SHIPPED; DELIVERED; RETURNED]
  ∧ NoDup [PENDING; CONFIRMED; PROCESSING; SHIPPED; DELIVERED; RETURNED]
  ∧ (length [PENDING; CONFIRMED; PROCESSING; SHIPPED; DELIVERED; RETURNED]
     ≤ 6)%nat.
Proof.
  assert (Lifecycle.legalPath
            [PENDING; CONFIRMED; PROCESSING; SHIPPED; DELIVERED; RETURNED])
    as Hpath by (cbn; unfold Lifecycle.properTransition; repeat split; done).
  split; [exact Hpath|]. exact (legalPath_no_revisit _ Hpath).
Defined.

Section StatusUpdates.
Import OrdersService Lifecycle OrderStatusUtil.

(** The test of [updateStatus] is [canTransition]. *)
Lemma updateStatus_test s status :
  negb (bool_decide (status ∈ statusTransitions s)) && bool_decide (s ≠ status)
  = negb (canTransition s status).
Proof. by destruct s, status. Qed.

(** Every outcome of [updateStatus]. *)
Lemma updateStatus_outcome env db orderId status additionalData :
  (orders db !! orderId = None
   ∧ updateStatus env db orderId status additionalData
     = (inl OrderNotFound, db))
  ∨ (∃ o, orders db !! orderId = Some o
      ∧ canTransition (o_status o) status = false
      ∧ updateStatus env db orderId status additionalData
        = (inl (CannotTransition (o_status o) status), db))
  ∨ (∃ o o', orders db !! orderId = Some o
      ∧ canTransition (o_status o) status = true
      ∧ updateStatus env db orderId status additionalData
        = (inr (mkLoadedOrder orderId o' (lo_items (loadOrder db orderId o))
                  (lo_payments (loadOrder db orderId o))),
           set_orders (insert orderId o') db)
      ∧ o_status o' = status
      ∧ o_orderNumber o' = o_orderNumber o
      ∧ o_userId o' = o_userId o
      ∧ (o_subtotal o', o_discount o', o_tax o', o_shippingCost o', o_total o')
        = (o_subtotal o, o_discount o, o_tax o, o_shippingCost o, o_total o)
      ∧ o_cancelledAt o' = o_cancelledAt o
      ∧ o_cancellationReason o' = o_cancellationReason o
      ∧ o_shippedAt o'
        = (if bool_decide (status = SHIPPED) then Some (env_now env)
           else o_shippedAt o)
      ∧ o_deliveredAt o'
        = (if bool_decide (status = DELIVERED) then Some (env_now env)
           else o_deliveredAt o)).
Proof.
  unfold updateStatus, findOne.
  destruct (orders db !! orderId) as [o|] eqn:Ho; [|by left].
  right. cbn [truthy_opt andb lo_order loadOrder lo_id].
  rewrite updateStatus_test.
  destruct (canTransition (o_status o) status) eqn:Hcan; cbn [negb].
  - right. eexists o, _. split; [done|]. split; [done|].
    split; [reflexivity|].
    destruct o.
    destruct (truthy_opt (additionalData ≫= ad_trackingNumber)),
      (truthy_opt (additionalData ≫= ad_notes)),
      (bool_decide (status = SHIPPED)), (bool_decide (status = DELIVERED));
      cbn; repeat split; reflexivity.
  - left. by exists o.
Qed.

Lemma adminUpdateOrderStatus_outcome db orderId status :
  (orders db !! orderId = None
   ∧ AdminService.updateOrderStatus db orderId status
     = (inl OrderNotFound, db))
  ∨ (∃ o, orders db !! orderId = Some o
      ∧ canTransition (o_status o) status = false
      ∧ AdminService.updateOrderStatus db orderId status
        = (inl (CannotTransition (o_status o) status), db))
  ∨ (∃ o, orders db !! orderId = Some o
      ∧ canTransition (o_status o) status = true
      ∧ AdminService.updateOrderStatus db orderId status
        = (inr (set_o_status status o),
           set_orders (insert orderId (set_o_status status o)) db)).
Proof.
  unfold AdminService.updateOrderStatus,
    AdminService.validateOrderStatusTransition.
  destruct (orders db !! orderId) as [o|] eqn:Ho; [|by left].
  right. destruct (canTransition (o_status o) status) eqn:Hcan; cbn [negb].
  - right. by exists o.
  - left. by exists o.
Qed.

Lemma canTransition_proper s s' :
  canTransition s s' = true → s' = s ∨ properTransition s s'.
Proof.
  intros Hcan. destruct (decide (s' = s)) as [->|Hne]; [by left|].
  right. split; [done|]. by intros ->.
Qed.

(** One operation keeps every order and moves its status along an edge,
    if at all. *)
Lemma apply_status db op orderId s :
  statusOf db orderId = Some s →
  ∃ s', statusOf (Lifecycle.apply db op) orderId = Some s'
        ∧ (s' = s ∨ properTransition s s').
Proof.
  unfold statusOf. intros Hs.
  destruct (orders db !! orderId) as [o|] eqn:Ho; [|done].
  injection Hs as <-.
  assert (∀ d, orders d = orders db →
    ∃ s', o_status <$> orders d !! orderId = Some s'
          ∧ (s' = o_status o ∨ properTransition (o_status o) s')) as Hsame.
  { intros d ->. rewrite Ho. eauto. }
  destruct op as [cfg env fault userId dto | env fault userId id reason
                 | env id status ad | id status]; cbn [Lifecycle.apply].
  - destruct (create_cases cfg env fault db userId dto)
      as [[e ->]|[Hready [lo ->]]]; cbn [snd]; [by apply Hsame|].
    destruct Hready as (_ & _ & Hfresh & _).
    unfold Checkout.effect. cbn [orders].
    rewrite lookup_insert_ne by (intros <-; congruence).
    rewrite Ho. eauto.
  - destruct (cancel_cases env fault db userId id reason)
      as [[e ->]|(order & lo & Hfind & Hst & ->)]; cbn [snd];
      [by apply Hsame|].
    destruct (effect_frame env order reason db)
      as (_ & _ & _ & ->).
    apply findOne_inr in Hfind as (o' & Ho' & ->). cbn [lo_id loadOrder] in *.
    destruct (decide (id = orderId)) as [->|Hne].
    + rewrite lookup_insert_eq. cbn. eexists. split; [done|].
      rewrite Ho in Ho'. injection Ho' as <-. right.
      apply list_elem_of_In in Hst. cbn in Hst.
      destruct Hst as [<-|[<-|[]]]; by split.
    + rewrite lookup_insert_ne by done. rewrite Ho. eauto.
  - destruct (updateStatus_outcome env db id status ad)
      as [[_ ->]|[(o' & _ & _ & ->)|(o' & o'' & Ho' & Hcan & -> & Hst & _)]];
      cbn [snd]; [by apply Hsame..|].
    cbn [set_orders orders].
    destruct (decide (id = orderId)) as [->|Hne].
    + rewrite lookup_insert_eq. cbn. eexists. split; [done|].
      rewrite Ho in Ho'. injection Ho' as <-. rewrite Hst.
      by apply canTransition_proper.
    + rewrite lookup_insert_ne by done. rewrite Ho. eauto.
  - destruct (adminUpdateOrderStatus_outcome db id status)
      as [[_ ->]|[(o' & _ & _ & ->)|(o' & Ho' & Hcan & ->)]];
      cbn [snd]; [by apply Hsame..|].
    cbn [set_orders orders].
    destruct (decide (id = orderId)) as [->|Hne].
    + rewrite lookup_insert_eq. cbn. eexists. split; [done|].
      rewrite Ho in Ho'. injection Ho' as <-. destruct o; cbn in *.
      by apply canTransition_proper.
    + rewrite lookup_insert_ne by done. rewrite Ho. eauto.
Qed.

Lemma properTransition_not_final s s' :
  properTransition s s' → isFinalStatus s = false.
Proof. intros [Hcan Hne]. by destruct s, s'. Qed.

(** A final status survives every sequence of operations. *)
Lemma final_status_kept db orderId s ops :
  statusOf db orderId = Some s → isFinalStatus s = true →
  statusOf (foldl Lifecycle.apply db ops) orderId = Some s.
Proof.
  intros Hs Hfinal. revert db Hs.
  induction ops as [|op ops IH]; intros db Hs; [done|].
  cbn [foldl]. apply IH.
  destruct (apply_status db op orderId s Hs) as (s1 & Hs1 & [->|Hprop]);
    [done|].
  apply properTransition_not_final in Hprop. congruence.
Qed.

End StatusUpdates.

(** X2: [updateStatus] accepts a request exactly when [canTransition] does.
    A refused request leaves every table as it was.  An accepted one
    rewrites the row of that order only: products, variants, payments, cart
    and order items are untouched, and the order keeps its number, owner,
    amounts and cancellation stamp, also when the new status is CANCELLED. *)
Theorem updateStatus_follows_table env db orderId status additionalData o :
  orders db !! orderId = Some o →
  if OrderStatusUtil.canTransition (o_status o) status
  then ∃ lo,
    OrdersService.updateStatus env db orderId status additionalData
    = (inr lo, set_orders (insert orderId (OrdersService.lo_order lo)) db)
    ∧ o_status (OrdersService.lo_order lo) = status
    ∧ o_orderNumber (OrdersService.lo_order lo) = o_orderNumber o
    ∧ o_userId (OrdersService.lo_order lo) = o_userId o
    ∧ o_subtotal (OrdersService.lo_order lo) = o_subtotal o
    ∧ o_tax (OrdersService.lo_order lo) = o_tax o
    ∧ o_shippingCost (OrdersService.lo_order lo) = o_shippingCost o
    ∧ o_total (OrdersService.lo_order lo) = o_total o
    ∧ o_cancelledAt (OrdersService.lo_order lo) = o_cancelledAt o
    ∧ o_cancellationReason (OrdersService.lo_order lo)
      = o_cancellationReason o
  else OrdersService.updateStatus env db orderId status additionalData
       = (inl (CannotTransition (o_status o) status), db).
Proof.
  intros Ho.
  destruct (updateStatus_outcome env db orderId status additionalData)
    as [[Hnone _]|[(o1 & Ho1 & Hcan & Hrun)
                  |(o1 & o' & Ho1 & Hcan & Hrun & Hst & Hnum & Hu & Hamt
                    & Hc & Hr & _)]];
    [congruence| |]; rewrite Ho in Ho1; injection Ho1 as <-; rewrite Hcan.
  - exact Hrun.
  - eexists. split; [exact Hrun|]. cbn [OrdersService.lo_order].
    injection Hamt as -> _ -> -> ->. done.
Qed.

Lemma updateStatus_follows_table_witness :
  orders (Samples.db_order PROCESSING) !! "order-1"
  = Some (Samples.order_in PROCESSING)
  ∧ (∃ lo,
      OrdersService.updateStatus Samples.env (Samples.db_order PROCESSING)
        "order-1" CANCELLED None
      = (inr lo, set_orders (insert "order-1" (OrdersService.lo_order lo))
                   (Samples.db_order PROCESSING))
      ∧ o_status (OrdersService.lo_order lo) = CANCELLED
      ∧ o_cancelledAt (OrdersService.lo_order lo) = None)
  ∧ OrdersService.updateStatus Samples.env (Samples.db_order PROCESSING)
      "order-1" DELIVERED None
    = (inl (CannotTransition PROCESSING DELIVERED),
       Samples.db_order PROCESSING).
Proof.
  assert (orders (Samples.db_order PROCESSING) !! "order-1"
          = Some (Samples.order_in PROCESSING)) as Ho by reflexivity.
  split; [exact Ho|]. split.
  - destruct (updateStatus_follows_table Samples.env _ _ CANCELLED None _ Ho)
      as (lo & Hrun & Hst & _ & _ & _ & _ & _ & _ & Hc & _).
    exists lo. split; [exact Hrun|]. split; [exact Hst|exact Hc].
  - exact (updateStatus_follows_table Samples.env _ _ DELIVERED None _ Ho).
Defined.

(** X3: the two entry points that change an order's status,
    [OrdersService.updateStatus] and [AdminService.updateOrderStatus],
    refuse the same requests with the same exception and leave the tables
    as they were.  A request they accept stores, in both, a row of that
    order with the requested status: the row read back from the orders
    table is the returned one and carries the status, every other order
    and every other table is untouched.  The admin one stores the old row
    with the status changed and nothing else, so it never stamps
    [shippedAt] or [deliveredAt]. *)
Theorem status_entry_points_agree env db orderId status additionalData :
  match (OrdersService.updateStatus env db orderId status additionalData).1,
        (AdminService.updateOrderStatus db orderId status).1 with
  | inl e1, inl e2 =>
      e1 = e2
      ∧ (OrdersService.updateStatus env db orderId status additionalData).2
        = db
      ∧ (AdminService.updateOrderStatus db orderId status).2 = db
  | inr lo, inr o' =>
      let db1 :=
        (OrdersService.updateStatus env db orderId status additionalData).2 in
      let db2 := (AdminService.updateOrderStatus db orderId status).2 in
      o_status (OrdersService.lo_order lo) = status ∧ o_status o' = status
      ∧ orders db1 !! orderId = Some (OrdersService.lo_order lo)
      ∧ orders db2 !! orderId = Some o'
      ∧ Lifecycle.statusOf db1 orderId = Some status
      ∧ Lifecycle.statusOf db2 orderId = Some status
      ∧ (∀ other, other ≠ orderId →
           orders db1 !! other = orders db !! other
           ∧ orders db2 !! other = orders db !! other)
      ∧ (products db1, variants db1, cartItems db1, orderItems db1,
         payments db1, coupons db1)
        = (products db, variants db, cartItems db, orderItems db,
           payments db, coupons db)
      ∧ (products db2, variants db2, cartItems db2, orderItems db2,
         payments db2, coupons db2)
        = (products db, variants db, cartItems db, orderItems db,
           payments db, coupons db)
      ∧ ∃ o, orders db !! orderId = Some o
             ∧ o' = set_o_status status o
             ∧ o_shippedAt o' = o_shippedAt o
             ∧ o_deliveredAt o' = o_deliveredAt o
  | _, _ => False
  end.
Proof.
  destruct (updateStatus_outcome env db orderId status additionalData)
    as [[Hnone ->]|[(o1 & Ho1 & Hcan1 & ->)
                   |(o1 & o' & Ho1 & Hcan1 & -> & Hst & _)]];
  destruct (adminUpdateOrderStatus_outcome db orderId status)
    as [[Hnone2 ->]|[(o2 & Ho2 & Hcan2 & ->)|(o2 & Ho2 & Hcan2 & ->)]];
  cbn [fst snd]; try congruence; try done.
  - rewrite Ho1 in Ho2. injection Ho2 as <-. done.
  - rewrite Ho1 in Ho2. injection Ho2 as <-.
    cbn [OrdersService.lo_order]. unfold Lifecycle.statusOf.
    cbn [set_orders orders products variants cartItems orderItems payments
         coupons].
    rewrite !lookup_insert_eq. cbn [fmap option_fmap option_map].
    split; [done|]. split; [by destruct o1|]. split; [done|].
    split; [done|]. split; [by rewrite Hst|]. split; [by destruct o1|].
    split.
    { intros other Hne. by rewrite !lookup_insert_ne by done. }
    split; [done|]. split; [done|].
    exists o1. by destruct o1.
Qed.

(** X4: whatever checkouts, cancellations and status updates (of either
    entry point) run, with or without storage faults, an order stays in the
    table, its status never moves to an earlier stage of the lifecycle, and
    a CANCELLED, REFUNDED or RETURNED order keeps its status for ever. *)
Theorem status_never_moves_back db orderId s ops :
  Lifecycle.statusOf db orderId = Some s →
  ∃ s', Lifecycle.statusOf (foldl Lifecycle.apply db ops) orderId = Some s'
        ∧ (Lifecycle.rank s ≤ Lifecycle.rank s')%nat
        ∧ (OrderStatusUtil.isFinalStatus s = true → s' = s).
Proof.
  revert db s. induction ops as [|op ops IH]; intros db s Hs.
  - exists s. cbn. done.
  - cbn [foldl].
    destruct (apply_status db op orderId s Hs) as (s1 & Hs1 & Hstep).
    destruct (IH _ _ Hs1) as (s' & Hs' & Hrank & Hfinal).
    exists s'. split; [done|].
    destruct Hstep as [->|Hprop]; [done|].
    split.
    + apply properTransition_rank in Hprop. lia.
    + intros Hfin. apply properTransition_not_final in Hprop. congruence.
Qed.

Lemma status_never_moves_back_witness :
  Lifecycle.statusOf (Samples.db_order CANCELLED) "order-1" = Some CANCELLED
  ∧ ∃ s', Lifecycle.statusOf
            (foldl Lifecycle.apply (Samples.db_order CANCELLED)
               [Lifecycle.UpdateStatus Samples.env "order-1" PENDING None;
                Lifecycle.AdminUpdateOrderStatus "order-1" CONFIRMED;
                Lifecycle.Cancel Samples.env None "user-123" "order-1" None])
            "order-1" = Some s'
          ∧ (Lifecycle.rank CANCELLED ≤ Lifecycle.rank s')%nat
          ∧ (OrderStatusUtil.isFinalStatus CANCELLED = true → s' = CANCELLED).
Proof.
  assert (Lifecycle.statusOf (Samples.db_order CANCELLED) "order-1"
          = Some CANCELLED) as Hs by reflexivity.
  split; [exact Hs|]. exact (status_never_moves_back _ _ _ _ Hs).
Defined.

(* ===================================================================== *)
(** * Checkout followed by cancellation *)
(* ===================================================================== *)

Section RoundTrip.
Import OrdersService Checkout Cancellation Inventory Ledger.

Lemma filter_none {A} (P : A → Prop) `{∀ x, Decision (P x)} (l : list A) :
  Forall (λ x, ¬ P x) l → filter P l = [].
Proof.
  induction 1 as [|x l Hx _ IH]; [done|].
  rewrite filter_cons. by rewrite decide_False.
Qed.

Lemma filter_all {A} (P : A → Prop) `{∀ x, Decision (P x)} (l : list A) :
  Forall P l → filter P l = l.
Proof.
  induction 1 as [|x l Hx _ IH]; [done|].
  rewrite filter_cons. rewrite decide_True by done. by rewrite IH.
Qed.

Lemma product_by_columns (a b : option Product) :
  p_stock <$> a = p_stock <$> b →
  p_soldCount <$> a = p_soldCount <$> b →
  otherColumns <$> a = otherColumns <$> b →
  a = b.
Proof.
  destruct a as [[]|], b as [[]|]; cbn; try done.
  intros [= ->] [= ->] [= -> -> -> -> -> ->]. done.
Qed.

Lemma variant_by_columns (a b : option ProductVariant) :
  v_stock <$> a = v_stock <$> b →
  otherVariantColumns <$> a = otherVariantColumns <$> b →
  a = b.
Proof.
  destruct a as [[]|], b as [[]|]; cbn; try done.
  intros [= ->] [= -> -> -> -> -> ->]. done.
Qed.

Lemma otherColumns_alter_stock f id (m : gmap string Product) k :
  otherColumns <$> alter (set_p_stock f) id m !! k = otherColumns <$> m !! k.
Proof.
  rewrite lookup_alter. case_decide; [subst|done].
  by destruct (m !! k) as [[]|].
Qed.

Lemma otherColumns_alter_soldCount f id (m : gmap string Product) k :
  otherColumns <$> alter (set_p_soldCount f) id m !! k
  = otherColumns <$> m !! k.
Proof.
  rewrite lookup_alter. case_decide; [subst|done].
  by destruct (m !! k) as [[]|].
Qed.

Lemma otherVariantColumns_alter f id (m : gmap string ProductVariant) k :
  otherVariantColumns <$> alter (set_v_stock f) id m !! k
  = otherVariantColumns <$> m !! k.
Proof.
  rewrite lookup_alter. case_decide; [subst|done].
  by destruct (m !! k) as [[]|].
Qed.

Lemma otherColumns_lineEffect d l k :
  otherColumns <$> products (lineEffect d l) !! k
  = otherColumns <$> products d !! k
  ∧ otherVariantColumns <$> variants (lineEffect d l) !! k
    = otherVariantColumns <$> variants d !! k.
Proof.
  unfold lineEffect, updateSoldCount, deductStock, addToProduct,
    subFromProduct, subFromVariant.
  destruct (lci_variant l), (ci_variantId (lci_item l)); cbn;
    rewrite ?otherColumns_alter_soldCount, ?otherColumns_alter_stock,
      ?otherVariantColumns_alter; done.
Qed.

Lemma otherColumns_itemEffect d item k :
  otherColumns <$> products (itemEffect d item) !! k
  = otherColumns <$> products d !! k
  ∧ otherVariantColumns <$> variants (itemEffect d item) !! k
    = otherVariantColumns <$> variants d !! k.
Proof.
  unfold itemEffect, reverseSoldCount, restoreStock, addToProduct,
    subFromProduct, addToVariant.
  destruct (loi_variant item), (oi_variantId (loi_item item)); cbn;
    rewrite ?otherColumns_alter_soldCount, ?otherColumns_alter_stock,
      ?otherVariantColumns_alter; done.
Qed.

Lemma otherColumns_linesEffect lines : ∀ d k,
  otherColumns <$> products (linesEffect lines d) !! k
  = otherColumns <$> products d !! k
  ∧ otherVariantColumns <$> variants (linesEffect lines d) !! k
    = otherVariantColumns <$> variants d !! k.
Proof.
  induction lines as [|l lines IH]; intros d k; [done|].
  change (linesEffect (l :: lines) d) with (linesEffect lines (lineEffect d l)).
  destruct (IH (lineEffect d l) k) as [-> ->]. apply otherColumns_lineEffect.
Qed.

Lemma otherColumns_items items : ∀ d k,
  otherColumns <$> products (foldl itemEffect d items) !! k
  = otherColumns <$> products d !! k
  ∧ otherVariantColumns <$> variants (foldl itemEffect d items) !! k
    = otherVariantColumns <$> variants d !! k.
Proof.
  induction items as [|x items IH]; intros d k; [done|]. cbn [foldl].
  destruct (IH (itemEffect d x) k) as [-> ->]. apply otherColumns_itemEffect.
Qed.

Lemma sold_cons ci cis p :
  sold (ci :: cis) p
  = (if bool_decide (ci_productId ci = p) then ci_quantity ci else 0)
    + sold cis p.
Proof. reflexivity. Qed.

Lemma soldCount_lineEffect d l p :
  soldCount (lineEffect d l) p
  = (λ s, s + (if bool_decide (ci_productId (lci_item l) = p)
               then ci_quantity (lci_item l) else 0)) <$> soldCount d p.
Proof.
  unfold lineEffect, updateSoldCount, deductStock.
  rewrite soldCount_addToProduct. f_equal.
  destruct (lci_variant l).
  - unfold soldCount, subFromVariant.
    by destruct (ci_variantId (lci_item l)).
  - unfold subFromProduct. apply soldCount_stock_update.
Qed.

Lemma soldCount_linesEffect db0 cis : ∀ d p,
  soldCount (linesEffect (loadCartItem db0 <$> cis) d) p
  = (λ s, s + sold cis p) <$> soldCount d p.
Proof.
  induction cis as [|ci cis IH]; intros d p.
  - cbn. by rewrite option_fmap_add_0.
  - cbn [fmap list_fmap].
    change (linesEffect (?l :: ?ls) d) with (linesEffect ls (lineEffect d l)).
    by rewrite IH, soldCount_lineEffect, option_fmap_add, sold_cons.
Qed.

Lemma toProductStock_cons x xs p :
  toProductStock (x :: xs) p
  = (if bool_decide (loi_variant x = None ∧ oi_productId (loi_item x) = p)
     then oi_quantity (loi_item x) else 0) + toProductStock xs p.
Proof. reflexivity. Qed.

Lemma toVariantStock_cons x xs v :
  toVariantStock (x :: xs) v
  = (if bool_decide (loi_variant x ≠ None
                     ∧ oi_variantId (loi_item x) = Some v)
     then oi_quantity (loi_item x) else 0) + toVariantStock xs v.
Proof. reflexivity. Qed.

Lemma offSoldCount_cons x xs p :
  offSoldCount (x :: xs) p
  = (if bool_decide (oi_productId (loi_item x) = p)
     then oi_quantity (loi_item x) else 0) + offSoldCount xs p.
Proof. reflexivity. Qed.

(** The items of the new order give back what the cart lines took. *)
Lemma items_give_back db db1 id cis :
  (∀ v, is_Some (variants db1 !! v) ↔ is_Some (variants db !! v)) →
  Forall lineOk (loadCartItem db <$> cis) →
  let items := loadOrderItem db1
                 <$> (set_oi_orderId id
                        <$> lineItems (loadCartItem db <$> cis)) in
  (∀ p, toProductStock items p = taken db cis (inl p))
  ∧ (∀ v, toVariantStock items v = taken db cis (inr v))
  ∧ (∀ p, offSoldCount items p = sold cis p).
Proof.
  intros Hdom. induction cis as [|ci cis IH]; intros Hok items; [done|].
  cbn [fmap list_fmap] in Hok. apply Forall_cons_iff in Hok as [Hci Hok].
  destruct (IH Hok) as (IHp & IHv & IHs).
  apply lineOk_inv in Hci as (p0 & Hp0 & _).
  subst items. cbn [fmap list_fmap]. rewrite (lineItems_cons_ok _ _ _ Hp0).
  cbn [fmap list_fmap].
  split; [|split]; intros k.
  - rewrite toProductStock_cons, taken_cons. f_equal; [|apply IHp].
    cbn [loadOrderItem loi_variant loi_item set_oi_orderId oi_variantId
         oi_productId oi_quantity orderItem lci_item loadCartItem].
    apply (f_equal (λ b : bool, if b then _ else 0)). apply bool_decide_ext.
    unfold cartTarget, target. destruct (ci_variantId ci) as [w|]; cbn.
    + destruct (decide (is_Some (variants db !! w))) as [Hw|Hw].
      * rewrite (bool_decide_eq_true_2 _ Hw).
        apply Hdom in Hw as [x Hx]. rewrite Hx. split; [by intros [? _]|done].
      * rewrite (bool_decide_eq_false_2 _ Hw).
        assert (variants db1 !! w = None) as ->.
        { apply eq_None_not_Some. by rewrite Hdom. }
        split; [by intros [_ ->]|by intros [= ->]].
    + split; [by intros [_ ->]|by intros [= ->]].
  - rewrite toVariantStock_cons, taken_cons. f_equal; [|apply IHv].
    cbn [loadOrderItem loi_variant loi_item set_oi_orderId oi_variantId
         oi_productId oi_quantity orderItem lci_item loadCartItem].
    apply (f_equal (λ b : bool, if b then _ else 0)). apply bool_decide_ext.
    unfold cartTarget, target. destruct (ci_variantId ci) as [w|]; cbn.
    + destruct (decide (is_Some (variants db !! w))) as [Hw|Hw].
      * rewrite (bool_decide_eq_true_2 _ Hw).
        apply Hdom in Hw as [x Hx]. rewrite Hx.
        split; [by intros [_ [= ->]]|by intros [= ->]].
      * rewrite (bool_decide_eq_false_2 _ Hw).
        assert (variants db1 !! w = None) as ->.
        { apply eq_None_not_Some. by rewrite Hdom. }
        split; [by intros [? _]|done].
    + split; [by intros [? _]|done].
  - rewrite offSoldCount_cons, sold_cons. f_equal; apply IHs.
Qed.

End RoundTrip.

(** X5: a checkout immediately followed by the cancellation of the new
    order puts every product and variant row back exactly as it was (stock
    and sold count included); the order stays, as CANCELLED, and the cart
    is not refilled. *)
Theorem cancel_undoes_create configService env env' db userId dto reason :
  Checkout.ready env userId db →
  Forall (λ oi, oi_orderId oi ≠ env_orderId env) (orderItems db) →
  ∃ lo db1 lo' db2,
    OrdersService.create configService env None db userId dto = (inr lo, db1)
    ∧ OrdersService.cancel env' None db1 userId (env_orderId env) reason
      = (inr lo', db2)
    ∧ products db2 = products db
    ∧ variants db2 = variants db
    ∧ o_status (OrdersService.lo_order lo') = CANCELLED
    ∧ orders db2 !! env_orderId env = Some (OrdersService.lo_order lo')
    ∧ OrdersService.findCartItems userId db2 = [].
Proof.
  intros Hready Hstale.
  pose proof Hready as (_ & Hok & _ & _).
  set (db1 := Checkout.effect configService env userId dto db).
  set (row := Checkout.orderRow configService env userId dto
                (Checkout.lineSubtotal 0%Qc
                   (OrdersService.findCartItems userId db))).
  pose proof (findOne_effect configService env userId dto db) as Hfind.
  fold db1 row in Hfind.
  set (order := OrdersService.loadOrder db1 (env_orderId env) row).
  fold order in Hfind.
  assert (o_status (OrdersService.lo_order order) ∈ [PENDING; CONFIRMED])
    as Hst by (cbn; left).
  exists order, db1,
    (OrdersService.loadOrder (Cancellation.effect env' order reason db1)
       (env_orderId env)
       (Cancellation.cancelledOrder env' reason (OrdersService.lo_order order))),
    (Cancellation.effect env' order reason db1).
  split; [by rewrite create_run by done|].
  split; [by rewrite (cancel_run env' None db1 userId (env_orderId env) reason
                        _ Hfind Hst)|].
  destruct (effect_frame env' order reason db1) as (Hcart & _ & _ & Hord).
  destruct (effect_products env' order reason db1) as (Hprod & Hvar & _).
  set (cis := filter (λ ci, ci_userId ci = userId) (cartItems db)).
  assert (OrdersService.lo_items order
          = OrdersService.loadOrderItem db1
              <$> (OrdersService.set_oi_orderId (env_orderId env)
                     <$> Checkout.lineItems
                           (OrdersService.loadCartItem db <$> cis)))
    as Hitems.
  { unfold order, OrdersService.loadOrder. cbn [OrdersService.lo_items].
    f_equal. unfold db1, Checkout.effect. cbn [orderItems].
    rewrite list.filter_app. rewrite (filter_none _ _ Hstale). cbn [app].
    apply filter_all. apply list.Forall_forall. intros oi Hoi.
    apply list_elem_of_fmap in Hoi as (i & -> & _). done. }
  assert (∀ t, Inventory.targetStock db1 t
               = (λ s, s - Inventory.taken db cis t)
                 <$> Inventory.targetStock db t) as Hstock.
  { intros t. etrans; [|apply (targetStock_linesEffect db cis db t)].
    by destruct t. }
  assert (∀ v, is_Some (variants db1 !! v) ↔ is_Some (variants db !! v))
    as Hdom.
  { apply (variants_dom_of_stock db db1
             (λ v s, s - Inventory.taken db cis (inr v))).
    intros v. apply (Hstock (inr v)). }
  destruct (items_give_back db db1 (env_orderId env) cis Hdom Hok)
    as (Hgp & Hgv & Hgs).
  rewrite <-Hitems in Hgp, Hgv, Hgs.
  split; [|split; [|split; [|split]]].
  - rewrite Hprod. apply map_eq. intros k. apply product_by_columns.
    + change (productStock (foldl Cancellation.itemEffect db1
                              (OrdersService.lo_items order)) k
              = productStock db k).
      rewrite productStock_items, Hgp.
      change (productStock db1 k) with (Inventory.targetStock db1 (inl k)).
      rewrite Hstock. cbn. destruct (productStock db k); cbn; f_equal; lia.
    + change (soldCount (foldl Cancellation.itemEffect db1
                           (OrdersService.lo_items order)) k
              = soldCount db k).
      rewrite soldCount_items, Hgs.
      assert (soldCount db1 k
              = (λ s, s + Ledger.sold cis k) <$> soldCount db k) as ->.
      { apply (soldCount_linesEffect db cis db k). }
      destruct (soldCount db k); cbn; f_equal; lia.
    + destruct (otherColumns_items (OrdersService.lo_items order) db1 k)
        as [-> _].
      apply (otherColumns_linesEffect
               (OrdersService.findCartItems userId db) db k).
  - rewrite Hvar. apply map_eq. intros k. apply variant_by_columns.
    + change (variantStock (foldl Cancellation.itemEffect db1
                              (OrdersService.lo_items order)) k
              = variantStock db k).
      rewrite variantStock_items, Hgv.
      change (variantStock db1 k) with (Inventory.targetStock db1 (inr k)).
      rewrite Hstock. cbn. destruct (variantStock db k); cbn; f_equal; lia.
    + destruct (otherColumns_items (OrdersService.lo_items order) db1 k)
        as [_ ->].
      apply (otherColumns_linesEffect
               (OrdersService.findCartItems userId db) db k).
  - reflexivity.
  - rewrite Hord. cbn [OrdersService.lo_id order OrdersService.loadOrder].
    by rewrite lookup_insert_eq.
  - unfold OrdersService.findCartItems. rewrite Hcart.
    unfold db1, Checkout.effect. cbn [cartItems].
    rewrite (filter_none (λ ci, ci_userId ci = userId)); [done|].
    apply list.Forall_forall. intros ci Hci.
    apply list_elem_of_filter in Hci as [Hne _]. done.
Qed.

Lemma cancel_undoes_create_witness :
  Checkout.ready Samples.env "user-123" Samples.db_cart4
  ∧ ∃ lo db1 lo' db2,
    OrdersService.create ∅ Samples.env None Samples.db_cart4 "user-123"
      Samples.dto = (inr lo, db1)
    ∧ OrdersService.cancel Samples.env None db1 "user-123" "order-123" None
      = (inr lo', db2)
    ∧ productStock db1 "prod-1" = Some 6
    ∧ products db2 = products Samples.db_cart4.
Proof.
  assert (Checkout.ready Samples.env "user-123" Samples.db_cart4) as Hready
    by (by apply ready_by_computation).
  split; [exact Hready|].
  destruct (cancel_undoes_create ∅ Samples.env Samples.env Samples.db_cart4
              "user-123" Samples.dto None Hready)
    as (lo & db1 & lo' & db2 & Hcreate & Hcancel & Hprod & _);
    [constructor|].
  exists lo, db1, lo', db2. split; [exact Hcreate|].
  split; [exact Hcancel|]. split; [|exact Hprod].
  rewrite create_run in Hcreate by exact Hready.
  injection Hcreate as _ <-. reflexivity.
Defined.

(* ===================================================================== *)
(** * More on cancel and create *)
(* ===================================================================== *)

Section CancelMore.
Import OrdersService.

Lemma findOne_inl db orderId userId e :
  findOne db orderId userId = inl e → e = OrderNotFound.
Proof.
  unfold findOne. destruct (orders db !! orderId); [|by intros [= <-]].
  destruct (_ && _); [by intros [= <-]|done].
Qed.

Lemma lineSubtotal_sumTotals lines : ∀ s,
  Checkout.lineSubtotal s lines
  = (s + Ledger.sumTotals (Checkout.lineItems lines))%Qc.
Proof.
  induction lines as [|l lines IH]; intros s.
  - cbn. ring.
  - change (Checkout.lineSubtotal s (l :: lines))
      with (Checkout.lineSubtotal
              (match lci_product l with
               | Some p => (s + itemTotal l p)%Qc
               | None => s
               end) lines).
    rewrite IH. unfold Checkout.lineItems. cbn [omap list_omap].
    destruct (lci_product l) as [p|]; cbn [fmap option_fmap option_map];
      [|done].
    cbn [Ledger.sumTotals foldr orderItem oi_total].
    fold (Ledger.sumTotals (omap (λ l, orderItem l <$> lci_product l) lines)).
    ring.
Qed.

Lemma sumTotals_set_oi_orderId id items :
  Ledger.sumTotals (set_oi_orderId id <$> items) = Ledger.sumTotals items.
Proof.
  unfold Ledger.sumTotals. induction items as [|i items IH]; [done|].
  rewrite fmap_cons. cbn [foldr]. by rewrite IH.
Qed.

Lemma lineSubtotal_runningTotal id lines : ∀ s,
  Checkout.lineSubtotal s lines
  = Ledger.runningTotal s (set_oi_orderId id <$> Checkout.lineItems lines).
Proof.
  unfold Checkout.lineSubtotal, Ledger.runningTotal, Checkout.lineItems.
  induction lines as [|l lines IH]; intros s; [done|].
  cbn [foldl omap list_omap].
  destruct (lci_product l) as [p|]; cbn [fmap option_fmap option_map];
    [|by apply IH].
  rewrite fmap_cons. cbn [foldl]. by rewrite IH.
Qed.

Lemma lineItems_length lines :
  Forall Checkout.lineOk lines →
  length (Checkout.lineItems lines) = length lines.
Proof.
  induction 1 as [|l lines Hl _ IH]; [done|].
  apply lineOk_inv in Hl as (p & Hp & _).
  rewrite (lineItems_cons_ok _ _ _ Hp). cbn. by rewrite IH.
Qed.

Lemma lineItems_rows lines :
  Forall (λ i, oi_total i = (oi_unitPrice i * Qc_of_Z (oi_quantity i))%Qc)
         (Checkout.lineItems lines).
Proof.
  induction lines as [|l lines IH]; [constructor|].
  unfold Checkout.lineItems. cbn [omap list_omap].
  destruct (lci_product l) as [p|]; cbn [fmap option_fmap option_map];
    [|exact IH].
  constructor; [reflexivity|exact IH].
Qed.

End CancelMore.

(** X6: an order is cancelled at most once.  After a successful [cancel],
    and whatever checkouts, cancellations and status updates of either
    entry point ([OrdersService.updateStatus],
    [AdminService.updateOrderStatus]) run in between, with or without
    storage faults, every further [cancel] of that order, by anybody and
    with any reason, throws 'Order not found' or 'Order cannot be
    cancelled' and leaves all tables as they are: the stock is not given
    back twice.  The order is stored CANCELLED by the first call and is
    still CANCELLED at the later one.  The payment callbacks of
    [PaymentsService], which write an order's status without consulting
    the transition table, are not among the operations considered. *)
Theorem cancel_only_once env fault db userId orderId reason lo db1 ops
    env2 fault2 userId2 reason2 :
  OrdersService.cancel env fault db userId orderId reason = (inr lo, db1) →
  Lifecycle.statusOf db1 orderId = Some CANCELLED
  ∧ Lifecycle.statusOf (foldl Lifecycle.apply db1 ops) orderId
    = Some CANCELLED
  ∧ ∃ e, OrdersService.cancel env2 fault2 (foldl Lifecycle.apply db1 ops)
           userId2 orderId reason2
         = (inl e, foldl Lifecycle.apply db1 ops)
         ∧ (e = OrderNotFound ∨ e = OrderNotCancellable).
Proof.
  intros Hfirst.
  destruct (cancel_cases env fault db userId orderId reason)
    as [[e He]|(order & lo1 & Hfind & Hst & Hrun)]; [congruence|].
  rewrite Hrun in Hfirst. injection Hfirst as _ <-.
  destruct (effect_frame env order reason db) as (_ & _ & _ & Hord).
  apply findOne_inr in Hfind as (o & Ho & ->).
  cbn [OrdersService.lo_id OrdersService.loadOrder OrdersService.lo_order]
    in *.
  set (db1 := Cancellation.effect env _ reason db) in *.
  assert (Lifecycle.statusOf db1 orderId = Some CANCELLED) as Hcancelled.
  { unfold Lifecycle.statusOf. by rewrite Hord, lookup_insert_eq. }
  pose proof (final_status_kept db1 orderId CANCELLED ops Hcancelled eq_refl)
    as Hlater.
  split; [exact Hcancelled|]. split; [exact Hlater|].
  set (db2 := foldl Lifecycle.apply db1 ops) in *.
  unfold OrdersService.cancel.
  destruct (OrdersService.findOne db2 orderId (Some userId2))
    as [e|order2] eqn:Hfind2.
  - apply findOne_inl in Hfind2 as ->. eauto.
  - apply findOne_inr in Hfind2 as (o2 & Ho2 & ->).
    unfold Lifecycle.statusOf in Hlater. rewrite Ho2 in Hlater.
    injection Hlater as Hst2.
    cbn [OrdersService.lo_order OrdersService.loadOrder]. rewrite Hst2.
    rewrite bool_decide_eq_false_2; [cbn; eauto|].
    intros Hin. apply list_elem_of_In in Hin. cbn in Hin.
    destruct Hin as [?|[?|[]]]; discriminate.
Qed.

Lemma cancel_only_once_witness :
  ∃ lo db1,
    OrdersService.cancel Samples.env None Samples.db_placed "user-123"
      "order-1" None = (inr lo, db1)
    ∧ productStock db1 "prod-1" = Some 10
    ∧ ∃ e, OrdersService.cancel Samples.env None
             (foldl Lifecycle.apply db1
                [Lifecycle.UpdateStatus Samples.env "order-1" CONFIRMED None;
                 Lifecycle.AdminUpdateOrderStatus "order-1" PENDING])
             "user-123" "order-1" (Some "again")
           = (inl e,
              foldl Lifecycle.apply db1
                [Lifecycle.UpdateStatus Samples.env "order-1" CONFIRMED None;
                 Lifecycle.AdminUpdateOrderStatus "order-1" PENDING])
           ∧ (e = OrderNotFound ∨ e = OrderNotCancellable).
Proof.
  assert (o_status (OrdersService.lo_order
            (OrdersService.loadOrder Samples.db_placed "order-1"
               (Samples.order_in PENDING))) ∈ [PENDING; CONFIRMED]) as Hin
    by (cbn; left).
  pose proof (cancel_run Samples.env None Samples.db_placed "user-123"
                "order-1" None _ eq_refl Hin) as Hrun.
  cbn [enough] in Hrun.
  eexists _, _. split; [exact Hrun|]. split; [reflexivity|].
  exact (proj2 (proj2 (cancel_only_once _ _ _ _ _ _ _ _
           [Lifecycle.UpdateStatus Samples.env "order-1" CONFIRMED None;
            Lifecycle.AdminUpdateOrderStatus "order-1" PENDING]
           Samples.env None "user-123" (Some "again") Hrun))).
Defined.

(** X7: an order is hidden from other users.  For a non-empty [userId]
    that is not the order's owner, [findOne] throws 'Order not found' and
    [cancel] throws the same and changes nothing, whatever the status of
    the order; without [userId] (the admin routes) [findOne] returns the
    order. *)
Theorem order_hidden_from_other_users db orderId userId o :
  orders db !! orderId = Some o →
  truthy userId = true →
  o_userId o ≠ userId →
  OrdersService.findOne db orderId (Some userId) = inl OrderNotFound
  ∧ (∀ env fault reason,
       OrdersService.cancel env fault db userId orderId reason
       = (inl OrderNotFound, db))
  ∧ OrdersService.findOne db orderId None
    = inr (OrdersService.loadOrder db orderId o).
Proof.
  intros Ho Huser Hother.
  assert (OrdersService.findOne db orderId (Some userId) = inl OrderNotFound)
    as Hfind.
  { unfold OrdersService.findOne. rewrite Ho. cbn [truthy_opt].
    rewrite Huser. rewrite bool_decide_eq_false_2 by congruence. done. }
  split; [exact Hfind|]. split.
  - intros env fault reason. unfold OrdersService.cancel. by rewrite Hfind.
  - unfold OrdersService.findOne. by rewrite Ho.
Qed.

Lemma order_hidden_from_other_users_witness :
  orders Samples.db_placed !! "order-1" = Some (Samples.order_in PENDING)
  ∧ OrdersService.findOne Samples.db_placed "order-1" (Some "user-456")
    = inl OrderNotFound
  ∧ OrdersService.cancel Samples.env None Samples.db_placed "user-456"
      "order-1" None = (inl OrderNotFound, Samples.db_placed).
Proof.
  assert (orders Samples.db_placed !! "order-1"
          = Some (Samples.order_in PENDING)) as Ho by reflexivity.
  split; [exact Ho|].
  destruct (order_hidden_from_other_users Samples.db_placed "order-1"
              "user-456" _ Ho eq_refl) as (Hfind & Hcancel & _).
  - cbn. discriminate.
  - split; [exact Hfind|apply Hcancel].
Defined.

(** X8: what a checkout that meets its preconditions writes, absent a
    storage fault: the caller's cart lines are deleted and nobody else's;
    one order row (PENDING, owned by the caller) is added under the new id
    and no other order row changes; one PENDING payment for that order, of
    the order's total, is appended; one order item per cart line is
    appended; the coupons are untouched; and a second checkout right after
    throws 'Cart is empty' and changes nothing. *)
Theorem create_success configService env db userId dto :
  Checkout.ready env userId db →
  ∃ lo db',
    OrdersService.create configService env None db userId dto = (inr lo, db')
    ∧ cartItems db' = filter (λ ci, ci_userId ci ≠ userId) (cartItems db)
    ∧ OrdersService.findCartItems userId db' = []
    ∧ orders db' = <[env_orderId env := OrdersService.lo_order lo]> (orders db)
    ∧ o_status (OrdersService.lo_order lo) = PENDING
    ∧ o_userId (OrdersService.lo_order lo) = userId
    ∧ (∃ p, payments db' = payments db ++ [p]
            ∧ pay_orderId p = env_orderId env
            ∧ pay_amount p = o_total (OrdersService.lo_order lo)
            ∧ pay_paymentStatus p = PAY_PENDING)
    ∧ (∃ items, orderItems db' = orderItems db ++ items
                ∧ length items
                  = length (OrdersService.findCartItems userId db)
                ∧ Forall (λ i, oi_orderId i = env_orderId env) items)
    ∧ coupons db' = coupons db
    ∧ ∀ configService2 env2 dto2,
        OrdersService.create configService2 env2 None db' userId dto2
        = (inl CartIsEmpty, db').
Proof.
  intros Hready. pose proof Hready as (_ & Hok & _ & _).
  rewrite create_run by done. cbn [enough].
  eexists _, _. split; [reflexivity|].
  cbn [OrdersService.lo_order OrdersService.loadOrder].
  assert (OrdersService.findCartItems userId
            (Checkout.effect configService env userId dto db) = []) as Hempty.
  { unfold OrdersService.findCartItems, Checkout.effect. cbn [cartItems].
    rewrite (filter_none (λ ci, ci_userId ci = userId)); [done|].
    apply list.Forall_forall. intros ci Hci.
    apply list_elem_of_filter in Hci as [Hne _]. done. }
  split; [reflexivity|]. split; [exact Hempty|].
  split; [reflexivity|]. split; [reflexivity|]. split; [reflexivity|].
  split; [eexists; split; [reflexivity|]; by repeat split|].
  split.
  - eexists. split; [reflexivity|]. split.
    + rewrite length_fmap. by apply lineItems_length.
    + apply list.Forall_forall. intros oi Hoi.
      apply list_elem_of_fmap in Hoi as (i & -> & _). done.
  - split; [reflexivity|]. intros cfg2 env2 dto2.
    by apply create_empty_cart.
Qed.

Lemma create_success_witness :
  Checkout.ready Samples.env "user-123" Samples.db_cart4
  ∧ ∃ lo db',
    OrdersService.create ∅ Samples.env None Samples.db_cart4 "user-123"
      Samples.dto = (inr lo, db')
    ∧ cartItems db' = []
    ∧ OrdersService.create ∅ Samples.env None db' "user-123" Samples.dto
      = (inl CartIsEmpty, db').
Proof.
  assert (Checkout.ready Samples.env "user-123" Samples.db_cart4) as Hready
    by (by apply ready_by_computation).
  split; [exact Hready|].
  destruct (create_success ∅ Samples.env Samples.db_cart4 "user-123"
              Samples.dto Hready)
    as (lo & db' & Hrun & Hcart & _ & _ & _ & _ & _ & _ & _ & Hagain).
  exists lo, db'. split; [exact Hrun|]. split; [|apply Hagain].
  rewrite Hcart. reflexivity.
Defined.

(** X9: the amounts of a new order add up.  The order row stored by a
    checkout, which is the one returned, has as [subtotal] the [total]
    column of the order items written by that checkout added up from 0 in
    the order of the items, and a discount of 0; each item's total is its
    unit price times its quantity. *)
Theorem create_amounts_add_up configService env db userId dto :
  Checkout.ready env userId db →
  ∃ lo db' items,
    OrdersService.create configService env None db userId dto = (inr lo, db')
    ∧ orderItems db' = orderItems db ++ items
    ∧ orders db' !! env_orderId env = Some (OrdersService.lo_order lo)
    ∧ Forall (λ i, oi_orderId i = env_orderId env) items
    ∧ o_subtotal (OrdersService.lo_order lo) = Ledger.runningTotal 0%Qc items
    ∧ Forall (λ i, oi_total i
                   = (oi_unitPrice i * Qc_of_Z (oi_quantity i))%Qc) items
    ∧ o_discount (OrdersService.lo_order lo) = 0%Qc.
Proof.
  intros Hready. rewrite create_run by done. cbn [enough].
  eexists _, _, _. split; [reflexivity|].
  cbn [OrdersService.lo_order OrdersService.loadOrder].
  split; [reflexivity|].
  split; [unfold Checkout.effect; cbn [orders]; by rewrite lookup_insert_eq|].
  split; [|split; [|split; [|reflexivity]]].
  - apply list.Forall_forall. intros oi Hoi.
    by apply list_elem_of_fmap in Hoi as (i & -> & Hi).
  - cbn [Checkout.orderRow o_subtotal].
    apply lineSubtotal_runningTotal.
  - apply list.Forall_forall. intros oi Hoi.
    apply list_elem_of_fmap in Hoi as (i & -> & Hi).
    exact (proj1 (list.Forall_forall _ _) (lineItems_rows _) i Hi).
Qed.

Lemma create_amounts_add_up_witness :
  Checkout.ready Samples.env "user-123" Samples.db_cart4
  ∧ ∃ lo db' items,
    OrdersService.create ∅ Samples.env None Samples.db_cart4 "user-123"
      Samples.dto = (inr lo, db')
    ∧ orderItems db' = items
    ∧ o_subtotal (OrdersService.lo_order lo) = Ledger.runningTotal 0%Qc items
    ∧ o_subtotal (OrdersService.lo_order lo) = Qc_of_Z 100.
Proof.
  assert (Checkout.ready Samples.env "user-123" Samples.db_cart4) as Hready
    by (by apply ready_by_computation).
  split; [exact Hready|].
  destruct (create_amounts_add_up ∅ Samples.env Samples.db_cart4 "user-123"
              Samples.dto Hready)
    as (lo & db' & items & Hrun & Hitems & _ & _ & Hsum & _).
  exists lo, db', items. split; [exact Hrun|]. split; [exact Hitems|].
  split; [exact Hsum|].
  rewrite create_run in Hrun by exact Hready. cbn [enough] in Hrun.
  injection Hrun as <- _. apply Qc_is_canon. reflexivity.
Defined.

(* ===================================================================== *)
(** * The cart: validation before checkout *)
(* ===================================================================== *)

Section CartValidation.
Import OrdersService Checkout Cart.

Lemma validateLine_ok acc l : lineOk l → validateLine acc l = acc.
Proof.
  intros Hok. apply lineOk_inv in Hok as (p & Hp & Hact & Hq).
  unfold validateLine. rewrite Hp.
  rewrite bool_decide_eq_false_2 by (by intros ?).
  unfold availableStock in Hq. unfold stockOf.
  rewrite bool_decide_eq_false_2; [done|]. destruct (lci_variant l); lia.
Qed.

Lemma validateLine_bad acc l :
  ¬ lineOk l → ∃ x, validateLine acc l = acc ++ [x].
Proof.
  intros Hbad. unfold validateLine, lineOk in *.
  destruct (lci_product l) as [p|]; [|eauto].
  case_bool_decide as Hact; [eauto|].
  case_bool_decide as Hq; [eauto|]. exfalso. apply Hbad.
  split; [by destruct (decide (p_status p = ACTIVE))|].
  unfold availableStock. unfold stockOf in Hq. destruct (lci_variant l); lia.
Qed.

Lemma validate_grows lines : ∀ acc,
  ∃ more, foldl validateLine acc lines = acc ++ more
          ∧ (more = [] ↔ Forall lineOk lines).
Proof.
  induction lines as [|l lines IH]; intros acc.
  - exists []. cbn. by rewrite app_nil_r.
  - cbn [foldl]. destruct (decide (lineOk l)) as [Hok|Hbad].
    + rewrite validateLine_ok by done.
      destruct (IH acc) as (more & -> & Hiff). exists more. split; [done|].
      rewrite Hiff. rewrite Forall_cons_iff. tauto.
    + destruct (validateLine_bad acc l Hbad) as (x & ->).
      destruct (IH (acc ++ [x])) as (more & -> & _).
      exists (x :: more). split; [by rewrite <-app_assoc|].
      split; [done|]. intros Hall. apply Forall_cons_iff in Hall. tauto.
Qed.

Lemma validate_valid db userId :
  (validateCartForCheckout db userId).1 = true
  ↔ Forall lineOk (findCartItems userId db).
Proof.
  unfold validateCartForCheckout. cbn [fst].
  destruct (validate_grows (findCartItems userId db) []) as (more & -> & <-).
  cbn [app]. rewrite bool_decide_eq_true. by destruct more.
Qed.

Lemma validate_items db userId :
  Forall lineOk (findCartItems userId db) →
  validateCartForCheckout db userId = (true, []).
Proof.
  intros Hall. unfold validateCartForCheckout.
  destruct (validate_grows (findCartItems userId db) []) as (more & -> & Hiff).
  apply Hiff in Hall as ->. done.
Qed.

Lemma removeInvalidLine_ok db rows r :
  lineOk (loadCartItem db r.2) → removeInvalidLine db rows r = rows.
Proof.
  intros Hok. apply lineOk_inv in Hok as (p & Hp & Hact & Hq).
  unfold removeInvalidLine. rewrite Hp.
  rewrite bool_decide_eq_false_2 by (by intros ?).
  unfold availableStock in Hq. unfold stockOf.
  cbn [lci_item loadCartItem] in Hq.
  rewrite bool_decide_eq_false_2; [done|].
  destruct (lci_variant (loadCartItem db r.2)); lia.
Qed.

Lemma removeInvalidLine_bad db rows r :
  ¬ lineOk (loadCartItem db r.2) →
  removeInvalidLine db rows r = removeRow r.1 rows.
Proof.
  intros Hbad. unfold removeInvalidLine, lineOk in *.
  destruct (lci_product (loadCartItem db r.2)) as [p|]; [|done].
  case_bool_decide as Hact; [done|].
  case_bool_decide as Hq; [done|]. exfalso. apply Hbad.
  split; [by destruct (decide (p_status p = ACTIVE))|].
  unfold availableStock. unfold stockOf in Hq.
  cbn [lci_item loadCartItem].
  destruct (lci_variant (loadCartItem db r.2)); lia.
Qed.

Lemma foldl_removeInvalidLine db examined : ∀ rows,
  foldl (removeInvalidLine db) rows examined
  = filter (λ r, r.1 ∉ (fst <$> filter
                          (λ r, ¬ lineOk (loadCartItem db r.2)) examined))
           rows.
Proof.
  induction examined as [|r examined IH]; intros rows.
  - cbn. symmetry. apply filter_all. apply list.Forall_forall.
    intros x _. apply not_elem_of_nil.
  - cbn [foldl]. rewrite IH. destruct (decide (lineOk (loadCartItem db r.2)))
      as [Hok|Hbad].
    + rewrite removeInvalidLine_ok by done.
      rewrite (filter_cons_False (λ r, ¬ lineOk (loadCartItem db r.2)))
        by tauto. done.
    + rewrite removeInvalidLine_bad by done.
      rewrite (filter_cons_True (λ r, ¬ lineOk (loadCartItem db r.2)))
        by done.
      unfold removeRow. rewrite list_filter_filter. apply list_filter_iff.
      intros x. rewrite fmap_cons, not_elem_of_cons. tauto.
Qed.

Lemma filter_ext_in {A} (P Q : A → Prop) `{∀ x, Decision (P x)}
    `{∀ x, Decision (Q x)} (l : list A) :
  (∀ x, x ∈ l → P x ↔ Q x) → filter P l = filter Q l.
Proof.
  induction l as [|x l IH]; intros Hext; [done|].
  rewrite !filter_cons.
  assert (P x ↔ Q x) as Hx by (apply Hext; left).
  rewrite IH by (intros y Hy; apply Hext; by right).
  destruct (decide (P x)), (decide (Q x)); tauto.
Qed.

Lemma filter_snd_imap {A} (Q : A → Prop) `{∀ x, Decision (Q x)}
    (l : list A) : ∀ k,
  (filter (λ r, Q r.2) (imap (λ i, pair (k + i)%nat) l)).*2 = filter Q l.
Proof.
  induction l as [|x l IH]; intros k; [done|].
  rewrite imap_cons, !filter_cons. cbn [snd].
  rewrite (imap_ext _ (λ i, pair (S k + i)%nat)) by (intros; cbn; f_equal; lia).
  destruct (decide (Q x)) as [Hx|Hx].
  - rewrite fmap_cons. cbn [snd]. by rewrite IH.
  - by rewrite IH.
Qed.

(** The table after [removeInvalidItems]: the rows of the user that fail a
    test are gone, all others are kept in order. *)
Lemma removeInvalidItems_rows db userId :
  cartItems (removeInvalidItems db userId)
  = filter (λ ci, ci_userId ci = userId → lineOk (loadCartItem db ci))
           (cartItems db).
Proof.
  unfold removeInvalidItems. cbn [cartItems set_cartItems].
  rewrite foldl_removeInvalidLine.
  rewrite <-(filter_snd_imap
               (λ ci, ci_userId ci = userId → lineOk (loadCartItem db ci))
               (cartItems db) 0).
  f_equal. apply filter_ext_in. intros r Hr.
  apply elem_of_lookup_imap in Hr as (i & ci & -> & Hi). cbn [fst snd].
  rewrite list_elem_of_fmap. split.
  - intros Hnot Hu. destruct (decide (lineOk (loadCartItem db ci)))
      as [|Hbad]; [done|].
    exfalso. apply Hnot. exists (i, ci). split; [done|].
    apply list_elem_of_filter. split; [done|].
    apply list_elem_of_filter. split; [done|].
    by apply elem_of_lookup_imap_2.
  - intros Hkeep ([j cj] & Hij & Hin). cbn in Hij. subst j.
    apply list_elem_of_filter in Hin as [Hbad Hin].
    apply list_elem_of_filter in Hin as [Hu Hin].
    apply elem_of_lookup_imap in Hin as (i' & ci' & [= -> ->] & Hi').
    rewrite Hi in Hi'. injection Hi' as <-. cbn in *. tauto.
Qed.

End CartValidation.

(** X10: [validateCartForCheckout] predicts the checkout.  For a non-empty
    cart and fresh order identifiers it answers [valid: true] exactly when
    [OrdersService.create] (without storage fault) succeeds; when it
    answers [valid: false] the checkout throws and changes nothing. *)
Theorem validateCartForCheckout_predicts_create configService env db userId
    dto :
  OrdersService.findCartItems userId db ≠ [] →
  orders db !! env_orderId env = None →
  map_Forall (λ _ o', o_orderNumber o' ≠ env_orderNumber env) (orders db) →
  ((Cart.validateCartForCheckout db userId).1 = true
   ↔ ∃ lo db', OrdersService.create configService env None db userId dto
               = (inr lo, db'))
  ∧ ((Cart.validateCartForCheckout db userId).1 = false
     → ∃ e, OrdersService.create configService env None db userId dto
            = (inl e, db)).
Proof.
  intros Hne Hid Hnum. split; [split|].
  - intros Hvalid. apply validate_valid in Hvalid.
    rewrite create_run by done. cbn [enough]. eauto.
  - intros (lo & db' & Hrun).
    destruct (create_cases configService env None db userId dto)
      as [[e He]|[(_ & Hok & _) _]]; [congruence|].
    by apply validate_valid.
  - intros Hinvalid. apply create_not_ready. intros (_ & Hok & _).
    apply validate_valid in Hok. congruence.
Qed.

Lemma validateCartForCheckout_predicts_create_witness :
  OrdersService.findCartItems "user-123" Samples.db_short ≠ []
  ∧ (Cart.validateCartForCheckout Samples.db_short "user-123").1 = false
  ∧ ∃ e, OrdersService.create ∅ Samples.env None Samples.db_short "user-123"
           Samples.dto = (inl e, Samples.db_short).
Proof.
  assert (OrdersService.findCartItems "user-123" Samples.db_short ≠ [])
    as Hne by (vm_compute; discriminate).
  split; [exact Hne|]. split; [reflexivity|].
  refine (proj2 (validateCartForCheckout_predicts_create ∅ Samples.env
                   Samples.db_short "user-123" Samples.dto Hne eq_refl _)
            eq_refl).
  apply map_Forall_empty.
Defined.

(** X11: [removeInvalidItems] deletes exactly the caller's lines that fail
    a checkout test (product missing or not active, or quantity above the
    stock); it keeps every other line, in order, and touches no other
    table.  Right after it [validateCartForCheckout] answers
    [{ valid: true, items: [] }]. *)
Theorem removeInvalidItems_makes_cart_valid db userId :
  cartItems (Cart.removeInvalidItems db userId)
  = filter (λ ci, ci_userId ci = userId
                  → Checkout.lineOk (OrdersService.loadCartItem db ci))
           (cartItems db)
  ∧ Cart.validateCartForCheckout (Cart.removeInvalidItems db userId) userId
    = (true, [])
  ∧ products (Cart.removeInvalidItems db userId) = products db
  ∧ variants (Cart.removeInvalidItems db userId) = variants db
  ∧ orders (Cart.removeInvalidItems db userId) = orders db
  ∧ ∀ other, other ≠ userId →
      OrdersService.findCartItems other (Cart.removeInvalidItems db userId)
      = OrdersService.findCartItems other db.
Proof.
  split; [apply removeInvalidItems_rows|]. split; [|split; [|split; [|split]]];
    try reflexivity.
  - apply validate_items. unfold OrdersService.findCartItems.
    rewrite removeInvalidItems_rows. apply list.Forall_forall.
    intros l Hl. apply list_elem_of_fmap in Hl as (ci & -> & Hci).
    apply list_elem_of_filter in Hci as [Hu Hci].
    apply list_elem_of_filter in Hci as [Hkeep _].
    exact (Hkeep Hu).
  - intros other Hother. unfold OrdersService.findCartItems.
    rewrite removeInvalidItems_rows. f_equal.
    rewrite list_filter_filter. apply list_filter_iff. intros ci.
    split; [tauto|]. intros Hu. split; [done|]. congruence.
Qed.

(* ===================================================================== *)
(** * The cart: adding a line *)
(* ===================================================================== *)

Section AddToCart.
Import OrdersService Checkout CartService Cart.

(** What the validation prefix of [addToCart] has established when it
    returns a stock. *)
Lemma availableStock_inr db dto avail ci :
  CartService.availableStock db dto = inr avail →
  variantId dto ≠ Some "" →
  ci_productId ci = productId dto →
  ci_variantId ci = variantId dto →
  ∃ p, products db !! productId dto = Some p
       ∧ p_status p = ACTIVE
       ∧ lci_product (loadCartItem db ci) = Some p
       ∧ OrdersService.availableStock (loadCartItem db ci) p = avail.
Proof.
  unfold CartService.availableStock. intros Hav Hvid Hp Hv.
  destruct (products db !! productId dto) as [p|] eqn:Hprod; [|done].
  case_bool_decide as Hact; [done|].
  exists p. split; [done|].
  split; [by destruct (decide (p_status p = ACTIVE))|].
  unfold loadCartItem, OrdersService.availableStock.
  cbn [lci_product lci_variant]. rewrite Hp, Hv, Hprod. split; [done|].
  destruct (variantId dto) as [id|]; cbn [mbind option_bind].
  - assert (truthy id = true) as Hid.
    { unfold truthy. apply bool_decide_eq_true_2. congruence. }
    rewrite Hid in Hav. unfold findVariant in Hav.
    destruct (variants db !! id) as [v|]; [|done].
    destruct (_ && _); [|done]. by injection Hav as <-.
  - by injection Hav as <-.
Qed.

(** The variant column of the line that a successful [addToCart] returns
    is the requested one when a variant is requested, or when the user has
    no line with a variant for the product. *)
Lemma addToCart_variantId pick db userId dto item db' :
  addToCart pick db userId dto = (inr item, db') →
  (variantId dto = None →
   Forall (λ ci, ci_userId ci = userId → ci_productId ci = productId dto →
                 ci_variantId ci = None) (cartItems db)) →
  ci_variantId item = variantId dto.
Proof.
  intros Hrun Hplain.
  apply addToCart_inr in Hrun as (avail & _ & _ & _ & _ & Hv & Hcase).
  destruct (variantId dto) as [v|] eqn:Hvid; [exact Hv|].
  specialize (Hplain eq_refl).
  destruct Hcase as [(i & existing & Hfind & -> & _)|(_ & -> & _)]; [|done].
  apply findCartItem_Some in Hfind as (Hi & Hu & Hp & _).
  apply list_elem_of_lookup_2 in Hi.
  exact (proj1 (list.Forall_forall _ _) Hplain existing Hi Hu Hp).
Qed.

End AddToCart.

(** X13: the stock test of [addToCart] is the one of the checkout, when
    the lookup of the existing line cannot land on a line of another
    variant: the request names a variant, or the user has no line with a
    variant for the product.  The line returned by a successful
    [addToCart] is then stored in the cart under the requested key and
    passes the tests that [OrdersService.create] applies to it: product
    present and ACTIVE, quantity within the stock of the variant, or of
    the product when there is no variant. *)
Theorem added_line_passes_checkout_tests pick db userId dto item db' :
  CartService.addToCart pick db userId dto = (inr item, db') →
  CartService.variantId dto ≠ Some "" →
  (CartService.variantId dto = None →
   Forall (λ ci, ci_userId ci = userId →
                 ci_productId ci = CartService.productId dto →
                 ci_variantId ci = None) (cartItems db)) →
  item ∈ cartItems db'
  ∧ Cart.key item
    = (userId, CartService.productId dto, CartService.variantId dto)
  ∧ Checkout.lineOk (OrdersService.loadCartItem db' item)
  ∧ products db' = products db
  ∧ variants db' = variants db.
Proof.
  intros Hrun Hvid Hplain.
  pose proof (addToCart_variantId _ _ _ _ _ _ Hrun Hplain) as Hv.
  apply addToCart_inr in Hrun as (avail & Hav & Hq & Hu & Hp & _ & Hcase).
  destruct (availableStock_inr db dto avail item Hav Hvid Hp Hv)
    as (p & Hprod & Hact & Hload & Hstock).
  assert (item ∈ cartItems db' ∧ products db' = products db
          ∧ variants db' = variants db) as (Hin & Hps & Hvs).
  { destruct Hcase as [(i & existing & Hfind & _ & ->)|(_ & _ & ->)];
      cbn [cartItems set_cartItems products variants].
    - apply findCartItem_Some in Hfind as (Hi & _).
      split; [|done]. apply (list_elem_of_lookup_2 _ i).
      apply list_lookup_insert_eq. by apply lookup_lt_Some in Hi.
    - split; [|done]. apply elem_of_app. right. by left. }
  split; [done|]. split; [unfold Cart.key; by rewrite Hu, Hp, Hv|].
  split; [|done].
  unfold Checkout.lineOk, OrdersService.loadCartItem in *.
  cbn [OrdersService.lci_product OrdersService.lci_item] in *.
  rewrite Hps, Hvs. rewrite Hload. split; [done|].
  unfold OrdersService.availableStock in *.
  cbn [OrdersService.lci_variant] in *. lia.
Qed.

Lemma added_line_passes_checkout_tests_witness :
  ∃ item db',
    CartService.addToCart 0 Samples.db_variant_and_plain "user-123"
      (CartService.mkAddToCartDto "prod-1" (Some "var-1") 5) = (inr item, db')
    ∧ item = Samples.line_variant 7
    ∧ cartItems db' = [Samples.line_variant 7; Samples.line_plain 1]
    ∧ Checkout.lineOk (OrdersService.loadCartItem db' item).
Proof.
  eexists _, _. split; [reflexivity|]. split; [reflexivity|].
  split; [reflexivity|].
  refine (proj1 (proj2 (proj2
    (added_line_passes_checkout_tests 0 Samples.db_variant_and_plain
       "user-123" (CartService.mkAddToCartDto "prod-1" (Some "var-1") 5)
       _ _ eq_refl _ _)))).
  - discriminate.
  - discriminate.
Defined.

(** X14: from an empty cart, [addToCart] followed by a checkout (fresh
    order identifiers, no storage fault) succeeds, and the stock counter of
    the line (the variant's, or the product's without variant) drops by the
    quantity that was added. *)
Theorem add_then_checkout pick db userId dto item db' configService env dto' :
  Cart.getCartItemCount db userId = 0%nat →
  CartService.addToCart pick db userId dto = (inr item, db') →
  CartService.variantId dto ≠ Some "" →
  orders db !! env_orderId env = None →
  map_Forall (λ _ o', o_orderNumber o' ≠ env_orderNumber env) (orders db) →
  ∃ lo db'',
    OrdersService.create configService env None db' userId dto'
    = (inr lo, db'')
    ∧ Inventory.targetStock db'' (Inventory.cartTarget db item)
      = (λ s, s - CartService.quantity dto)
        <$> Inventory.targetStock db (Inventory.cartTarget db item)
    ∧ OrdersService.findCartItems userId db'' = [].
Proof.
  intros Hcount Hrun Hvid Hid Hnum.
  unfold Cart.getCartItemCount in Hcount. apply nil_length_inv in Hcount.
  assert (ci_variantId item = CartService.variantId dto) as Hv.
  { apply (addToCart_variantId _ _ _ _ _ _ Hrun). intros _.
    apply list.Forall_forall. intros ci Hci Hu _.
    assert (ci ∈ filter (λ ci, ci_userId ci = userId) (cartItems db))
      as Hin by (by apply list_elem_of_filter).
    rewrite Hcount in Hin. by apply not_elem_of_nil in Hin. }
  apply addToCart_inr in Hrun as (avail & Hav & Hq & Hu & Hp & _ & Hcase).
  destruct (availableStock_inr db dto avail item Hav Hvid Hp Hv)
    as (p & Hprod & Hact & Hload & Hstock).
  destruct Hcase as [(i & existing & Hfind & _)|(_ & Hitem & ->)].
  { apply findCartItem_Some in Hfind as (Hi & Hu' & _).
    apply list_elem_of_lookup_2 in Hi.
    assert (existing ∈ filter (λ ci, ci_userId ci = userId) (cartItems db))
      as Hin by (by apply list_elem_of_filter).
    rewrite Hcount in Hin. by apply not_elem_of_nil in Hin. }
  set (db' := set_cartItems (λ l, l ++ [item]) db).
  assert (OrdersService.findCartItems userId db'
          = OrdersService.loadCartItem db <$> [item]) as Hlines.
  { unfold OrdersService.findCartItems, db'. cbn [cartItems set_cartItems].
    rewrite list.filter_app, Hcount. cbn [app].
    rewrite filter_cons_True by done. done. }
  assert (Checkout.ready env userId db') as Hready.
  { split; [by rewrite Hlines|]. split; [|done].
    rewrite Hlines. constructor; [|constructor].
    unfold Checkout.lineOk. rewrite Hload. split; [done|].
    change (ci_quantity item
            ≤ OrdersService.availableStock
                (OrdersService.loadCartItem db item) p).
    by rewrite Hstock. }
  rewrite create_run by done. cbn [enough]. eexists _, _.
  split; [reflexivity|]. split.
  - set (t := Inventory.cartTarget db item).
    assert (Inventory.targetStock
              (Checkout.effect configService env userId dto' db') t
            = Inventory.targetStock
                (Checkout.linesEffect (OrdersService.loadCartItem db <$> [item])
                   db') t) as ->.
    { unfold Checkout.effect. rewrite Hlines. by destruct t. }
    rewrite (targetStock_linesEffect db [item] db' t), taken_cons.
    fold t. rewrite bool_decide_eq_true_2 by done.
    assert (Inventory.targetStock db' t = Inventory.targetStock db t) as ->
      by (by destruct t).
    rewrite Hitem. cbn [ci_quantity Inventory.taken foldr].
    destruct (Inventory.targetStock db t); cbn; f_equal; lia.
  - unfold OrdersService.findCartItems, Checkout.effect. cbn [cartItems].
    rewrite (filter_none (λ ci, ci_userId ci = userId)); [done|].
    apply list.Forall_forall. intros ci Hci.
    apply list_elem_of_filter in Hci as [Hne _]. done.
Qed.

Lemma add_then_checkout_witness :
  ∃ item db' lo db'',
    CartService.addToCart 0
      (set_cartItems (λ _, []) Samples.db_cart4) "user-123"
      (CartService.mkAddToCartDto "prod-1" None 3) = (inr item, db')
    ∧ OrdersService.create ∅ Samples.env None db' "user-123" Samples.dto
      = (inr lo, db'')
    ∧ productStock db'' "prod-1" = Some (10 - 3).
Proof.
  assert (CartService.addToCart 0
            (set_cartItems (λ _, []) Samples.db_cart4) "user-123"
            (CartService.mkAddToCartDto "prod-1" None 3)
          = (inr (mkCartItem "user-123" "prod-1" None 3),
             set_cartItems (λ _, [mkCartItem "user-123" "prod-1" None 3])
               Samples.db_cart4)) as Hadd by reflexivity.
  destruct (add_then_checkout 0
              (set_cartItems (λ _, []) Samples.db_cart4) "user-123"
              (CartService.mkAddToCartDto "prod-1" None 3) _ _ ∅ Samples.env
              Samples.dto eq_refl Hadd) as (lo & db'' & Hrun & Hstock & _).
  - discriminate.
  - reflexivity.
  - apply map_Forall_empty.
  - eexists _, _, lo, db''. split; [exact Hadd|]. split; [exact Hrun|].
    exact Hstock.
Defined.

(* ===================================================================== *)
(** * The cart: changing and removing lines *)
(* ===================================================================== *)

Section CartLines.
Import OrdersService Checkout Cart.

Lemma filter_delete_other {A} (P : A → Prop) `{∀ x, Decision (P x)}
    (l : list A) : ∀ i x,
  l !! i = Some x → ¬ P x → filter P (delete i l) = filter P l.
Proof.
  induction l as [|y l IH]; intros i x Hi Hx; [done|].
  destruct i as [|i]; cbn in Hi.
  - injection Hi as ->. cbn [delete list_delete].
    by rewrite filter_cons_False.
  - change (delete (S i) (y :: l)) with (y :: delete i l).
    rewrite !filter_cons, (IH i x Hi Hx). done.
Qed.

Lemma filter_delete_length {A} (P : A → Prop) `{∀ x, Decision (P x)}
    (l : list A) : ∀ i x,
  l !! i = Some x → P x →
  (length (filter P (delete i l)) + 1 = length (filter P l))%nat.
Proof.
  induction l as [|y l IH]; intros i x Hi Hx; [done|].
  destruct i as [|i]; cbn in Hi.
  - injection Hi as ->. cbn [delete list_delete].
    rewrite filter_cons_True by done. cbn. lia.
  - change (delete (S i) (y :: l)) with (y :: delete i l).
    rewrite !filter_cons. specialize (IH i x Hi Hx).
    destruct (decide (P y)); cbn; lia.
Qed.

Lemma findByProduct_Some pick db userId productId i ci :
  findByProduct pick db userId productId = Some (i, ci) →
  cartItems db !! i = Some ci ∧ ci_userId ci = userId
  ∧ ci_productId ci = productId.
Proof.
  unfold findByProduct. intros Hfind. apply findOneOf_Some in Hfind.
  apply list_elem_of_filter in Hfind as [(Hu & Hp) Hin].
  apply elem_of_lookup_imap in Hin as (j & cj & [= -> ->] & Hj). done.
Qed.

Lemma findByProduct_None pick db userId productId :
  findByProduct pick db userId productId = None →
  Forall (λ ci, ¬ (ci_userId ci = userId ∧ ci_productId ci = productId))
         (cartItems db).
Proof.
  unfold findByProduct. intros Hfind. apply findOneOf_None in Hfind.
  apply list.Forall_forall. intros ci Hci Hm.
  apply list_elem_of_lookup in Hci as (i & Hi).
  assert ((i, ci) ∈ filter
            (λ ic, ci_userId ic.2 = userId ∧ ci_productId ic.2 = productId)
            (imap pair (cartItems db))) as Hin.
  { apply list_elem_of_filter. split; [done|].
    by apply elem_of_lookup_imap_2. }
  rewrite Hfind in Hin. by apply not_elem_of_nil in Hin.
Qed.

End CartLines.

(** X15: [updateCartItem] never adds, removes or re-keys a cart line and
    writes no other table.  Its lookup is on user and product alone: when
    the user has several lines for the product (different variants), the
    line it works on is the one the database returns.  Without such a line
    it throws 'Cart item not found'; when the quantity exceeds the stock
    of that line (variant?.stock ?? product?.stock ?? 0) it throws
    'Insufficient stock'; in both cases nothing changes.  Otherwise that
    line, and only it, gets the requested quantity, and, its product being
    ACTIVE, passes the tests of the checkout. *)
Theorem updateCartItem_outcome pick db userId productId quantity :
  Cart.key
    <$> cartItems (Cart.updateCartItem pick db userId productId quantity).2
  = Cart.key <$> cartItems db
  ∧ products (Cart.updateCartItem pick db userId productId quantity).2
    = products db
  ∧ variants (Cart.updateCartItem pick db userId productId quantity).2
    = variants db
  ∧ match Cart.updateCartItem pick db userId productId quantity with
    | (inl Cart.CartItemNotFound, db') =>
        db' = db
        ∧ Forall (λ ci, ¬ (ci_userId ci = userId ∧ ci_productId ci = productId))
                 (cartItems db)
    | (inl (Cart.InsufficientStockOnly available), db') =>
        db' = db ∧ available < quantity
        ∧ ∃ i old, cartItems db !! i = Some old
                   ∧ ci_userId old = userId ∧ ci_productId old = productId
                   ∧ available
                     = Cart.stockOrZero (OrdersService.loadCartItem db old)
    | (inr item, db') =>
        ∃ i old,
          cartItems db !! i = Some old
          ∧ ci_userId old = userId ∧ ci_productId old = productId
          ∧ item = mkCartItem userId productId (ci_variantId old) quantity
          ∧ cartItems db' !! i = Some item
          ∧ (∀ j, j ≠ i → cartItems db' !! j = cartItems db !! j)
          ∧ length (cartItems db') = length (cartItems db)
          ∧ quantity ≤ Cart.stockOrZero (OrdersService.loadCartItem db old)
          ∧ ∀ product, products db !! productId = Some product →
                       p_status product = ACTIVE →
                       Checkout.lineOk (OrdersService.loadCartItem db' item)
    end.
Proof.
  unfold Cart.updateCartItem.
  destruct (Cart.findByProduct pick db userId productId) as [[i old]|]
    eqn:Hfind.
  - pose proof (findByProduct_Some _ _ _ _ _ _ Hfind) as (Hi & Hu & Hp).
    case_bool_decide as Hq; cbn [snd].
    { split; [done|]. split; [done|]. split; [done|]. split; [done|].
      split; [lia|]. by exists i, old. }
    cbn [cartItems set_cartItems products variants].
    split; [|split; [done|split; [done|]]].
    + rewrite list_fmap_insert.
      change (Cart.key (set_ci_quantity quantity old)) with (Cart.key old).
      rewrite list_insert_id; [done|]. by rewrite list_lookup_fmap, Hi.
    + exists i, old. split; [done|]. split; [done|]. split; [done|].
      split; [unfold set_ci_quantity; by rewrite Hu, Hp|].
      split; [apply list_lookup_insert_eq; by apply lookup_lt_Some in Hi|].
      split; [intros j Hj; by apply list_lookup_insert_ne|].
      split; [apply length_insert|]. split; [lia|].
      intros product Hprod Hact. unfold Checkout.lineOk.
      unfold Cart.stockOrZero, OrdersService.loadCartItem in *.
      cbn [OrdersService.lci_product OrdersService.lci_variant
           OrdersService.lci_item set_ci_quantity ci_productId ci_variantId
           ci_quantity products variants set_cartItems] in *.
      rewrite Hp in *. rewrite Hprod in *. split; [done|].
      unfold OrdersService.availableStock.
      cbn [OrdersService.lci_variant].
      destruct (ci_variantId old ≫= λ v, variants db !! v); lia.
  - cbn [snd]. split; [done|]. split; [done|]. split; [done|].
    split; [done|]. by apply (findByProduct_None pick).
Qed.

(** X16: [removeFromCart] deletes exactly one cart line of the caller, a
    line for that product: the caller's line count drops by one and all
    other rows, the products and the variants are as before.  Its lookup
    is on user and product alone: when the user has several lines for the
    product, the line deleted is the one the database returns.  Without
    such a line it throws 'Cart item not found' and changes nothing. *)
Theorem removeFromCart_outcome pick db userId productId :
  match Cart.removeFromCart pick db userId productId with
  | (inr _, db') =>
      (Cart.getCartItemCount db' userId + 1
       = Cart.getCartItemCount db userId)%nat
      ∧ (∃ i ci, cartItems db !! i = Some ci
                 ∧ ci_userId ci = userId ∧ ci_productId ci = productId
                 ∧ cartItems db'
                   = take i (cartItems db) ++ drop (S i) (cartItems db))
      ∧ (∀ other, other ≠ userId →
           OrdersService.findCartItems other db'
           = OrdersService.findCartItems other db)
      ∧ products db' = products db ∧ variants db' = variants db
  | (inl e, db') =>
      e = Cart.CartItemNotFound ∧ db' = db
      ∧ Forall (λ ci, ¬ (ci_userId ci = userId ∧ ci_productId ci = productId))
               (cartItems db)
  end.
Proof.
  unfold Cart.removeFromCart.
  destruct (Cart.findByProduct pick db userId productId) as [[i ci]|]
    eqn:Hfind.
  - pose proof (findByProduct_Some _ _ _ _ _ _ Hfind) as (Hi & Hu & Hp).
    unfold Cart.getCartItemCount, OrdersService.findCartItems.
    cbn [cartItems set_cartItems products variants].
    split; [by apply (filter_delete_length _ _ i ci)|].
    split; [exists i, ci; by rewrite delete_take_drop|]. split; [|done].
    intros other Hother.
    rewrite (filter_delete_other _ _ i ci Hi) by congruence. done.
  - split; [done|]. split; [done|]. by apply (findByProduct_None pick).
Qed.

(** X17: [clearCart] empties the caller's cart and nobody else's.  On the
    cleared cart the summary shows no item, a subtotal of 0 and a total of
    10.00 (the shipping), [validateCartForCheckout] answers valid, and the
    checkout throws 'Cart is empty'. *)
Theorem clearCart_empties db userId :
  Cart.getCartItemCount (Cart.clearCart db userId) userId = 0%nat
  ∧ (∀ other, other ≠ userId →
       OrdersService.findCartItems other (Cart.clearCart db userId)
       = OrdersService.findCartItems other db)
  ∧ Cart.getCartSummary (Cart.clearCart db userId) userId
    = ([], Cart.mkSummary 0 0%Qc 0%Qc n10 n10)
  ∧ Cart.validateCartForCheckout (Cart.clearCart db userId) userId
    = (true, [])
  ∧ ∀ configService env dto,
      OrdersService.create configService env None (Cart.clearCart db userId)
        userId dto
      = (inl CartIsEmpty, Cart.clearCart db userId).
Proof.
  assert (filter (λ ci, ci_userId ci = userId)
                 (cartItems (Cart.clearCart db userId)) = []) as Hnone.
  { unfold Cart.clearCart. cbn [cartItems set_cartItems].
    apply filter_none. apply list.Forall_forall. intros ci Hci.
    apply list_elem_of_filter in Hci as [Hne _]. done. }
  assert (OrdersService.findCartItems userId (Cart.clearCart db userId) = [])
    as Hlines by (unfold OrdersService.findCartItems; by rewrite Hnone).
  split; [unfold Cart.getCartItemCount; by rewrite Hnone|].
  split; [|split; [|split]].
  - intros other Hother. unfold OrdersService.findCartItems, Cart.clearCart.
    cbn [cartItems set_cartItems]. f_equal.
    rewrite list_filter_filter. apply list_filter_iff. intros ci.
    split; [tauto|]. intros Hu. split; [done|]. congruence.
  - unfold Cart.getCartSummary, Cart.getCart. rewrite Hlines.
    cbn [reverse rev_append foldl Cart.r_validItems Cart.r_subtotal
         Cart.r_itemCount].
    f_equal. f_equal; apply Qc_is_canon; vm_compute; reflexivity.
  - unfold Cart.validateCartForCheckout. by rewrite Hlines.
  - intros configService env dto. by apply create_empty_cart.
Qed.

(* ===================================================================== *)
(** * The cart summary and the checkout *)
(* ===================================================================== *)

Section CartSummary.
Import OrdersService Checkout Cart Ledger.





End CartSummary.



(* ===================================================================== *)
(** * Coupons *)
(* ===================================================================== *)

Section CouponFacts.
Import CouponsService Coupons.
Variable toUpperCase : string → string.

Lemma Qc_mul_nonneg (a b : Qc) : (0 ≤ a → 0 ≤ b → 0 ≤ a * b)%Qc.
Proof.
  intros Ha Hb. replace 0%Qc with (0 * b)%Qc by ring.
  by apply Qcmult_le_compat_r.
Qed.

Lemma toUpperCase_ascii_idempotent s :
  toUpperCase_ascii (toUpperCase_ascii s) = toUpperCase_ascii s.
Proof.
  induction s as [|c s IH]; [done|]. cbn [toUpperCase_ascii]. rewrite IH.
  f_equal.
  destruct c as [[] [] [] [] [] [] [] []]; vm_compute; reflexivity.
Qed.

Lemma findOneByCode_Some db code id c :
  findOneByCode db code = Some (id, c) →
  coupons db !! id = Some c ∧ c_code c = code.
Proof.
  unfold findOneByCode. intros Hfind.
  destruct (list_find _ _) as [[i [id' c']]|] eqn:Hlist; [|done].
  injection Hfind as -> ->.
  apply list_find_Some in Hlist as (Hi & Hcode & _).
  apply list_elem_of_lookup_2 in Hi. by apply elem_of_map_to_list in Hi.
Qed.

Lemma findOneByCode_None db code :
  findOneByCode db code = None
  ↔ ∀ id c, coupons db !! id = Some c → c_code c ≠ code.
Proof.
  unfold findOneByCode. rewrite fmap_None, list_find_None.
  rewrite list.Forall_forall. split.
  - intros Hall id c Hc. apply (Hall (id, c)). by apply elem_of_map_to_list.
  - intros Hall [id c] Hin. apply elem_of_map_to_list in Hin.
    by apply (Hall id c).
Qed.

(** With unique codes the row found for a code is the row with that
    code. *)
Lemma findOneByCode_unique db id c :
  uniqueCodes db → coupons db !! id = Some c →
  findOneByCode db (c_code c) = Some (id, c).
Proof.
  intros Huniq Hc.
  destruct (findOneByCode db (c_code c)) as [[id' c']|] eqn:Hfind.
  - apply findOneByCode_Some in Hfind as (Hc' & Hcode).
    assert (id' = id) as -> by (by apply (Huniq id' id c' c)).
    congruence.
  - exfalso. by apply (proj1 (findOneByCode_None _ _) Hfind id c).
Qed.

(** What [findByCode] has checked when it returns a coupon. *)
Lemma findByCode_inr env db code id c :
  findByCode toUpperCase env db code = inr (id, c) →
  findOneByCode db (toUpperCase code) = Some (id, c)
  ∧ c_status c = COUPON_ACTIVE
  ∧ (∀ t, c_validFrom c = Some t → t ≤ env_now env)
  ∧ (∀ t, c_validUntil c = Some t → env_now env ≤ t)
  ∧ (c_maxUses c > 0 → c_usedCount c < c_maxUses c).
Proof.
  unfold findByCode.
  destruct (findOneByCode db (toUpperCase code)) as [[id' c']|]; [|done].
  case_bool_decide as Hst; [done|].
  destruct (match c_validFrom c' with Some _ => _ | None => _ end) eqn:Hfrom;
    [done|].
  destruct (match c_validUntil c' with Some _ => _ | None => _ end) eqn:Htil;
    [done|].
  destruct (bool_decide (c_maxUses c' > 0) && _) eqn:Hmax; [done|].
  intros [= -> ->]. split; [done|].
  split; [by destruct (decide (c_status c = COUPON_ACTIVE))|].
  split; [|split].
  - intros t Ht. rewrite Ht in Hfrom. apply bool_decide_eq_false in Hfrom. lia.
  - intros t Ht. rewrite Ht in Htil. apply bool_decide_eq_false in Htil. lia.
  - intros Hpos. rewrite (bool_decide_eq_true_2 _ Hpos) in Hmax.
    cbn in Hmax. apply bool_decide_eq_false in Hmax. lia.
Qed.

(** [findByCode] on a row that is found and passes the checks. *)
Lemma findByCode_accepts env db code id c :
  findOneByCode db (toUpperCase code) = Some (id, c) →
  c_status c = COUPON_ACTIVE →
  (∀ t, c_validFrom c = Some t → t ≤ env_now env) →
  (∀ t, c_validUntil c = Some t → env_now env ≤ t) →
  (c_maxUses c > 0 → c_usedCount c < c_maxUses c) →
  findByCode toUpperCase env db code = inr (id, c).
Proof.
  intros Hfind Hst Hfrom Htil Hmax. unfold findByCode. rewrite Hfind.
  rewrite bool_decide_eq_false_2 by (by intros ?).
  assert (match c_validFrom c with
          | Some validFrom => bool_decide (env_now env < validFrom)
          | None => false
          end = false) as ->.
  { destruct (c_validFrom c) as [t|]; [|done].
    apply bool_decide_eq_false_2. specialize (Hfrom t eq_refl). lia. }
  assert (match c_validUntil c with
          | Some validUntil => bool_decide (env_now env > validUntil)
          | None => false
          end = false) as ->.
  { destruct (c_validUntil c) as [t|]; [|done].
    apply bool_decide_eq_false_2. specialize (Htil t eq_refl). lia. }
  destruct (decide (c_maxUses c > 0)) as [Hpos|Hnpos].
  - rewrite (bool_decide_eq_true_2 _ Hpos).
    rewrite bool_decide_eq_false_2 by (specialize (Hmax Hpos); lia). done.
  - by rewrite (bool_decide_eq_false_2 _ Hnpos).
Qed.

Lemma incrementUsages_coupons n id db :
  coupons (incrementUsages n id db)
  = alter (set_c_usedCount (λ x, x + Z.of_nat n)) id (coupons db).
Proof.
  induction n as [|n IH].
  - cbn [incrementUsages]. apply map_eq. intros k.
    destruct (decide (id = k)) as [->|Hne];
      [rewrite lookup_alter_eq|by rewrite lookup_alter_ne].
    destruct (coupons db !! k) as [[]|]; [|done].
    cbn. unfold set_c_usedCount. cbn. do 2 f_equal. lia.
  - cbn [incrementUsages]. unfold incrementUsage at 1.
    cbn [coupons set_coupons].
    rewrite IH. apply map_eq. intros k.
    destruct (decide (id = k)) as [->|Hne];
      [rewrite !lookup_alter_eq|by rewrite !lookup_alter_ne].
    destruct (coupons db !! k) as [[]|]; [|done].
    cbn. unfold set_c_usedCount. cbn. do 2 f_equal. lia.
Qed.

Lemma uniqueCodes_alter db db' id f :
  coupons db' = alter (set_c_usedCount f) id (coupons db) →
  uniqueCodes db → uniqueCodes db'.
Proof.
  intros Hdb' Huniq i j ci cj Hi Hj Hcode. rewrite Hdb' in Hi, Hj.
  assert (∀ k ck, alter (set_c_usedCount f) id (coupons db) !! k = Some ck →
                  ∃ c0, coupons db !! k = Some c0 ∧ c_code c0 = c_code ck)
    as Hback.
  { intros k ck Hk. destruct (decide (id = k)) as [->|Hne].
    - rewrite lookup_alter_eq in Hk.
      apply fmap_Some in Hk as (c0 & Hc0 & ->). exists c0. by destruct c0.
    - rewrite lookup_alter_ne in Hk by done. eauto. }
  destruct (Hback _ _ Hi) as (ci0 & Hi0 & Hci).
  destruct (Hback _ _ Hj) as (cj0 & Hj0 & Hcj).
  apply (Huniq i j ci0 cj0 Hi0 Hj0). congruence.
Qed.

End CouponFacts.

(** X19: a coupon returned by [applyCoupon] is one the rules allow.  The
    coupon it names carries the upper-case form of the requested code, is
    ACTIVE, is within its validity window and below its usage limit, the
    subtotal reaches its minimum order amount, and it has no per-user
    limit: for a coupon with a positive [maxUsesPerUser] the count of the
    user's orders is a query that fails, so that [applyCoupon] throws.
    With a discount value and a subtotal that are not negative, the
    discount lies between 0 and the subtotal. *)
Theorem applyCoupon_sound toUpperCase env db code subtotal userId productIds
    categoryIds applied :
  CouponsService.applyCoupon toUpperCase env db code subtotal userId
    productIds categoryIds = inr applied →
  map_Forall (λ _ c, (0 ≤ c_discountValue c)%Qc) (coupons db) →
  (0 ≤ subtotal)%Qc →
  ∃ c, coupons db !! CouponsService.couponId applied = Some c
       ∧ c_code c = toUpperCase code
       ∧ c_status c = COUPON_ACTIVE
       ∧ (∀ t, c_validFrom c = Some t → t ≤ env_now env)
       ∧ (∀ t, c_validUntil c = Some t → env_now env ≤ t)
       ∧ (c_maxUses c > 0 → c_usedCount c < c_maxUses c)
       ∧ (c_minOrderAmount c ≤ subtotal)%Qc
       ∧ c_maxUsesPerUser c ≤ 0
       ∧ CouponsService.freeShipping applied = c_freeShipping c
       ∧ (0 ≤ CouponsService.discount applied)%Qc
       ∧ (CouponsService.discount applied ≤ subtotal)%Qc.
Proof.
  unfold CouponsService.applyCoupon. intros Hrun Hvalues Hsub.
  destruct (CouponsService.findByCode toUpperCase env db code)
    as [e|[id c]] eqn:Hfind; [done|].
  apply findByCode_inr in Hfind as (Hone & Hst & Hfrom & Htil & Hmax).
  apply findOneByCode_Some in Hone as (Hc & Hcode).
  destruct (bool_decide (subtotal < c_minOrderAmount c)%Qc) eqn:Hmin;
    [done|].
  destruct (bool_decide (c_maxUsesPerUser c > 0)) eqn:Huser;
    [by unfold CouponsService.getUserCouponUses in Hrun|].
  destruct (CouponsService.nonEmpty (c_applicableCategories c) && _);
    [done|].
  destruct (CouponsService.nonEmpty (c_applicableProducts c) && _); [done|].
  injection Hrun as <-.
  cbn [CouponsService.couponId CouponsService.discount
       CouponsService.freeShipping].
  exists c. split; [done|]. split; [done|]. split; [done|].
  split; [done|]. split; [done|]. split; [done|].
  pose proof (Hvalues _ _ Hc) as Hvalue. cbn in Hvalue.
  split; [|split; [|split; [done|split]]].
  - apply bool_decide_eq_false in Hmin. by apply Qcnot_lt_le.
  - apply bool_decide_eq_false in Huser. lia.
  - set (d := if bool_decide (c_discountType c = PERCENTAGE)
              then (subtotal * (c_discountValue c / n100))%Qc
              else c_discountValue c).
    assert (0 ≤ d)%Qc as Hd.
    { unfold d. destruct (bool_decide (c_discountType c = PERCENTAGE));
        [|done].
      apply Qc_mul_nonneg; [done|].
      unfold Qcdiv. apply Qc_mul_nonneg; [done|].
      vm_compute. discriminate. }
    unfold Math_min. by destruct (bool_decide (d ≤ subtotal)%Qc).
  - apply Math_min_le_r.
Qed.

Lemma applyCoupon_sound_witness :
  ∃ applied,
    CouponsService.applyCoupon toUpperCase_ascii Samples.env
      Samples.db_coupon_open "save10" (Qc_of_Z 4) "user-123" None None
    = inr applied
    ∧ CouponsService.couponId applied = "coupon-1"
    ∧ (CouponsService.discount applied ≤ Qc_of_Z 4)%Qc.
Proof.
  assert (∃ applied,
    CouponsService.applyCoupon toUpperCase_ascii Samples.env
      Samples.db_coupon_open "save10" (Qc_of_Z 4) "user-123" None None
    = inr applied
    ∧ CouponsService.couponId applied = "coupon-1") as (applied & Hrun & Hid).
  { eexists. split; reflexivity. }
  exists applied. split; [exact Hrun|]. split; [exact Hid|].
  destruct (applyCoupon_sound _ _ _ _ _ _ _ _ _ Hrun)
    as (c & _ & _ & _ & _ & _ & _ & _ & _ & _ & _ & Hle).
  - apply map_Forall_singleton. cbn. vm_compute. discriminate.
  - vm_compute. discriminate.
  - exact Hle.
Defined.

(** X20: creating a coupon and looking it up.  When [create] succeeds the
    coupon is stored ACTIVE and unused under the code as given (the code is
    not put in upper case), a second [create] with that code throws 'Coupon
    code already exists' and changes nothing, and unique codes stay unique.
    As [findByCode] looks for the upper-case form of the requested code, it
    returns the new coupon, within its validity window, for every request
    whose upper-case form is the stored code, and for no request at all
    when the stored code is the upper-case form of no string.  Nothing is
    assumed of the upper-casing function. *)
Theorem create_then_findByCode toUpperCase newId db dto coupon db' :
  Coupons.create newId db dto = (inr coupon, db') →
  coupons db' = <[newId := coupon]> (coupons db)
  ∧ c_code coupon = Coupons.dto_code dto
  ∧ c_usedCount coupon = 0
  ∧ c_status coupon = COUPON_ACTIVE
  ∧ (Coupons.uniqueCodes db → Coupons.uniqueCodes db')
  ∧ (∀ newId2 dto2, Coupons.dto_code dto2 = Coupons.dto_code dto →
       Coupons.create newId2 db' dto2
       = (inl Coupons.CouponCodeAlreadyExists, db'))
  ∧ (∀ env code,
       toUpperCase code = Coupons.dto_code dto →
       (∀ t, c_validFrom coupon = Some t → t ≤ env_now env) →
       (∀ t, c_validUntil coupon = Some t → env_now env ≤ t) →
       CouponsService.findByCode toUpperCase env db' code = inr (newId, coupon))
  ∧ ((∀ code, toUpperCase code ≠ Coupons.dto_code dto) →
     ∀ env code, CouponsService.findByCode toUpperCase env db' code
                 ≠ inr (newId, coupon)).
Proof.
  unfold Coupons.create. intros Hrun.
  destruct (CouponsService.findOneByCode db (Coupons.dto_code dto))
    as [?|] eqn:Hnone; [done|].
  case_bool_decide as Hfresh; [|done]. injection Hrun as <- <-.
  pose proof (proj1 (findOneByCode_None _ _) Hnone) as Hothers.
  set (coupon := Coupons.newCoupon dto).
  set (db' := set_coupons (insert newId coupon) db).
  assert (∀ id c, coupons db' !! id = Some c → c_code c = Coupons.dto_code dto
                  → id = newId ∧ c = coupon) as Honly.
  { intros id c Hc Hcode. unfold db' in Hc. cbn [coupons set_coupons] in Hc.
    destruct (decide (id = newId)) as [->|Hne].
    - rewrite lookup_insert_eq in Hc. by injection Hc as <-.
    - rewrite lookup_insert_ne in Hc by done.
      by destruct (Hothers id c Hc). }
  assert (CouponsService.findOneByCode db' (Coupons.dto_code dto)
          = Some (newId, coupon)) as Hfind.
  { destruct (CouponsService.findOneByCode db' (Coupons.dto_code dto))
      as [[id c]|] eqn:Hfind.
    - apply findOneByCode_Some in Hfind as (Hc & Hcode).
      by destruct (Honly id c Hc Hcode) as [-> ->].
    - exfalso.
      apply (proj1 (findOneByCode_None _ _) Hfind newId coupon); [|done].
      unfold db'. cbn [coupons set_coupons]. by rewrite lookup_insert_eq. }
  split; [done|]. split; [done|]. split; [done|]. split; [done|].
  split; [|split; [|split]].
  - intros Huniq i j ci cj Hi Hj Hcode.
    unfold db' in Hi, Hj. cbn [coupons set_coupons] in Hi, Hj.
    destruct (decide (i = newId)) as [->|Hi'],
             (decide (j = newId)) as [->|Hj']; [done| | |].
    + rewrite lookup_insert_eq in Hi. injection Hi as <-.
      rewrite lookup_insert_ne in Hj by done.
      destruct (Hothers j cj Hj). by rewrite <-Hcode.
    + rewrite lookup_insert_eq in Hj. injection Hj as <-.
      rewrite lookup_insert_ne in Hi by done.
      by destruct (Hothers i ci Hi).
    + rewrite lookup_insert_ne in Hi, Hj by done. by apply (Huniq i j ci cj).
  - intros newId2 dto2 Hcode. unfold Coupons.create.
    by rewrite Hcode, Hfind.
  - intros env code Hcode Hfrom Htil.
    apply findByCode_accepts; [by rewrite Hcode|done|done|done|].
    cbn [coupon Coupons.newCoupon c_usedCount c_maxUses]. lia.
  - intros Hlower env code Hrun.
    apply findByCode_inr in Hrun as (Hone & _).
    apply findOneByCode_Some in Hone as (_ & Hcode).
    apply (Hlower code). by rewrite <-Hcode.
Qed.

Lemma create_then_findByCode_witness :
  ∃ coupon db',
    Coupons.create "coupon-2" Samples.db_coupon
      (Coupons.mkCreateCouponDto "SUMMER20" PERCENTAGE (Qc_of_Z 20) None None
         None None None None None None) = (inr coupon, db')
    ∧ c_code coupon = "SUMMER20"
    ∧ CouponsService.findByCode toUpperCase_ascii Samples.env db' "summer20"
      = inr ("coupon-2", coupon).
Proof.
  eexists _, _. split; [reflexivity|]. split; [reflexivity|].
  pose proof (create_then_findByCode toUpperCase_ascii "coupon-2"
                Samples.db_coupon
                (Coupons.mkCreateCouponDto "SUMMER20" PERCENTAGE (Qc_of_Z 20)
                   None None None None None None None None) _ _ eq_refl)
    as (_ & _ & _ & _ & _ & _ & Hfound & _).
  apply Hfound; [reflexivity|discriminate|discriminate].
Defined.

(** X21: the usage limit of a coupon is enforced by the count.  With
    unique codes, a coupon that [findByCode] accepts and whose [maxUses] is
    positive is still accepted after [n] calls of [incrementUsage] as long
    as [usedCount + n] is below [maxUses], with its [usedCount] raised by
    [n]; from then on [findByCode] throws 'Coupon usage limit reached'. *)
Theorem incrementUsage_reaches_limit toUpperCase env db code id c n :
  Coupons.uniqueCodes db →
  CouponsService.findByCode toUpperCase env db code = inr (id, c) →
  c_maxUses c > 0 →
  CouponsService.findByCode toUpperCase env
    (Coupons.incrementUsages n id db) code
  = if bool_decide (c_usedCount c + Z.of_nat n < c_maxUses c)
    then inr (id, set_c_usedCount (λ x, x + Z.of_nat n) c)
    else inl CouponUsageLimitReached.
Proof.
  intros Huniq Hrun Hpos.
  apply findByCode_inr in Hrun as (Hone & Hst & Hfrom & Htil & Hmax).
  apply findOneByCode_Some in Hone as (Hc & Hcode).
  set (db' := Coupons.incrementUsages n id db).
  set (c' := set_c_usedCount (λ x, x + Z.of_nat n) c).
  pose proof (incrementUsages_coupons n id db) as Hdb'. fold db' in Hdb'.
  assert (coupons db' !! id = Some c') as Hc'.
  { by rewrite Hdb', lookup_alter_eq, Hc. }
  assert (CouponsService.findOneByCode db' (toUpperCase code)
          = Some (id, c')) as Hfind.
  { replace (toUpperCase code) with (c_code c') by (by destruct c).
    apply findOneByCode_unique; [|done].
    by apply (uniqueCodes_alter db db' id _ Hdb'). }
  case_bool_decide as Hleft.
  - apply findByCode_accepts; try done; by destruct c.
  - unfold CouponsService.findByCode. rewrite Hfind.
    assert (c_status c' = c_status c ∧ c_validFrom c' = c_validFrom c
            ∧ c_validUntil c' = c_validUntil c ∧ c_maxUses c' = c_maxUses c
            ∧ c_usedCount c' = c_usedCount c + Z.of_nat n)
      as (-> & -> & -> & -> & ->) by (by destruct c).
    rewrite bool_decide_eq_false_2 by (by intros ?).
    assert (match c_validFrom c with
            | Some validFrom => bool_decide (env_now env < validFrom)
            | None => false
            end = false) as ->.
    { destruct (c_validFrom c) as [t|]; [|done].
      apply bool_decide_eq_false_2. specialize (Hfrom t eq_refl). lia. }
    assert (match c_validUntil c with
            | Some validUntil => bool_decide (env_now env > validUntil)
            | None => false
            end = false) as ->.
    { destruct (c_validUntil c) as [t|]; [|done].
      apply bool_decide_eq_false_2. specialize (Htil t eq_refl). lia. }
    rewrite (bool_decide_eq_true_2 _ Hpos).
    by rewrite bool_decide_eq_true_2 by lia.
Qed.

Lemma incrementUsage_reaches_limit_witness :
  Coupons.uniqueCodes Samples.db_coupon
  ∧ CouponsService.findByCode toUpperCase_ascii Samples.env Samples.db_coupon "save10"
    = inr ("coupon-1", Samples.coupon_save10)
  ∧ CouponsService.findByCode toUpperCase_ascii Samples.env
      (Coupons.incrementUsages 100 "coupon-1" Samples.db_coupon) "save10"
    = inl CouponUsageLimitReached.
Proof.
  assert (Coupons.uniqueCodes Samples.db_coupon) as Huniq.
  { intros i j ci cj Hi Hj _.
    unfold Samples.db_coupon in Hi, Hj. cbn [coupons] in Hi, Hj.
    apply lookup_singleton_Some in Hi as [<- _].
    by apply lookup_singleton_Some in Hj as [<- _]. }
  assert (CouponsService.findByCode toUpperCase_ascii Samples.env Samples.db_coupon "save10"
          = inr ("coupon-1", Samples.coupon_save10)) as Hrun by reflexivity.
  split; [exact Huniq|]. split; [exact Hrun|].
  refine (incrementUsage_reaches_limit toUpperCase_ascii Samples.env
            Samples.db_coupon "save10"
            "coupon-1" Samples.coupon_save10 100 Huniq Hrun _).
  reflexivity.
Defined.

(* ===================================================================== *)
(** * The order statistics *)
(* ===================================================================== *)

Section Statistics.
Import OrdersService Orders.

Lemma sum_Permutation l l' : l ≡ₚ l' → sum l = sum l'.
Proof.
  induction 1 as [|x l l' _ IH|x y l|l l' l'' _ IH1 _ IH2]; cbn.
  - done.
  - unfold sum in IH. by rewrite IH.
  - ring.
  - congruence.
Qed.

Lemma rows_insert_fresh (m : gmap string Order) id o :
  m !! id = None → (map_to_list (<[id := o]> m)).*2 ≡ₚ o :: (map_to_list m).*2.
Proof. intros Hid. by rewrite map_to_list_insert. Qed.

Lemma rows_replace (m : gmap string Order) id o o' :
  m !! id = Some o →
  (map_to_list m).*2 ≡ₚ o :: (map_to_list (delete id m)).*2
  ∧ (map_to_list (<[id := o']> m)).*2
    ≡ₚ o' :: (map_to_list (delete id m)).*2.
Proof.
  intros Hid. split.
  - by rewrite <-(map_to_list_delete m id o Hid).
  - rewrite <-insert_delete_eq.
    by rewrite map_to_list_insert by apply lookup_delete_eq.
Qed.

Lemma count_cons (P : Order → Prop) `{∀ o, Decision (P o)} o l :
  length (filter P (o :: l))
  = ((if decide (P o) then 1 else 0) + length (filter P l))%nat.
Proof. rewrite filter_cons. by destruct (decide (P o)). Qed.

Lemma sum_cons (P : Order → Prop) `{∀ o, Decision (P o)} o l :
  sum (filter P (o :: l))
  = ((if decide (P o) then o_total o else 0) + sum (filter P l))%Qc.
Proof. rewrite filter_cons. destruct (decide (P o)); cbn; [done|ring]. Qed.

(** Counting and summing after a row was added. *)
Lemma count_insert_fresh (P : Order → Prop) `{∀ o, Decision (P o)}
    db db' id o :
  orders db !! id = None → orders db' = <[id := o]> (orders db) →
  count P db' = ((if decide (P o) then 1 else 0) + count P db)%nat.
Proof.
  intros Hid Hdb'. unfold count, rows. rewrite Hdb'.
  rewrite (rows_insert_fresh _ _ _ Hid). apply count_cons.
Qed.

Lemma sumTotal_insert_fresh (P : Order → Prop) `{∀ o, Decision (P o)}
    db db' id o :
  orders db !! id = None → orders db' = <[id := o]> (orders db) →
  sumTotal P db'
  = ((if decide (P o) then o_total o else 0) + sumTotal P db)%Qc.
Proof.
  intros Hid Hdb'. unfold sumTotal, rows. rewrite Hdb'.
  rewrite (sum_Permutation _ _
             (filter_Permutation _ _ _ (rows_insert_fresh _ _ o Hid))).
  apply sum_cons.
Qed.

(** Counting and summing after a row was rewritten. *)
Lemma count_replace (P : Order → Prop) `{∀ o, Decision (P o)}
    db db' id o o' :
  orders db !! id = Some o → orders db' = <[id := o']> (orders db) →
  (count P db' + (if decide (P o) then 1 else 0)
   = count P db + (if decide (P o') then 1 else 0))%nat.
Proof.
  intros Hid Hdb'. unfold count, rows. rewrite Hdb'.
  destruct (rows_replace (orders db) id o o' Hid) as [-> ->].
  rewrite !count_cons. lia.
Qed.

Lemma sumTotal_replace (P : Order → Prop) `{∀ o, Decision (P o)}
    db db' id o o' :
  orders db !! id = Some o → orders db' = <[id := o']> (orders db) →
  (sumTotal P db' + (if decide (P o) then o_total o else 0)
   = sumTotal P db + (if decide (P o') then o_total o' else 0))%Qc.
Proof.
  intros Hid Hdb'. unfold sumTotal, rows. rewrite Hdb'.
  destruct (rows_replace (orders db) id o o' Hid) as [Hold Hnew].
  rewrite (sum_Permutation _ _ (filter_Permutation _ _ _ Hold)).
  rewrite (sum_Permutation _ _ (filter_Permutation _ _ _ Hnew)).
  rewrite !sum_cons. ring.
Qed.

End Statistics.

(** X22: a checkout shows in the statistics of the buyer and of nobody
    else.  After a successful [create] the buyer has one order more, one
    pending order more, the same number of delivered orders, and a
    [totalSpent] raised by the total of the new order. *)
Theorem create_updates_stats configService env fault db userId dto lo db' :
  OrdersService.create configService env fault db userId dto = (inr lo, db') →
  Orders.totalOrders (Orders.getUserOrderStats db' userId)
  = S (Orders.totalOrders (Orders.getUserOrderStats db userId))
  ∧ Orders.pendingOrders (Orders.getUserOrderStats db' userId)
    = S (Orders.pendingOrders (Orders.getUserOrderStats db userId))
  ∧ Orders.deliveredOrders (Orders.getUserOrderStats db' userId)
    = Orders.deliveredOrders (Orders.getUserOrderStats db userId)
  ∧ Orders.totalSpent (Orders.getUserOrderStats db' userId)
    = (o_total (OrdersService.lo_order lo)
       + Orders.totalSpent (Orders.getUserOrderStats db userId))%Qc
  ∧ ∀ other, other ≠ userId →
      Orders.getUserOrderStats db' other = Orders.getUserOrderStats db other.
Proof.
  intros Hrun.
  destruct (create_cases configService env fault db userId dto)
    as [[e He]|[Hready [lo' Hrun']]]; [congruence|].
  pose proof Hready as (_ & _ & Hfresh & _).
  rewrite create_run in Hrun by done.
  destruct (enough _ fault); [|done]. injection Hrun as <- <-.
  set (db' := Checkout.effect configService env userId dto db).
  set (row := Checkout.orderRow configService env userId dto _).
  assert (orders db' = <[env_orderId env := row]> (orders db)) as Hdb'
    by reflexivity.
  cbn [OrdersService.lo_order OrdersService.loadOrder].
  unfold Orders.getUserOrderStats.
  cbn [Orders.totalOrders Orders.pendingOrders Orders.deliveredOrders
       Orders.totalSpent].
  split; [|split; [|split; [|split]]].
  - rewrite (count_insert_fresh _ db db' _ row Hfresh Hdb').
    by rewrite decide_True by done.
  - rewrite (count_insert_fresh _ db db' _ row Hfresh Hdb').
    by rewrite decide_True by done.
  - rewrite (count_insert_fresh _ db db' _ row Hfresh Hdb').
    by rewrite decide_False by (by intros [_ ?]).
  - rewrite (sumTotal_insert_fresh _ db db' _ row Hfresh Hdb').
    by rewrite decide_True by done.
  - intros other Hother. f_equal.
    + rewrite (count_insert_fresh _ db db' _ row Hfresh Hdb').
      by rewrite decide_False by (cbn; congruence).
    + rewrite (sumTotal_insert_fresh _ db db' _ row Hfresh Hdb').
      rewrite decide_False by (cbn; intros [? _]; congruence). ring.
    + rewrite (count_insert_fresh _ db db' _ row Hfresh Hdb').
      by rewrite decide_False by (cbn; intros [? _]; congruence).
    + rewrite (count_insert_fresh _ db db' _ row Hfresh Hdb').
      by rewrite decide_False by (cbn; intros [? _]; congruence).
Qed.

Lemma create_updates_stats_witness :
  ∃ lo db',
    OrdersService.create ∅ Samples.env None Samples.db_cart4 "user-123"
      Samples.dto = (inr lo, db')
    ∧ Orders.totalOrders (Orders.getUserOrderStats db' "user-123") = 1%nat
    ∧ Orders.totalSpent (Orders.getUserOrderStats db' "user-123")
      = (o_total (OrdersService.lo_order lo)
         + Orders.totalSpent
             (Orders.getUserOrderStats Samples.db_cart4 "user-123"))%Qc.
Proof.
  assert (Checkout.ready Samples.env "user-123" Samples.db_cart4) as Hready
    by (by apply ready_by_computation).
  pose proof (create_run ∅ Samples.env None Samples.db_cart4 "user-123"
                Samples.dto Hready) as Hrun. cbn [enough] in Hrun.
  eexists _, _. split; [exact Hrun|].
  destruct (create_updates_stats _ _ _ _ _ _ _ _ Hrun)
    as (Hn & _ & _ & Hspent & _).
  split; [exact Hn|exact Hspent].
Defined.

(** X23: a cancellation shows in the statistics of the owner of the order
    and of nobody else.  After a successful [cancel] the owner has as many
    orders and delivered orders as before, one pending order less if the
    order was PENDING, and a [totalSpent] lowered by the order's total; in
    the shop-wide statistics the cancelled count grows by one and the
    revenue drops by the order's total. *)
Theorem cancel_updates_stats env fault db userId orderId reason lo db' :
  OrdersService.cancel env fault db userId orderId reason = (inr lo, db') →
  ∃ o,
    orders db !! orderId = Some o
    ∧ Orders.totalOrders (Orders.getUserOrderStats db' (o_userId o))
      = Orders.totalOrders (Orders.getUserOrderStats db (o_userId o))
    ∧ Orders.deliveredOrders (Orders.getUserOrderStats db' (o_userId o))
      = Orders.deliveredOrders (Orders.getUserOrderStats db (o_userId o))
    ∧ (Orders.pendingOrders (Orders.getUserOrderStats db' (o_userId o))
       + (if bool_decide (o_status o = PENDING) then 1 else 0)
       = Orders.pendingOrders (Orders.getUserOrderStats db (o_userId o)))%nat
    ∧ (Orders.totalSpent (Orders.getUserOrderStats db' (o_userId o))
       + o_total o
       = Orders.totalSpent (Orders.getUserOrderStats db (o_userId o)))%Qc
    ∧ (∀ other, other ≠ o_userId o →
         Orders.getUserOrderStats db' other
         = Orders.getUserOrderStats db other)
    ∧ Orders.os_totalOrders (Orders.getOrderStats db')
      = Orders.os_totalOrders (Orders.getOrderStats db)
    ∧ Orders.os_cancelled (Orders.getOrderStats db')
      = S (Orders.os_cancelled (Orders.getOrderStats db))
    ∧ (Orders.os_totalRevenue (Orders.getOrderStats db') + o_total o
       = Orders.os_totalRevenue (Orders.getOrderStats db))%Qc.
Proof.
  intros Hrun.
  destruct (cancel_cases env fault db userId orderId reason)
    as [[e He]|(order & lo1 & Hfind & Hst & Hrun1)]; [congruence|].
  rewrite Hrun1 in Hrun. injection Hrun as _ <-.
  destruct (effect_frame env order reason db) as (_ & _ & _ & Hord).
  apply findOne_inr in Hfind as (o & Ho & ->).
  cbn [OrdersService.lo_id OrdersService.loadOrder OrdersService.lo_order]
    in *.
  set (db' := Cancellation.effect env _ reason db) in *.
  set (o' := Cancellation.cancelledOrder env reason o) in *.
  assert (o_userId o' = o_userId o ∧ o_total o' = o_total o
          ∧ o_status o' = CANCELLED) as (Hu' & Ht' & Hs')
    by (by destruct o).
  assert (o_status o ≠ CANCELLED ∧ o_status o ≠ DELIVERED) as [Hnc Hnd].
  { apply list_elem_of_In in Hst. cbn in Hst.
    destruct Hst as [<-|[<-|[]]]; by split. }
  exists o. split; [done|].
  unfold Orders.getUserOrderStats, Orders.getOrderStats.
  cbn [Orders.totalOrders Orders.pendingOrders Orders.deliveredOrders
       Orders.totalSpent Orders.os_totalOrders Orders.os_cancelled
       Orders.os_totalRevenue].
  split; [|split; [|split; [|split; [|split; [|split; [|split]]]]]].
  - pose proof (count_replace (λ x, o_userId x = o_userId o)
                  db db' orderId o o' Ho Hord) as Hcount.
    rewrite !decide_True in Hcount by done. lia.
  - pose proof (count_replace
                  (λ x, o_userId x = o_userId o ∧ o_status x = DELIVERED)
                  db db' orderId o o' Ho Hord) as Hcount.
    rewrite !decide_False in Hcount by (intros [_ ?]; congruence). lia.
  - pose proof (count_replace
                  (λ x, o_userId x = o_userId o ∧ o_status x = PENDING)
                  db db' orderId o o' Ho Hord) as Hcount.
    cbn beta in Hcount.
    rewrite (decide_False
               (P := o_userId o' = o_userId o ∧ o_status o' = PENDING))
      in Hcount by (intros [_ ?]; congruence).
    case_bool_decide as Hp.
    + rewrite decide_True in Hcount by done. lia.
    + rewrite decide_False in Hcount by (by intros [_ ?]). lia.
  - pose proof (sumTotal_replace
                  (λ x, o_userId x = o_userId o ∧ o_status x ≠ CANCELLED)
                  db db' orderId o o' Ho Hord) as Hsum.
    rewrite decide_True in Hsum by done.
    rewrite decide_False in Hsum by (intros [_ ?]; congruence).
    rewrite Hsum. ring.
  - intros other Hother. f_equal.
    + pose proof (count_replace (λ x, o_userId x = other)
                    db db' orderId o o' Ho Hord) as Hcount.
      rewrite !decide_False in Hcount by congruence. lia.
    + pose proof (sumTotal_replace
                    (λ x, o_userId x = other ∧ o_status x ≠ CANCELLED)
                    db db' orderId o o' Ho Hord) as Hsum.
      rewrite !decide_False in Hsum by (intros [? _]; congruence).
      rewrite !Qcplus_0_r in Hsum. done.
    + pose proof (count_replace
                    (λ x, o_userId x = other ∧ o_status x = PENDING)
                    db db' orderId o o' Ho Hord) as Hcount.
      rewrite !decide_False in Hcount by (intros [? _]; congruence). lia.
    + pose proof (count_replace
                    (λ x, o_userId x = other ∧ o_status x = DELIVERED)
                    db db' orderId o o' Ho Hord) as Hcount.
      rewrite !decide_False in Hcount by (intros [? _]; congruence). lia.
  - pose proof (count_replace (λ _, True) db db' orderId o o' Ho Hord)
      as Hcount.
    rewrite !decide_True in Hcount by done. lia.
  - pose proof (count_replace (λ x, o_status x = CANCELLED)
                  db db' orderId o o' Ho Hord) as Hcount.
    rewrite decide_False in Hcount by done.
    rewrite decide_True in Hcount by done. lia.
  - pose proof (sumTotal_replace (λ x, o_status x ≠ CANCELLED)
                  db db' orderId o o' Ho Hord) as Hsum.
    rewrite decide_True in Hsum by done.
    rewrite decide_False in Hsum by (intros ?; congruence).
    rewrite Hsum. ring.
Qed.

Lemma cancel_updates_stats_witness :
  ∃ lo db',
    OrdersService.cancel Samples.env None Samples.db_placed "user-123"
      "order-1" None = (inr lo, db')
    ∧ Orders.os_cancelled (Orders.getOrderStats db')
      = S (Orders.os_cancelled (Orders.getOrderStats Samples.db_placed)).
Proof.
  assert (o_status (OrdersService.lo_order
            (OrdersService.loadOrder Samples.db_placed "order-1"
               (Samples.order_in PENDING))) ∈ [PENDING; CONFIRMED]) as Hin
    by (cbn; left).
  pose proof (cancel_run Samples.env None Samples.db_placed "user-123"
                "order-1" None _ eq_refl Hin) as Hrun.
  cbn [enough] in Hrun.
  eexists _, _. split; [exact Hrun|].
  destruct (cancel_updates_stats _ _ _ _ _ _ _ _ Hrun)
    as (o & _ & _ & _ & _ & _ & _ & _ & Hc & _).
  exact Hc.
Defined.

(* ===================================================================== *)
(** * The invariant of the shop *)
(* ===================================================================== *)

Section ShopInvariant.
Import OrdersService Inventory Shop.

Lemma Forall_sublist_of {A} (P : A → Prop) (l l' : list A) :
  l' `sublist_of` l → Forall P l → Forall P l'.
Proof.
  induction 1 as [|x l1 l2 _ IH|x l1 l2 _ IH]; intros Hall.
  - constructor.
  - apply Forall_cons_iff in Hall as [Hx Hall]. constructor; auto.
  - apply Forall_cons_iff in Hall as [_ Hall]. auto.
Qed.

Lemma NoDup_fmap_eq {A B} (f : A → B) (l : list A) x y :
  NoDup (f <$> l) → x ∈ l → y ∈ l → f x = f y → x = y.
Proof.
  induction l as [|z l IH]; intros Hnd Hx Hy Hf.
  - by apply not_elem_of_nil in Hx.
  - rewrite fmap_cons in Hnd. apply list.NoDup_cons in Hnd as [Hz Hnd].
    apply elem_of_cons in Hx as [->|Hx], Hy as [->|Hy].
    + done.
    + exfalso. apply Hz. rewrite Hf. apply list_elem_of_fmap. eauto.
    + exfalso. apply Hz. rewrite <-Hf. apply list_elem_of_fmap. eauto.
    + by apply IH.
Qed.

(** With the foreign key and the unique key, no two lines of one user draw
    from the same stock counter. *)
Lemma targets_NoDup db :
  Forall (consistentLine db) (cartItems db) →
  NoDup (Cart.key <$> cartItems db) →
  NoDup ((λ ci, (ci_userId ci, cartTarget db ci)) <$> cartItems db).
Proof.
  intros Hcons Hkeys. apply NoDup_fmap_2_strong; [|by apply NoDup_fmap_1 in Hkeys].
  intros x y Hx Hy Heq. apply (NoDup_fmap_eq Cart.key _ x y Hkeys Hx Hy).
  injection Heq as Hu Ht.
  pose proof (proj1 (list.Forall_forall _ _) Hcons x Hx) as Hcx.
  pose proof (proj1 (list.Forall_forall _ _) Hcons y Hy) as Hcy.
  unfold consistentLine, cartTarget, target, Cart.key in *.
  destruct (ci_variantId x) as [wx|], (ci_variantId y) as [wy|].
  - destruct (variants db !! wx) as [vx|] eqn:Hvx; [|done].
    destruct (variants db !! wy) as [vy|] eqn:Hvy; [|done].
    rewrite !bool_decide_eq_true_2 in Ht by eauto.
    injection Ht as ->. rewrite Hvx in Hvy. injection Hvy as <-.
    congruence.
  - destruct (variants db !! wx) as [vx|] eqn:Hvx; [|done].
    rewrite bool_decide_eq_true_2 in Ht by eauto. done.
  - destruct (variants db !! wy) as [vy|] eqn:Hvy; [|done].
    rewrite bool_decide_eq_true_2 in Ht by eauto. done.
  - congruence.
Qed.

Lemma invariant_wellFormed db : invariant db → wellFormed db.
Proof.
  intros (Hs & Hq & Hi & Hc & Hk).
  split; [exact Hs|]. split; [exact Hq|]. split; [exact Hi|].
  by apply targets_NoDup.
Qed.

(** The invariant after a change of the cart alone. *)
Lemma invariant_cart db cart :
  invariant db →
  Forall (λ ci, 0 ≤ ci_quantity ci) cart →
  Forall (consistentLine db) cart →
  NoDup (Cart.key <$> cart) →
  invariant (set_cartItems (λ _, cart) db).
Proof.
  intros (Hs & _ & Hi & _ & _) Hq Hc Hk.
  split; [exact Hs|]. split; [exact Hq|]. split; [exact Hi|].
  split; [exact Hc|exact Hk].
Qed.

Lemma invariant_sublist db cart :
  invariant db → cart `sublist_of` cartItems db →
  invariant (set_cartItems (λ _, cart) db).
Proof.
  intros Hinv Hsub. pose proof Hinv as (_ & Hq & _ & Hc & Hk).
  apply invariant_cart; [done|by eapply Forall_sublist_of..|].
  eapply sublist_NoDup; [exact Hk|]. by apply fmap_sublist.
Qed.

(** The invariant after a change of products, variants, order items and
    orders that keeps their other columns, with a cart that only shrinks. *)
Lemma invariant_stock db db' :
  wellFormed db' →
  (∀ k, Ledger.otherVariantColumns <$> variants db' !! k
        = Ledger.otherVariantColumns <$> variants db !! k) →
  cartItems db' `sublist_of` cartItems db →
  invariant db → invariant db'.
Proof.
  intros (Hs & Hq & Hi & _) Hvars Hsub (_ & _ & _ & Hc & Hk).
  split; [done|]. split; [done|]. split; [done|]. split.
  - apply (Forall_sublist_of _ _ _ Hsub) in Hc.
    eapply list.Forall_impl; [exact Hc|]. intros ci. unfold consistentLine.
    destruct (ci_variantId ci) as [w|]; [|done].
    specialize (Hvars w).
    destruct (variants db !! w) as [[]|], (variants db' !! w) as [[]|];
      cbn in *; try done. by injection Hvars as -> _ _ _ _ _.
  - eapply sublist_NoDup; [exact Hk|]. by apply fmap_sublist.
Qed.

Lemma addToCart_unique_key pick db userId dto :
  NoDup (Cart.key <$> cartItems db) →
  NoDup (Cart.key <$> cartItems (CartService.addToCart pick db userId dto).2).
Proof.
  intros Hnodup. unfold CartService.addToCart.
  destruct (CartService.availableStock db dto) as [e|avail]; [done|].
  case_bool_decide as Hq; [done|].
  destruct (CartService.findCartItem pick db userId
              (CartService.productId dto) (CartService.variantId dto))
    as [[i existing]|] eqn:Hfind.
  - case_bool_decide as Hnew; [done|]. cbn [snd cartItems set_cartItems].
    apply findCartItem_Some in Hfind as (Hi & _ & _ & _).
    rewrite list_fmap_insert.
    change (Cart.key (set_ci_quantity _ existing)) with (Cart.key existing).
    rewrite list_insert_id; [done|]. by rewrite list_lookup_fmap, Hi.
  - cbn [snd cartItems set_cartItems]. rewrite fmap_app.
    apply list.NoDup_app. split; [done|]. split; [|apply NoDup_singleton].
    intros k Hk Hk'. apply list_elem_of_singleton in Hk'. subst k.
    apply list_elem_of_fmap in Hk as (ci & Hkey & Hci).
    apply findCartItem_None in Hfind.
    apply (proj1 (list.Forall_forall _ _) Hfind ci Hci).
    unfold Cart.key in Hkey. cbn in Hkey. injection Hkey as <- <- Hv.
    split; [done|]. split; [done|]. unfold CartService.variantMatches.
    by destruct (CartService.variantId dto).
Qed.

Lemma Forall_insert_same {A} (P : A → Prop) (l : list A) i x :
  Forall P l → P x → Forall P (<[i := x]> l).
Proof.
  intros Hall Hx. apply list.Forall_forall. intros y Hy.
  apply list_elem_of_lookup in Hy as (j & Hj).
  apply list_lookup_insert_Some in Hj as [(-> & -> & _)|(_ & Hj)]; [done|].
  apply (proj1 (list.Forall_forall _ _) Hall).
  by apply list_elem_of_lookup_2 in Hj.
Qed.

Lemma invariant_addToCart pick db userId dto :
  0 ≤ CartService.quantity dto → CartService.variantId dto ≠ Some "" →
  invariant db → invariant (CartService.addToCart pick db userId dto).2.
Proof.
  intros Hq0 Hvid Hinv. pose proof Hinv as (Hs & Hq & Hi & Hc & Hk).
  pose proof (addToCart_unique_key pick db userId dto Hk) as Hk'.
  destruct (CartService.addToCart pick db userId dto) as [[e|item] db']
    eqn:Hrun.
  { by apply addToCart_inl in Hrun as ->. }
  cbn [snd] in *.
  apply addToCart_inr in Hrun as (avail & Hav & _ & _ & _ & _ & Hcase).
  destruct Hcase as [(i & existing & Hfind & Hnew & ->)|(_ & Hnew & ->)].
  - apply findCartItem_Some in Hfind as (Hat & _ & _ & _).
    assert (existing ∈ cartItems db) as Hin
      by (by apply list_elem_of_lookup_2 in Hat).
    assert (0 ≤ ci_quantity existing) as Hex
      by (by apply (proj1 (list.Forall_forall _ _) Hq)).
    apply (invariant_cart db (<[i := item]> (cartItems db))); [done| | |done].
    + apply Forall_insert_same; [done|]. rewrite Hnew. cbn. lia.
    + apply Forall_insert_same; [done|]. rewrite Hnew.
      by apply (proj1 (list.Forall_forall _ _) Hc existing).
  - assert (consistentLine db item) as Hitem.
    { rewrite Hnew. unfold consistentLine. cbn.
      unfold CartService.availableStock in Hav.
      destruct (products db !! CartService.productId dto); [|done].
      destruct (bool_decide _); [done|].
      destruct (CartService.variantId dto) as [w|]; [|done].
      assert (truthy w = true) as Hw.
      { unfold truthy. apply bool_decide_eq_true_2. congruence. }
      rewrite Hw in Hav. unfold CartService.findVariant in Hav.
      destruct (variants db !! w) as [v|]; [|done].
      case_bool_decide as Hprod; [done|]. cbn in Hav. done. }
    apply (invariant_cart db (cartItems db ++ [item])); [done| | |done].
    + apply Forall_app. split; [done|]. constructor; [|done].
      rewrite Hnew. cbn. lia.
    + apply Forall_app. split; [done|]. by constructor.
Qed.

Lemma invariant_updateCartItem pick db userId productId quantity :
  0 ≤ quantity → invariant db →
  invariant (Cart.updateCartItem pick db userId productId quantity).2.
Proof.
  intros Hq0 Hinv. pose proof Hinv as (Hs & Hq & Hi & Hc & Hk).
  unfold Cart.updateCartItem.
  destruct (Cart.findByProduct pick db userId productId) as [[i old]|] eqn:Hfind;
    [|done].
  case_bool_decide; [done|]. cbn [snd].
  apply findByProduct_Some in Hfind as (Hold & _ & _).
  apply (invariant_cart db (<[i := set_ci_quantity quantity old]>
                              (cartItems db))); [done| | |].
  - by apply Forall_insert_same.
  - apply Forall_insert_same; [done|].
    apply (proj1 (list.Forall_forall _ _) Hc old).
    by apply list_elem_of_lookup_2 in Hold.
  - rewrite list_fmap_insert.
    change (Cart.key (set_ci_quantity quantity old)) with (Cart.key old).
    rewrite list_insert_id; [done|]. by rewrite list_lookup_fmap, Hold.
Qed.

Lemma invariant_orders db f : invariant db → invariant (set_orders f db).
Proof.
  intros (Hs & Hq & Hi & Hc & Hk).
  split; [exact Hs|]. split; [exact Hq|]. split; [exact Hi|].
  split; [exact Hc|exact Hk].
Qed.

Lemma invariant_onOrders db op : invariant db → invariant (Lifecycle.apply db op).
Proof.
  intros Hinv. pose proof (invariant_wellFormed db Hinv) as Hwf.
  destruct op as [cfg env fault userId dto | env fault userId id reason
                 | env id status ad | id status]; cbn [Lifecycle.apply].
  - pose proof (wellFormed_create cfg env fault db userId dto Hwf) as Hwf'.
    destruct (create_cases cfg env fault db userId dto)
      as [[e ->]|[_ [lo Hrun]]]; [done|].
    rewrite Hrun in *. cbn [snd] in *.
    apply (invariant_stock db); [done| |apply sublist_filter|done].
    intros k.
    apply (otherColumns_linesEffect (findCartItems userId db) db k).
  - pose proof (wellFormed_cancel env fault db userId id reason Hwf) as Hwf'.
    destruct (cancel_cases env fault db userId id reason)
      as [[e ->]|(order & lo & _ & _ & Hrun)]; [done|].
    rewrite Hrun in *. cbn [snd] in *.
    destruct (effect_frame env order reason db) as (Hcart & _).
    destruct (effect_products env order reason db) as (_ & Hvar & _).
    apply (invariant_stock db); [done| |by rewrite Hcart|done].
    intros k. rewrite Hvar.
    apply (otherColumns_items (lo_items order) db k).
  - destruct (updateStatus_outcome env db id status ad)
      as [[_ ->]|[(o' & _ & _ & ->)|(o' & o'' & _ & _ & -> & _)]];
      cbn [snd]; [done..|]. by apply invariant_orders.
  - destruct (adminUpdateOrderStatus_outcome db id status)
      as [[_ ->]|[(o' & _ & _ & ->)|(o' & _ & _ & ->)]];
      cbn [snd]; [done..|]. by apply invariant_orders.
Qed.

Lemma invariant_apply db op :
  validRequest op → invariant db → invariant (Shop.apply db op).
Proof.
  intros Hvalid Hinv.
  destruct op as [pick userId dto|pick userId productId quantity
                 |pick userId productId|userId|userId|op];
    cbn [Shop.apply validRequest] in *.
  - destruct Hvalid. by apply invariant_addToCart.
  - by apply invariant_updateCartItem.
  - unfold Cart.removeFromCart.
    destruct (Cart.findByProduct pick db userId productId) as [[i ci]|]; [|done].
    cbn [snd]. apply (invariant_sublist db (delete i (cartItems db)));
      [done|apply sublist_delete].
  - apply (invariant_sublist db
             (filter (λ ci, ci_userId ci ≠ userId) (cartItems db)));
      [done|apply sublist_filter].
  - pose proof (removeInvalidItems_rows db userId) as Hrows.
    assert (Cart.removeInvalidItems db userId
            = set_cartItems
                (λ _, cartItems (Cart.removeInvalidItems db userId)) db)
      as -> by reflexivity.
    apply invariant_sublist; [done|]. rewrite Hrows. apply sublist_filter.
  - by apply invariant_onOrders.
Qed.

End ShopInvariant.

(** X12: [addToCart] keeps the unique key of the cart table.  If no two
    cart lines agree on (userId, productId, variantId) before the call,
    none do after it, whether it succeeds or throws and whichever of the
    matching lines the lookup returns. *)
Theorem addToCart_keeps_unique_key pick db userId dto :
  NoDup (Cart.key <$> cartItems db) →
  NoDup (Cart.key <$> cartItems (CartService.addToCart pick db userId dto).2).
Proof. apply addToCart_unique_key. Qed.

Lemma addToCart_keeps_unique_key_witness :
  NoDup (Cart.key <$> cartItems Samples.db_variant_and_plain)
  ∧ NoDup (Cart.key
             <$> cartItems
                   (CartService.addToCart 0 Samples.db_variant_and_plain
                      "user-123"
                      (CartService.mkAddToCartDto "prod-1" None 2)).2).
Proof.
  assert (NoDup (Cart.key <$> cartItems Samples.db_variant_and_plain))
    as Hnodup.
  { change (NoDup [Cart.key (Samples.line_variant 2);
                   Cart.key (Samples.line_plain 1)]).
    apply NoDup_cons_2; [|apply NoDup_singleton].
    intros Hin. apply list_elem_of_singleton in Hin. discriminate Hin. }
  split; [exact Hnodup|]. exact (addToCart_keeps_unique_key _ _ _ _ Hnodup).
Defined.

(** X24: the shop keeps its invariant, and with it the stocks never go
    negative.  From a state where stocks and quantities are not negative,
    every cart line points to a variant of its product and the unique key
    of the cart holds, any sequence of cart calls (add, update, remove,
    clear, remove invalid items), checkouts, cancellations and status
    updates, failing or not, whose requests carry no negative quantity and
    no empty variant id, leads to a state with the same properties,
    whichever line each lookup of a cart call returns; there no two cart
    lines of a user draw from the same stock counter. *)
Theorem shop_keeps_invariant db ops :
  Shop.invariant db →
  Forall Shop.validRequest ops →
  Shop.invariant (foldl Shop.apply db ops)
  ∧ Inventory.wellFormed (foldl Shop.apply db ops)
  ∧ (∀ p s, productStock (foldl Shop.apply db ops) p = Some s → 0 ≤ s)
  ∧ (∀ v s, variantStock (foldl Shop.apply db ops) v = Some s → 0 ≤ s).
Proof.
  intros Hinv Hvalid.
  assert (Shop.invariant (foldl Shop.apply db ops)) as Hend.
  { revert db Hinv. induction Hvalid as [|op ops Hop _ IH]; intros db Hinv;
      [done|].
    cbn [foldl]. apply IH. by apply invariant_apply. }
  split; [done|]. split; [by apply invariant_wellFormed|].
  destruct Hend as ([Hp Hv] & _). split.
  - intros p s Hs. unfold productStock in Hs.
    apply fmap_Some in Hs as (pr & Hpr & ->). by apply (Hp p pr).
  - intros v s Hs. unfold variantStock in Hs.
    apply fmap_Some in Hs as (vr & Hvr & ->). by apply (Hv v vr).
Qed.

Lemma shop_keeps_invariant_witness :
  Shop.invariant Samples.db_cart4
  ∧ Shop.invariant
      (foldl Shop.apply Samples.db_cart4
         [Shop.AddToCart 0 "user-123"
            (CartService.mkAddToCartDto "prod-1" None 6);
          Shop.UpdateCartItem 0 "user-123" "prod-1" 7;
          Shop.OnOrders
            (Lifecycle.Create ∅ Samples.env None "user-123" Samples.dto);
          Shop.AddToCart 1 "user-123"
            (CartService.mkAddToCartDto "prod-1" None 4);
          Shop.OnOrders
            (Lifecycle.Cancel Samples.env None "user-123" "order-123" None)]).
Proof.
  assert (Shop.invariant Samples.db_cart4) as Hinv.
  { repeat split.
    - apply map_Forall_singleton. cbn. lia.
    - apply map_Forall_empty.
    - repeat constructor. cbn. lia.
    - constructor.
    - repeat constructor.
    - apply NoDup_singleton. }
  split; [exact Hinv|].
  refine (proj1 (shop_keeps_invariant _ _ Hinv _)).
  repeat constructor; cbn; (lia || discriminate).
Defined.

(* ===================================================================== *)
(** * Shipping an order *)
(* ===================================================================== *)




(** X27: removing a coupon frees its code.  With unique codes, [remove] of
    an existing coupon deletes that row only; afterwards [findByCode]
    throws 'Invalid coupon code' for every request whose upper-case form is
    its code, and [create] accepts the code again.  [remove] of an unknown
    id throws 'Coupon not found' and changes nothing.  Nothing is assumed
    of the upper-casing function. *)
Theorem remove_frees_code toUpperCase db id c :
  Coupons.uniqueCodes db →
  coupons db !! id = Some c →
  ∃ db',
    Coupons.remove db id = (inr tt, db')
    ∧ coupons db' = delete id (coupons db)
    ∧ Coupons.uniqueCodes db'
    ∧ (∀ env code, toUpperCase code = c_code c →
         CouponsService.findByCode toUpperCase env db' code = inl InvalidCouponCode)
    ∧ (∀ newId dto,
         Coupons.dto_code dto = c_code c → coupons db' !! newId = None →
         Coupons.create newId db' dto
         = (inr (Coupons.newCoupon dto),
            set_coupons (insert newId (Coupons.newCoupon dto)) db'))
    ∧ (∀ other, coupons db !! other = None →
         Coupons.remove db other = (inl Coupons.CouponNotFound, db)).
Proof.
  intros Huniq Hc. unfold Coupons.remove at 1, Coupons.findOne. rewrite Hc.
  eexists. split; [reflexivity|]. split; [reflexivity|].
  set (db' := set_coupons (delete id) db).
  assert (∀ i ci, coupons db' !! i = Some ci →
                  i ≠ id ∧ coupons db !! i = Some ci) as Hback.
  { intros i ci Hi. unfold db' in Hi. cbn [coupons set_coupons] in Hi.
    by apply lookup_delete_Some in Hi as [? ?]. }
  assert (CouponsService.findOneByCode db' (c_code c) = None) as Hgone.
  { apply findOneByCode_None. intros i ci Hi Hcode.
    apply Hback in Hi as [Hne Hi]. apply Hne.
    by apply (Huniq i id ci c). }
  split; [|split; [|split]].
  - intros i j ci cj Hi Hj Hcode.
    apply Hback in Hi as [_ Hi]. apply Hback in Hj as [_ Hj].
    by apply (Huniq i j ci cj).
  - intros env code Hcode. unfold CouponsService.findByCode.
    by rewrite Hcode, Hgone.
  - intros newId dto Hcode Hfresh. unfold Coupons.create.
    rewrite Hcode, Hgone. by rewrite bool_decide_eq_true_2.
  - intros other Hother. unfold Coupons.remove, Coupons.findOne.
    by rewrite Hother.
Qed.

Lemma remove_frees_code_witness :
  Coupons.uniqueCodes Samples.db_coupon
  ∧ ∃ db',
    Coupons.remove Samples.db_coupon "coupon-1" = (inr tt, db')
    ∧ CouponsService.findByCode toUpperCase_ascii Samples.env db' "save10"
      = inl InvalidCouponCode.
Proof.
  assert (Coupons.uniqueCodes Samples.db_coupon) as Huniq.
  { intros i j ci cj Hi Hj _.
    unfold Samples.db_coupon in Hi, Hj. cbn [coupons] in Hi, Hj.
    apply lookup_singleton_Some in Hi as [<- _].
    by apply lookup_singleton_Some in Hj as [<- _]. }
  split; [exact Huniq|].
  destruct (remove_frees_code toUpperCase_ascii Samples.db_coupon "coupon-1"
              Samples.coupon_save10 Huniq eq_refl)
    as (db' & Hrun & _ & _ & Hfind & _).
  exists db'. split; [exact Hrun|]. by apply Hfind.
Defined.

(* ===================================================================== *)
(** * Adding to a line that is already in the cart *)
(* ===================================================================== *)

Section SameKey.
Import CartService.

(** Under the unique key, the lookup of [addToCart] returns the line of
    the requested key, whatever the choice of the database, when the
    request names a variant or the user has no line with a variant for the
    product. *)
Lemma findCartItem_same_key pick db userId dto i existing :
  NoDup (Cart.key <$> cartItems db) →
  cartItems db !! i = Some existing →
  Cart.key existing = (userId, productId dto, variantId dto) →
  (variantId dto = None →
   Forall (λ ci, ci_userId ci = userId → ci_productId ci = productId dto →
                 ci_variantId ci = None) (cartItems db)) →
  findCartItem pick db userId (productId dto) (variantId dto)
  = Some (i, existing).
Proof.
  intros Hnodup Hi Hkey Hplain. unfold Cart.key in Hkey.
  injection Hkey as Hu Hp Hv.
  destruct (findCartItem pick db userId (productId dto) (variantId dto))
    as [[j ci]|] eqn:Hfind.
  - apply findCartItem_Some in Hfind as (Hj & Hu' & Hp' & Hv').
    assert (ci_variantId ci = variantId dto) as Hvar.
    { destruct (variantId dto) as [v|] eqn:Hvid; [exact Hv'|].
      apply list_elem_of_lookup_2 in Hj.
      exact (proj1 (list.Forall_forall _ _) (Hplain eq_refl) ci Hj Hu' Hp'). }
    assert (Cart.key ci = Cart.key existing) as Hsame.
    { unfold Cart.key. by rewrite Hu, Hp, Hv, Hu', Hp', Hvar. }
    assert (j = i) as ->.
    { apply (NoDup_lookup _ _ _ (Cart.key existing) Hnodup).
      - by rewrite list_lookup_fmap, Hj, <-Hsame.
      - by rewrite list_lookup_fmap, Hi. }
    rewrite Hi in Hj. by injection Hj as <-.
  - exfalso. apply findCartItem_None in Hfind.
    apply list_elem_of_lookup_2 in Hi.
    apply (proj1 (list.Forall_forall _ _) Hfind existing Hi).
    split; [done|]. split; [done|]. unfold variantMatches.
    by destruct (variantId dto).
Qed.

End SameKey.

(** X29, the part of the line merging that holds: under the unique key of
    the cart, [addToCart] for a (user, product, variant) that has a line,
    where the request names a variant or the user has no line with a
    variant for the product, never creates a line.  Product and variant
    passing the validation, it throws the insufficient-stock exception and
    changes nothing when the requested quantity, or the line's quantity
    plus the requested one, exceeds the available stock; otherwise the
    line read back from the cart carries the sum of the two quantities
    under the same key, and every other line, the products and the
    variants are as before. *)
Theorem addToCart_adds_to_line_of_key pick db userId dto i existing avail :
  NoDup (Cart.key <$> cartItems db) →
  cartItems db !! i = Some existing →
  Cart.key existing
  = (userId, CartService.productId dto, CartService.variantId dto) →
  (CartService.variantId dto = None →
   Forall (λ ci, ci_userId ci = userId →
                 ci_productId ci = CartService.productId dto →
                 ci_variantId ci = None) (cartItems db)) →
  CartService.availableStock db dto = inr avail →
  match CartService.addToCart pick db userId dto with
  | (inl e, db') =>
      db' = db ∧ e = CartInsufficientStock avail
      ∧ (avail < CartService.quantity dto
         ∨ avail < ci_quantity existing + CartService.quantity dto)
  | (inr item, db') =>
      CartService.quantity dto ≤ avail
      ∧ ci_quantity existing + CartService.quantity dto ≤ avail
      ∧ item = mkCartItem userId (CartService.productId dto)
                 (CartService.variantId dto)
                 (ci_quantity existing + CartService.quantity dto)
      ∧ cartItems db' !! i = Some item
      ∧ (∀ j, j ≠ i → cartItems db' !! j = cartItems db !! j)
      ∧ length (cartItems db') = length (cartItems db)
      ∧ products db' = products db ∧ variants db' = variants db
  end.
Proof.
  intros Hnodup Hi Hkey Hplain Hav.
  pose proof (findCartItem_same_key pick db userId dto i existing Hnodup Hi
                Hkey Hplain) as Hfind.
  unfold CartService.addToCart. rewrite Hav, Hfind.
  case_bool_decide as Hq; [by auto|].
  case_bool_decide as Hsum; [by auto|].
  cbn [cartItems set_cartItems products variants].
  split; [lia|]. split; [lia|]. split.
  { unfold Cart.key in Hkey. injection Hkey as <- <- <-. by destruct existing. }
  split; [apply list_lookup_insert_eq; by apply lookup_lt_Some in Hi|].
  split; [intros j Hj; by apply list_lookup_insert_ne|].
  split; [apply length_insert|done].
Qed.

Lemma addToCart_adds_to_line_of_key_witness :
  ∃ item db',
    CartService.addToCart 1 Samples.db_variant_and_plain "user-123"
      (CartService.mkAddToCartDto "prod-1" (Some "var-1") 5) = (inr item, db')
    ∧ item = Samples.line_variant 7
    ∧ cartItems db' !! 0%nat = Some item
    ∧ cartItems db' !! 1%nat = Some (Samples.line_plain 1)
    ∧ length (cartItems db') = 2%nat.
Proof.
  assert (NoDup (Cart.key <$> cartItems Samples.db_variant_and_plain))
    as Hnodup.
  { change (NoDup [Cart.key (Samples.line_variant 2);
                   Cart.key (Samples.line_plain 1)]).
    apply NoDup_cons_2; [|apply NoDup_singleton].
    intros Hin. apply list_elem_of_singleton in Hin. discriminate Hin. }
  assert (CartService.variantId
            (CartService.mkAddToCartDto "prod-1" (Some "var-1") 5) = None →
          Forall (λ ci, ci_userId ci = "user-123" →
                        ci_productId ci = "prod-1" → ci_variantId ci = None)
                 (cartItems Samples.db_variant_and_plain)) as Hplain
    by (intros Hnone; discriminate Hnone).
  pose proof (addToCart_adds_to_line_of_key 1 Samples.db_variant_and_plain
                "user-123"
                (CartService.mkAddToCartDto "prod-1" (Some "var-1") 5)
                0%nat (Samples.line_variant 2) 10 Hnodup eq_refl eq_refl
                Hplain eq_refl) as Hrun.
  destruct (CartService.addToCart 1 Samples.db_variant_and_plain "user-123"
              (CartService.mkAddToCartDto "prod-1" (Some "var-1") 5))
    as [[e|item] db'].
  - destruct Hrun as (_ & _ & [Hlt|Hlt]); cbn in Hlt; lia.
  - destruct Hrun as (_ & _ & Hitem & Hat & Hother & Hlen & _).
    exists item, db'. split; [reflexivity|]. split; [exact Hitem|].
    split; [exact Hat|]. split; [|exact Hlen].
    by rewrite (Hother 1%nat).
Defined.
